(** * App Store ranking pipeline: scraper (get_app_store.py) and loader
      (json_to_db.py), embedded as Rocq functions.

    Conventions of the embedding.
    - A Python [str] is a Rocq [string]: the UTF-8 bytes of the text.  The
      literal ["未知"] is therefore six bytes.  A character is a code point:
      [str.isdigit], [str.strip] and [int(str)] read the text character by
      character, with the tables of Unicode 14.0.0 (those of CPython 3.11).
    - A Python exception is a value of [exn]; code that can raise returns a
      [result].
    - Values that went through [json.load] (or are handed to [json.dump])
      are of type [value]; numbers with a fraction or an exponent are not
      part of the embedding. *)

From Stdlib Require Import List String Ascii ZArith Lia Bool Arith.
From Stdlib Require Import Permutation Sorted.
Import ListNotations.

Set Warnings "-register-all".

Open Scope string_scope.
Open Scope Z_scope.

(** ** Exceptions and results *)

Inductive exn_class :=
| KeyError | ValueError | TypeError | AttributeError | OverflowError
| FileNotFoundError | JSONDecodeError
| RequestException        (* requests.RequestException and its subclasses *)
| OperationalError | IntegrityError | ProgrammingError | DatabaseError
| OtherException.         (* any other subclass of Exception *)

Record exn := mkExn { exn_cls : exn_class; exn_msg : string }.

Inductive result (A : Type) :=
| Ok (a : A)
| Raise (e : exn).
Arguments Ok {A} a.
Arguments Raise {A} e.

Definition bind {A B} (m : result A) (k : A -> result B) : result B :=
  match m with
  | Ok a => k a
  | Raise e => Raise e
  end.

Declare Scope py_scope.
Delimit Scope py_scope with py.
Notation "'do' x <- m ; k" := (bind m (fun x => k))
  (at level 10, x name, m at level 100, k at level 200) : py_scope.
Open Scope py_scope.

Definition raise {A} (c : exn_class) (msg : string) : result A :=
  Raise (mkExn c msg).

(** [try: body except cls: handler] for a handler that does not look at the
    exception. *)
Definition exn_class_eqb (a b : exn_class) : bool :=
  match a, b with
  | KeyError, KeyError | ValueError, ValueError | TypeError, TypeError
  | AttributeError, AttributeError | OverflowError, OverflowError
  | FileNotFoundError, FileNotFoundError | JSONDecodeError, JSONDecodeError
  | RequestException, RequestException
  | OperationalError, OperationalError | IntegrityError, IntegrityError
  | ProgrammingError, ProgrammingError | DatabaseError, DatabaseError
  | OtherException, OtherException => true
  | _, _ => false
  end.

Definition try_except {A} (body : result A) (cls : exn_class) (handler : A)
  : result A :=
  match body with
  | Ok a => Ok a
  | Raise e => if exn_class_eqb (exn_cls e) cls then Ok handler else Raise e
  end.

Definition is_ok {A} (r : result A) : bool :=
  match r with Ok _ => true | Raise _ => false end.

(** ** Unicode *)

Module Unicode.

(** The digit zero of every run of ten decimal digits (category Nd), the
    other characters with a digit value (superscripts, circled digits and
    the like), and the white space characters. *)
Definition DECIMAL_ZEROS : list Z :=
  [0x30; 0x660; 0x6f0; 0x7c0; 0x966; 0x9e6; 0xa66; 0xae6;
   0xb66; 0xbe6; 0xc66; 0xce6; 0xd66; 0xde6; 0xe50; 0xed0;
   0xf20; 0x1040; 0x1090; 0x17e0; 0x1810; 0x1946; 0x19d0; 0x1a80;
   0x1a90; 0x1b50; 0x1bb0; 0x1c40; 0x1c50; 0xa620; 0xa8d0; 0xa900;
   0xa9d0; 0xa9f0; 0xaa50; 0xabf0; 0xff10; 0x104a0; 0x10d30; 0x11066;
   0x110f0; 0x11136; 0x111d0; 0x112f0; 0x11450; 0x114d0; 0x11650; 0x116c0;
   0x11730; 0x118e0; 0x11950; 0x11c50; 0x11d50; 0x11da0; 0x16a60; 0x16ac0;
   0x16b50; 0x1d7ce; 0x1d7d8; 0x1d7e2; 0x1d7ec; 0x1d7f6; 0x1e140; 0x1e2f0;
   0x1e950; 0x1fbf0].

Definition OTHER_DIGITS : list (Z * Z) :=
  [(0xb2, 0xb3); (0xb9, 0xb9); (0x1369, 0x1371); (0x19da, 0x19da);
   (0x2070, 0x2070); (0x2074, 0x2079); (0x2080, 0x2089); (0x2460, 0x2468);
   (0x2474, 0x247c); (0x2488, 0x2490); (0x24ea, 0x24ea); (0x24f5, 0x24fd);
   (0x24ff, 0x24ff); (0x2776, 0x277e); (0x2780, 0x2788); (0x278a, 0x2792);
   (0x10a40, 0x10a43); (0x10e60, 0x10e68); (0x11052, 0x1105a);
   (0x1f100, 0x1f10a)].

Definition WHITE_SPACE : list (Z * Z) :=
  [(0x9, 0xd); (0x1c, 0x20); (0x85, 0x85); (0xa0, 0xa0);
   (0x1680, 0x1680); (0x2000, 0x200a); (0x2028, 0x2029); (0x202f, 0x202f);
   (0x205f, 0x205f); (0x3000, 0x3000)].

Definition in_range (cp : Z) (r : Z * Z) : bool :=
  (fst r <=? cp) && (cp <=? snd r).

Definition in_ranges (cp : Z) (l : list (Z * Z)) : bool :=
  existsb (in_range cp) l.

(** The value of a decimal digit. *)
Definition decimal (cp : Z) : option Z :=
  match List.find (fun z => in_range cp (z, z + 9)) DECIMAL_ZEROS with
  | Some z => Some (cp - z)
  | None => None
  end.

Definition isdecimal (cp : Z) : bool :=
  match decimal cp with Some _ => true | None => false end.

Definition isdigit (cp : Z) : bool :=
  isdecimal cp || in_ranges cp OTHER_DIGITS.

Definition isspace (cp : Z) : bool := in_ranges cp WHITE_SPACE.

End Unicode.

(** ** Python strings *)

Module PyStr.

Definition code (c : ascii) : Z := Z.of_N (N_of_ascii c).

(** The ten ASCII digits. *)
Definition is_ascii_digit (c : ascii) : bool :=
  (48 <=? code c) && (code c <=? 57).

(** The white space of C's [isspace]: TAB..CR and space. *)
Definition c_isspace (c : ascii) : bool :=
  ((9 <=? code c) && (code c <=? 13)) || (code c =? 32).

Fixpoint filter (p : ascii -> bool) (s : string) : string :=
  match s with
  | EmptyString => EmptyString
  | String c s' => if p c then String c (filter p s') else filter p s'
  end.

(** Every byte of [s] satisfies [p]. *)
Fixpoint all (p : ascii -> bool) (s : string) : bool :=
  match s with
  | EmptyString => true
  | String c s' => p c && all p s'
  end.

Fixpoint c_lstrip (s : string) : string :=
  match s with
  | String c s' => if c_isspace c then c_lstrip s' else s
  | EmptyString => EmptyString
  end.

(** [c_rstrip] keeps a byte when it is not white space or when something
    that is kept follows it. *)
Fixpoint c_rstrip (s : string) : string :=
  match s with
  | EmptyString => EmptyString
  | String c s' =>
      match c_rstrip s' with
      | EmptyString => if c_isspace c then EmptyString else String c EmptyString
      | r => String c r
      end
  end.

Definition c_strip (s : string) : string := c_rstrip (c_lstrip s).

(** [s.split(sep)[0]] for a one-character separator: the text before the
    first occurrence of [sep], or all of [s]. *)
Fixpoint split_head (sep : ascii) (s : string) : string :=
  match s with
  | EmptyString => EmptyString
  | String c s' => if Ascii.eqb c sep then EmptyString
                   else String c (split_head sep s')
  end.

Fixpoint startswith (p s : string) : bool :=
  match p, s with
  | EmptyString, _ => true
  | String a p', String b s' => Ascii.eqb a b && startswith p' s'
  | String _ _, EmptyString => false
  end.

(** [s] without its prefix [p], when it starts with [p]. *)
Fixpoint after (p s : string) : option string :=
  match p, s with
  | EmptyString, _ => Some s
  | String a p', String b s' => if Ascii.eqb a b then after p' s' else None
  | String _ _, EmptyString => None
  end.

Definition endswith (p s : string) : bool :=
  let lp := String.length p in
  let ls := String.length s in
  (lp <=? ls)%nat && String.eqb (substring (ls - lp) lp s) p.

(** [sub in s] for strings. *)
Fixpoint contains (sub s : string) : bool :=
  startswith sub s ||
  match s with
  | EmptyString => false
  | String _ s' => contains sub s'
  end.

(** [len(s)]: the number of code points of UTF-8 text, that is the bytes
    that are not continuation bytes (10xxxxxx). *)
Fixpoint len (s : string) : nat :=
  match s with
  | EmptyString => 0%nat
  | String c s' =>
      if (128 <=? code c) && (code c <? 192) then len s' else S (len s')
  end.

Fixpoint repeat (c : ascii) (n : nat) : string :=
  match n with
  | O => EmptyString
  | S n' => String c (repeat c n')
  end.

(** [format(s, "<w")]: left-justified in a field of [w] code points. *)
Definition ljust (w : nat) (s : string) : string :=
  s ++ repeat " "%char (w - len s).

(** The characters of [s], as [for c in s] yields them: UTF-8 text cut
    before every byte that is not a continuation byte. *)
Definition is_continuation (c : ascii) : bool :=
  (128 <=? code c) && (code c <? 192).

Fixpoint take_continuation (s : string) : string * string :=
  match s with
  | String c s' =>
      if is_continuation c then
        let (h, t) := take_continuation s' in (String c h, t)
      else (EmptyString, s)
  | EmptyString => (EmptyString, EmptyString)
  end.

Fixpoint chars_aux (fuel : nat) (s : string) : list string :=
  match fuel, s with
  | S fuel', String c s' =>
      let (h, t) := take_continuation s' in
      String c h :: chars_aux fuel' t
  | _, _ => []
  end.

Definition chars (s : string) : list string := chars_aux (String.length s) s.

Fixpoint concat (l : list string) : string :=
  match l with
  | [] => EmptyString
  | s :: l' => s ++ concat l'
  end.

(** The code point of one character (its UTF-8 bytes); -1 for bytes that
    are no character. *)
Definition trail (c : ascii) : Z := code c - 128.

Definition codepoint (ch : string) : Z :=
  match ch with
  | String c0 EmptyString => if code c0 <? 128 then code c0 else -1
  | String c0 (String c1 EmptyString) =>
      if (192 <=? code c0) && (code c0 <? 224) && is_continuation c1
      then (code c0 - 192) * 64 + trail c1
      else -1
  | String c0 (String c1 (String c2 EmptyString)) =>
      if (224 <=? code c0) && (code c0 <? 240) &&
         is_continuation c1 && is_continuation c2
      then (code c0 - 224) * 4096 + trail c1 * 64 + trail c2
      else -1
  | String c0 (String c1 (String c2 (String c3 EmptyString))) =>
      if (240 <=? code c0) && (code c0 <? 248) &&
         is_continuation c1 && is_continuation c2 && is_continuation c3
      then (code c0 - 240) * 262144 + trail c1 * 4096 + trail c2 * 64 + trail c3
      else -1
  | _ => -1
  end.

(** The bytes of one character: a first byte and the continuation bytes
    after it. *)
Definition is_char (ch : string) : bool :=
  match ch with
  | String c h => negb (is_continuation c) && all is_continuation h
  | EmptyString => false
  end.

(** [str.isdigit], [str.isdecimal] and [str.isspace] on one character. *)
Definition isdigit (ch : string) : bool := Unicode.isdigit (codepoint ch).
Definition isdecimal (ch : string) : bool := Unicode.isdecimal (codepoint ch).
Definition isspace (ch : string) : bool := Unicode.isspace (codepoint ch).

(** ["".join(filter(p, s))]: the characters of [s] that satisfy [p]. *)
Definition filter_chars (p : string -> bool) (s : string) : string :=
  concat (List.filter p (chars s)).

(** [s.strip()]: without the white space characters at its two ends. *)
Fixpoint lstrip_chars (l : list string) : list string :=
  match l with
  | ch :: l' => if isspace ch then lstrip_chars l' else l
  | [] => []
  end.

Definition rstrip_chars (l : list string) : list string :=
  rev (lstrip_chars (rev l)).

Definition strip (s : string) : string :=
  concat (rstrip_chars (lstrip_chars (chars s))).

(** Decimal text of a natural number and of an integer ([str(n)]). *)
Definition digit_char (d : nat) : ascii := ascii_of_nat (48 + d).

Fixpoint of_nat_aux (fuel n : nat) : string :=
  match fuel with
  | O => EmptyString
  | S fuel' =>
      if (n <? 10)%nat then String (digit_char n) EmptyString
      else of_nat_aux fuel' (n / 10) ++ String (digit_char (n mod 10)) EmptyString
  end.

Definition of_nat (n : nat) : string := of_nat_aux (S n) n.

Definition of_Z (z : Z) : string :=
  if z <? 0 then String "-"%char (of_nat (Z.to_nat (- z)))
  else of_nat (Z.to_nat z).

(** Zero-padded decimal of width [w] (as [%02d], [%04d], [%06d]). *)
Definition zpad (w : nat) (z : Z) : string :=
  let s := of_Z z in
  repeat "0"%char (w - String.length s) ++ s.

(** [int(s)].  The text is first brought to ASCII, character by
    character: an ASCII character stays, any other white space character
    becomes a space, any other decimal digit becomes the ASCII digit of its
    value, and anything else becomes a question mark, which no number
    holds.  The ASCII text is then read as C reads it: white space (of C's
    [isspace]) around it is ignored, one sign is allowed, and single
    underscores may separate digits. *)
Definition int_char (ch : string) : ascii :=
  match ch with
  | String c EmptyString => if code c <? 128 then c else "?"%char
  | _ =>
      if isspace ch then " "%char
      else match Unicode.decimal (codepoint ch) with
           | Some d => digit_char (Z.to_nat d)
           | None => "?"%char
           end
  end.

Definition int_text (s : string) : string :=
  string_of_list_ascii (map int_char (chars s)).

Fixpoint int_digits (acc : Z) (after_digit : bool) (s : string) : option Z :=
  match s with
  | EmptyString => if after_digit then Some acc else None
  | String c s' =>
      if is_ascii_digit c then int_digits (10 * acc + (code c - 48)) true s'
      else if Ascii.eqb c "_"%char then
             if after_digit then int_digits acc false s' else None
           else None
  end.

(** The default of [sys.get_int_max_str_digits()]: text with more digits
    is refused (ValueError). *)
Definition INT_MAX_STR_DIGITS : nat := 4300.

(** The sign of the text and what follows it. *)
Definition sign_split (body : string) : bool * string :=
  match body with
  | String c s' =>
      if Ascii.eqb c "-"%char then (true, s')
      else if Ascii.eqb c "+"%char then (false, s')
      else (false, body)
  | EmptyString => (false, body)
  end.

Definition to_int_ascii (t : string) : option Z :=
  let (negative, digits) := sign_split (c_strip t) in
  if (INT_MAX_STR_DIGITS <? String.length (filter is_ascii_digit digits))%nat
  then None
  else if negative then option_map Z.opp (int_digits 0 false digits)
       else int_digits 0 false digits.

Definition to_int (s : string) : option Z := to_int_ascii (int_text s).

End PyStr.

(** ** Python values *)

(** What [json.load] returns and [json.dump] accepts: [None], [bool],
    [int], [str], [list] and [dict] with string keys.  A [dict] keeps its
    keys in insertion order. *)
Inductive value :=
| VNone
| VBool (b : bool)
| VInt (z : Z)
| VStr (s : string)
| VList (l : list value)
| VDict (d : list (string * value)).

Definition dict := list (string * value).

Fixpoint dict_get (k : string) (d : dict) : option value :=
  match d with
  | [] => None
  | (k', v) :: d' => if String.eqb k k' then Some v else dict_get k d'
  end.

Definition dict_has (k : string) (d : dict) : bool :=
  match dict_get k d with Some _ => true | None => false end.

(** [d[k] = v]: an existing key keeps its place. *)
Fixpoint dict_set (k : string) (v : value) (d : dict) : dict :=
  match d with
  | [] => [(k, v)]
  | (k', v') :: d' =>
      if String.eqb k k' then (k, v) :: d' else (k', v') :: dict_set k v d'
  end.

Definition is_str (s : string) (v : value) : bool :=
  match v with VStr s' => String.eqb s s' | _ => false end.

(** [x[k]] for a string [k]. *)
Definition py_getitem (x : value) (k : string) : result value :=
  match x with
  | VDict d =>
      match dict_get k d with
      | Some v => Ok v
      | None => raise KeyError ("'" ++ k ++ "'")
      end
  | VList _ => raise TypeError "list indices must be integers or slices, not str"
  | VStr _ => raise TypeError "string indices must be integers, not 'str'"
  | _ => raise TypeError "object is not subscriptable"
  end.

(** [k in x] for a string [k]. *)
Definition py_contains (k : string) (x : value) : result bool :=
  match x with
  | VDict d => Ok (dict_has k d)
  | VList l => Ok (existsb (is_str k) l)
  | VStr s => Ok (PyStr.contains k s)
  | _ => raise TypeError "argument is not iterable"
  end.

(** [int(x)]. *)
Definition py_int (x : value) : result Z :=
  match x with
  | VInt z => Ok z
  | VBool b => Ok (if b then 1 else 0)
  | VStr s =>
      match PyStr.to_int s with
      | Some z => Ok z
      | None => raise ValueError "invalid literal for int() with base 10"
      end
  | _ => raise TypeError "int() argument must be a string or a real number"
  end.

(** A [dict] has every key once. *)
Fixpoint unique_keys (ks : list string) : bool :=
  match ks with
  | [] => true
  | k :: ks' => negb (existsb (String.eqb k) ks') && unique_keys ks'
  end.

Fixpoint wf_value (v : value) : bool :=
  match v with
  | VList l => forallb wf_value l
  | VDict d =>
      unique_keys (map fst d) &&
      forallb (fun kv : string * value => let (_, x) := kv in wf_value x) d
  | _ => true
  end.

(** The number of values in a value, itself included, counting each item
    of a list or a dict twice. *)
Fixpoint size (v : value) : nat :=
  match v with
  | VList l => S (fold_right (fun x n => (S (size x) + n)%nat) 0%nat l)
  | VDict d =>
      S (fold_right (fun (kv : string * value) n =>
                       let (_, x) := kv in (S (size x) + n)%nat) 0%nat d)
  | _ => 1%nat
  end.

(** ** The parsed page (BeautifulSoup) *)

(** A page element is a tag with its name, the classes of its [class]
    attribute and its children, a text node, or a node that [get_text]
    skips (comment, doctype, ...). *)
Inductive node :=
| Tag (name : string) (class_ : list string) (children : list node)
| NavigableString (s : string)
| Comment (s : string).

(** The document: the children of the BeautifulSoup object. *)
Definition soup := list node.

Definition has_class (c : string) (classes : list string) : bool :=
  existsb (String.eqb c) classes.

(** [find(name, class_=c)]: the first tag in document order, below the
    starting point, with that name and class. *)
Fixpoint find_node (name c : string) (n : node) : option node :=
  match n with
  | Tag nm cls kids =>
      if String.eqb nm name && has_class c cls then Some n
      else
        (fix find_in (l : list node) : option node :=
           match l with
           | [] => None
           | k :: l' =>
               match find_node name c k with
               | Some t => Some t
               | None => find_in l'
               end
           end) kids
  | _ => None
  end.

Fixpoint find (name c : string) (s : list node) : option node :=
  match s with
  | [] => None
  | n :: s' =>
      match find_node name c n with
      | Some t => Some t
      | None => find name c s'
      end
  end.

(** The text nodes below a node, in document order. *)
Fixpoint strings (n : node) : list string :=
  match n with
  | Tag _ _ kids =>
      (fix strings_in (l : list node) : list string :=
         match l with
         | [] => []
         | k :: l' => (strings k ++ strings_in l')%list
         end) kids
  | NavigableString s => [s]
  | Comment _ => []
  end.

(** [tag.get_text()] and [tag.get_text(strip=True)]; calling either on
    [None] (a failed [find]) is an AttributeError. *)
Definition get_text (t : option node) : result string :=
  match t with
  | Some n => Ok (PyStr.concat (strings n))
  | None => raise AttributeError "'NoneType' object has no attribute 'get_text'"
  end.

Definition nonempty (s : string) : bool :=
  match s with EmptyString => false | _ => true end.

Definition get_text_strip (t : option node) : result string :=
  match t with
  | Some n =>
      Ok (PyStr.concat (List.filter nonempty (map PyStr.strip (strings n))))
  | None => raise AttributeError "'NoneType' object has no attribute 'get_text'"
  end.

(** ** get_app_store.py: the two extractions *)

Definition unknown_name : string := "未知".
Definition sentinel_ranking : string := "999999".

Definition _get_app_name (s : soup) : result string :=
  try_except
    (get_text_strip (find "h1" "product-header__title" s))
    AttributeError unknown_name.

(** [if ranking_text:] holds for every tag (a tag is always true) and fails
    for [None]. *)
Definition _get_app_ranking (s : soup) : result string :=
  try_except
    (let ranking_text := find "a" "inline-list__item" s in
     match ranking_text with
     | Some _ =>
         do text <- get_text ranking_text;
         Ok (PyStr.filter_chars PyStr.isdigit text)
     | None => Ok sentinel_ranking
     end)
    AttributeError sentinel_ranking.

(** ** datetime *)

Module DateTime.

(** A naive [datetime].  The year range of Python's [datetime] (1..9999) is
    not modelled. *)
Record datetime := mk {
  year : Z; month : Z; day : Z;
  hour : Z; minute : Z; second : Z; microsecond : Z
}.

Definition is_leap (y : Z) : bool :=
  (y mod 4 =? 0) && (negb (y mod 100 =? 0) || (y mod 400 =? 0)).

Definition days_before_year (y : Z) : Z :=
  let y1 := y - 1 in y1 * 365 + y1 / 4 - y1 / 100 + y1 / 400.

Definition DAYS_IN_MONTH : list Z :=
  [-1; 31; 28; 31; 30; 31; 30; 31; 31; 30; 31; 30; 31].

Definition DAYS_BEFORE_MONTH : list Z :=
  [-1; 0; 31; 59; 90; 120; 151; 181; 212; 243; 273; 304; 334].

Definition b2z (b : bool) : Z := if b then 1 else 0.

Definition days_before_month (y m : Z) : Z :=
  nth (Z.to_nat m) DAYS_BEFORE_MONTH 0 + b2z ((2 <? m) && is_leap y).

Definition ymd2ord (y m d : Z) : Z :=
  days_before_year y + days_before_month y m + d.

Definition DI400Y : Z := 146097.
Definition DI100Y : Z := 36524.
Definition DI4Y : Z := 1461.

(** Proleptic Gregorian ordinal to (year, month, day); day 1 is 0001-01-01. *)
Definition ord2ymd (n0 : Z) : Z * Z * Z :=
  let n := n0 - 1 in
  let n400 := n / DI400Y in
  let n := n mod DI400Y in
  let y := n400 * 400 + 1 in
  let n100 := n / DI100Y in
  let n := n mod DI100Y in
  let n4 := n / DI4Y in
  let n := n mod DI4Y in
  let n1 := n / 365 in
  let n := n mod 365 in
  let y := y + n100 * 100 + n4 * 4 + n1 in
  if (n1 =? 4) || (n100 =? 4) then (y - 1, 12, 31)
  else
    let leapyear := (n1 =? 3) && (negb (n4 =? 24) || (n100 =? 3)) in
    let m := Z.shiftr (n + 50) 5 in
    let preceding :=
      nth (Z.to_nat m) DAYS_BEFORE_MONTH 0 + b2z ((2 <? m) && leapyear) in
    if n <? preceding then
      let m' := m - 1 in
      let preceding' :=
        preceding -
        (nth (Z.to_nat m') DAYS_IN_MONTH 0 + b2z ((m' =? 2) && leapyear)) in
      (y, m', n - preceding' + 1)
    else (y, m, n - preceding + 1).

Definition toordinal (t : datetime) : Z := ymd2ord (year t) (month t) (day t).

Definition US_PER_SECOND : Z := 1000000.
Definition US_PER_DAY : Z := 86400 * US_PER_SECOND.

(** The instant counted in microseconds from 0001-01-01T00:00:00, and back. *)
Definition to_micros (t : datetime) : Z :=
  (toordinal t - 1) * US_PER_DAY +
  ((hour t * 60 + minute t) * 60 + second t) * US_PER_SECOND + microsecond t.

Definition of_micros (u : Z) : datetime :=
  let days := u / US_PER_DAY in
  let r := u mod US_PER_DAY in
  let secs := r / US_PER_SECOND in
  let us := r mod US_PER_SECOND in
  let '(y, m, d) := ord2ymd (days + 1) in
  let hh := secs / 3600 in
  let rem := secs mod 3600 in
  mk y m d hh (rem / 60) (rem mod 60) us.

(** [t + timedelta(hours=h)]: through the ordinal, as [datetime.__add__]. *)
Definition add_hours (t : datetime) (h : Z) : datetime :=
  of_micros (to_micros t + h * 3600 * US_PER_SECOND).

(** [t.isoformat()]: the fraction is printed only when it is not zero. *)
Definition isoformat (t : datetime) : string :=
  PyStr.zpad 4 (year t) ++ "-" ++ PyStr.zpad 2 (month t) ++ "-" ++
  PyStr.zpad 2 (day t) ++ "T" ++ PyStr.zpad 2 (hour t) ++ ":" ++
  PyStr.zpad 2 (minute t) ++ ":" ++ PyStr.zpad 2 (second t) ++
  (if microsecond t =? 0 then "" else "." ++ PyStr.zpad 6 (microsecond t)).

(** [t.strftime('%Y%m%d_%H%M%S')] and [t.strftime('%Y-%m-%d %H:%M:%S')]
    (years of four digits). *)
Definition strftime_compact (t : datetime) : string :=
  PyStr.zpad 4 (year t) ++ PyStr.zpad 2 (month t) ++ PyStr.zpad 2 (day t) ++
  "_" ++ PyStr.zpad 2 (hour t) ++ PyStr.zpad 2 (minute t) ++
  PyStr.zpad 2 (second t).

Definition strftime_pretty (t : datetime) : string :=
  PyStr.zpad 4 (year t) ++ "-" ++ PyStr.zpad 2 (month t) ++ "-" ++
  PyStr.zpad 2 (day t) ++ " " ++ PyStr.zpad 2 (hour t) ++ ":" ++
  PyStr.zpad 2 (minute t) ++ ":" ++ PyStr.zpad 2 (second t).

End DateTime.

(** ** The world the scraper runs in *)

Record response := mkResponse {
  status_code : Z;
  reason : string;
  resp_url : string;
  text : string            (* the body, decoded as UTF-8 *)
}.

(** The outside world, as oracles indexed by the number of earlier calls:
    what [datetime.utcnow()] and [datetime.now()] read (microseconds since
    0001-01-01T00:00:00), the modification time a written file gets, what
    [session.get] answers, and what the HTML parser builds. *)
Record world := mkWorld {
  utc_clock : nat -> Z;
  local_clock : nat -> Z;
  file_clock : nat -> Z;
  network : nat -> string -> result response;
  html_parser : string -> result soup
}.

Inductive level := INFO | ERROR.

(** The state of one run: how often each oracle was asked, the records the
    root logger has handled and the lines printed on standard output. *)
Record run := mkRun {
  utc_reads : nat;
  local_reads : nat;
  requests : nat;
  writes : nat;
  log : list (level * string);
  stdout : list string
}.

Definition run0 : run := mkRun 0 0 0 0 [] [].

(** [logging.info] and [logging.error].  The root logger hands the record
    to the two handlers [logging.basicConfig] installed: the FileHandler
    appends its line to the log file and the StreamHandler writes the same
    line to standard error.  Nothing goes to standard output. *)
Definition logging (lv : level) (msg : string) (st : run) : run :=
  mkRun (utc_reads st) (local_reads st) (requests st) (writes st)
        (log st ++ [(lv, msg)])%list (stdout st).

(** The line of a record, after the time the format puts in front of it
    ([%(asctime)s], not modelled): [%(levelname)s - %(message)s]. *)
Definition level_name (lv : level) : string :=
  match lv with
  | INFO => "INFO"
  | ERROR => "ERROR"
  end.

Definition log_line (r : level * string) : string :=
  level_name (fst r) ++ " - " ++ snd r.

(** What the run has written to standard error, and what it has appended
    to the log file. *)
Definition stderr (st : run) : list string := map log_line (log st).
Definition log_file (st : run) : list string := map log_line (log st).

Definition print (line : string) (st : run) : run :=
  mkRun (utc_reads st) (local_reads st) (requests st) (writes st) (log st)
        (stdout st ++ [line])%list.

Definition utcnow (w : world) (st : run) : DateTime.datetime * run :=
  (DateTime.of_micros (utc_clock w (utc_reads st)),
   mkRun (S (utc_reads st)) (local_reads st) (requests st) (writes st)
         (log st) (stdout st)).

Definition now (w : world) (st : run) : DateTime.datetime * run :=
  (DateTime.of_micros (local_clock w (local_reads st)),
   mkRun (utc_reads st) (S (local_reads st)) (requests st) (writes st)
         (log st) (stdout st)).

Definition session_get (w : world) (url : string) (st : run)
  : result response * run :=
  (network w (requests st) url,
   mkRun (utc_reads st) (local_reads st) (S (requests st)) (writes st)
         (log st) (stdout st)).

(** [response.raise_for_status()]: HTTPError, a RequestException, for a
    status in 400..599. *)
Definition raise_for_status (r : response) : result unit :=
  if (400 <=? status_code r) && (status_code r <? 500) then
    raise RequestException
      (PyStr.of_Z (status_code r) ++ " Client Error: " ++ reason r ++
       " for url: " ++ resp_url r)
  else if (500 <=? status_code r) && (status_code r <? 600) then
    raise RequestException
      (PyStr.of_Z (status_code r) ++ " Server Error: " ++ reason r ++
       " for url: " ++ resp_url r)
  else Ok tt.

(** ** get_app_store.py *)

Definition get_taiwan_time (w : world) (st : run) : string * run :=
  let '(utc_now, st1) := utcnow w st in
  let taiwan_time := DateTime.add_hours utc_now 8 in
  (DateTime.isoformat taiwan_time, st1).

(** The time stamp [get_taiwan_time] gives in state [st]. *)
Definition taiwan_time_at (w : world) (st : run) : string :=
  DateTime.isoformat
    (DateTime.add_hours (DateTime.of_micros (utc_clock w (utc_reads st))) 8).

(** The body of the [try] of [fetch_app_info] for one URL, up to the
    construction of [app_info]. *)
Definition fetch_try (w : world) (url : string) (st : run)
  : result value * run :=
  let st := logging INFO ("開始抓取: " ++ url) st in
  (* time.sleep(2) *)
  let '(got, st) := session_get w url st in
  match
    (do response <- got;
     do _ <- raise_for_status response;
     do soup <- html_parser w (text response);
     do name <- _get_app_name soup;
     do ranking <- _get_app_ranking soup;
     Ok (name, ranking))
  with
  | Raise e => (Raise e, st)
  | Ok (name, ranking) =>
      let '(ts, st) := get_taiwan_time w st in
      (Ok (VDict [("name", VStr name); ("ranking", VStr ranking);
                  ("url", VStr url); ("timestamp", VStr ts)]), st)
  end.

(** The record both [except] clauses append. *)
Definition error_record (url : string) (e : exn) (ts : string) : value :=
  VDict [("name", VStr unknown_name); ("ranking", VStr sentinel_ranking);
         ("url", VStr url); ("error", VStr (exn_msg e));
         ("timestamp", VStr ts)].

Definition name_of (app_info : value) : string :=
  match py_getitem app_info "name" with
  | Ok (VStr s) => s
  | _ => ""
  end.

(** One turn of the [for] loop. *)
Definition fetch_one (w : world) (url : string) (st : run) : value * run :=
  match fetch_try w url st with
  | (Ok app_info, st) =>
      (app_info, logging INFO ("成功抓取應用程式資訊: " ++ name_of app_info) st)
  | (Raise e, st) =>
      let st :=
        if exn_class_eqb (exn_cls e) RequestException
        then logging ERROR ("網路請求錯誤: " ++ url ++ " - " ++ exn_msg e) st
        else logging ERROR ("處理錯誤: " ++ url ++ " - " ++ exn_msg e) st in
      let '(ts, st) := get_taiwan_time w st in
      (error_record url e ts, st)
  end.

Fixpoint fetch_loop (w : world) (urls : list string)
                    (app_infos : list value) (st : run)
  : list value * run :=
  match urls with
  | [] => (app_infos, st)
  | url :: urls' =>
      let '(app_info, st) := fetch_one w url st in
      fetch_loop w urls' (app_infos ++ [app_info])%list st
  end.

Definition fetch_app_info (w : world) (urls : list string) (st : run)
  : list value * run :=
  fetch_loop w urls [] st.

(** [sorted(l, key=key)]: the keys are computed first, left to right (the
    first failure is raised), then the list is sorted on them by a stable
    sort; an insertion sort stands for Python's. *)
Fixpoint map_result {A B} (f : A -> result B) (l : list A)
  : result (list B) :=
  match l with
  | [] => Ok []
  | x :: l' =>
      do y <- f x;
      do ys <- map_result f l';
      Ok (y :: ys)
  end.

(** Insertion sort on a key: an element goes in front of the first one
    whose key is not smaller, so elements of equal key keep their order. *)
Fixpoint insert_by {K R} (leb : K -> K -> bool) (key : R -> K)
         (x : R) (l : list R) : list R :=
  match l with
  | [] => [x]
  | y :: l' =>
      if leb (key x) (key y) then x :: l else y :: insert_by leb key x l'
  end.

Definition sort_by {K R} (leb : K -> K -> bool) (key : R -> K)
           (l : list R) : list R :=
  fold_right (insert_by leb key) [] l.

Definition sort_keyed {A} (l : list (Z * A)) : list (Z * A) :=
  sort_by Z.leb fst l.

Definition sorted {A} (l : list A) (key : A -> result Z) : result (list A) :=
  do keys <- map_result key l;
  Ok (map snd (sort_keyed (combine keys l))).

(** Every pair holds an element and its key. *)
Definition keyed {A} (key : A -> result Z) (s : list (Z * A)) : Prop :=
  Forall (fun p => key (snd p) = Ok (fst p)) s.

Definition ranking_key (x : value) : result Z :=
  do r <- py_getitem x "ranking";
  py_int r.

Definition sort_apps_by_ranking (app_infos : list value)
  : result (list value) :=
  sorted app_infos ranking_key.

(** The ranking of a record is a string of characters that
    [str.isdigit] accepts. *)
Definition digit_ranking (r : value) : Prop :=
  exists s, py_getitem r "ranking" = Ok (VStr s) /\
            forallb PyStr.isdigit (PyStr.chars s) = true.

(** Text that is a decimal number and nothing else: at least one character,
    decimal digits only, and no more of them than [int] reads. *)
Definition decimal_text (s : string) : bool :=
  match PyStr.chars s with
  | [] => false
  | l => forallb PyStr.isdecimal l &&
         (List.length l <=? PyStr.INT_MAX_STR_DIGITS)%nat
  end.

Definition decimal_ranking (r : value) : bool :=
  match py_getitem r "ranking" with
  | Ok (VStr s) => decimal_text s
  | _ => false
  end.

(** Whether the sort key of [x] is [k]. *)
Definition key_is (k : Z) (x : value) : bool :=
  match ranking_key x with
  | Ok k' => k' =? k
  | Raise _ => false
  end.

(** ** json.dump and json.load *)

Module Json.

Definition dquote : ascii := "034"%char.
Definition newline : ascii := "010"%char.

(** *** Writing: [json.dumps(v, ensure_ascii=False, indent=4)] *)

Definition hex_digit (n : Z) : ascii :=
  ascii_of_N (Z.to_N (if n <? 10 then 48 + n else 87 + n)).

(** One character inside a JSON string: the quote, the backslash and the
    control characters are escaped, everything else (all of UTF-8) is
    written as it is. *)
Definition escape (c : ascii) : string :=
  let n := PyStr.code c in
  if n =? 34 then String "\"%char (String dquote "")
  else if n =? 92 then "\\"
  else if n =? 10 then "\n"
  else if n =? 13 then "\r"
  else if n =? 9 then "\t"
  else if n =? 8 then "\b"
  else if n =? 12 then "\f"
  else if n <? 32 then
         "\u00" ++ String (hex_digit (n / 16)) (String (hex_digit (n mod 16)) "")
  else String c "".

Fixpoint escape_string (s : string) : string :=
  match s with
  | EmptyString => EmptyString
  | String c s' => escape c ++ escape_string s'
  end.

(** The characters [escape] leaves as they are: everything from the space
    on, the quote and the backslash apart. *)
Definition plain (c : ascii) : bool :=
  (32 <=? PyStr.code c) && negb (PyStr.code c =? 34) &&
  negb (PyStr.code c =? 92).

Definition encode_basestring (s : string) : string :=
  String dquote (escape_string s ++ String dquote "").

Definition newline_indent (lvl : nat) : string :=
  String newline (PyStr.repeat " "%char (4 * lvl)).

Fixpoint dumps_at (lvl : nat) (v : value) : string :=
  match v with
  | VNone => "null"
  | VBool true => "true"
  | VBool false => "false"
  | VInt z => PyStr.of_Z z
  | VStr s => encode_basestring s
  | VList l =>
      match l with
      | [] => "[]"
      | x :: l' =>
          "[" ++ newline_indent (S lvl) ++ dumps_at (S lvl) x ++
          PyStr.concat
            (map (fun y => "," ++ newline_indent (S lvl) ++ dumps_at (S lvl) y)
                 l') ++
          newline_indent lvl ++ "]"
      end
  | VDict d =>
      match d with
      | [] => "{}"
      | (k, x) :: d' =>
          "{" ++ newline_indent (S lvl) ++
          encode_basestring k ++ ": " ++ dumps_at (S lvl) x ++
          PyStr.concat
            (map (fun kv : string * value =>
                    let (k', y) := kv in
                    "," ++ newline_indent (S lvl) ++
                    encode_basestring k' ++ ": " ++ dumps_at (S lvl) y)
                 d') ++
          newline_indent lvl ++ "}"
      end
  end.

Definition dumps (v : value) : string := dumps_at 0 v.

(** *** Reading: [json.loads(text)] *)

Definition is_ws (c : ascii) : bool :=
  let n := PyStr.code c in (n =? 32) || (n =? 9) || (n =? 10) || (n =? 13).

Fixpoint skip_ws (s : string) : string :=
  match s with
  | String c s' => if is_ws c then skip_ws s' else s
  | EmptyString => EmptyString
  end.

Definition hex_val (c : ascii) : option Z :=
  let n := PyStr.code c in
  if (48 <=? n) && (n <=? 57) then Some (n - 48)
  else if (97 <=? n) && (n <=? 102) then Some (n - 87)
  else if (65 <=? n) && (n <=? 70) then Some (n - 55)
  else None.

Definition hex4 (a b c d : ascii) : option Z :=
  match hex_val a, hex_val b, hex_val c, hex_val d with
  | Some x, Some y, Some z, Some t => Some (((x * 16 + y) * 16 + z) * 16 + t)
  | _, _, _, _ => None
  end.

Definition unescape (e : ascii) : option ascii :=
  let n := PyStr.code e in
  if n =? 34 then Some dquote
  else if n =? 92 then Some "\"%char
  else if n =? 47 then Some "/"%char
  else if n =? 98 then Some "008"%char
  else if n =? 102 then Some "012"%char
  else if n =? 110 then Some "010"%char
  else if n =? 114 then Some "013"%char
  else if n =? 116 then Some "009"%char
  else None.

(** What a JSON string is made of: a literal byte or a [\uXXXX] escape. *)
Inductive cunit :=
| UByte (c : ascii)
| UEsc (u : Z).

Definition cons_units (u : cunit) (r : option (list cunit * string))
  : option (list cunit * string) :=
  match r with
  | Some (us, rest) => Some (u :: us, rest)
  | None => None
  end.

(** The text after an opening quote, up to the closing one (strict mode:
    a raw control character is an error). *)
Fixpoint scan_units (s : string) : option (list cunit * string) :=
  match s with
  | EmptyString => None
  | String c s' =>
      if Ascii.eqb c dquote then Some ([], s')
      else if Ascii.eqb c "\"%char then
        match s' with
        | String e s'' =>
            if Ascii.eqb e "u"%char then
              match s'' with
              | String h1 (String h2 (String h3 (String h4 s4))) =>
                  match hex4 h1 h2 h3 h4 with
                  | Some u => cons_units (UEsc u) (scan_units s4)
                  | None => None
                  end
              | _ => None
              end
            else
              match unescape e with
              | Some c' => cons_units (UByte c') (scan_units s'')
              | None => None
              end
        | EmptyString => None
        end
      else if PyStr.code c <? 32 then None
      else cons_units (UByte c) (scan_units s')
  end.

Definition byte_of (n : Z) : ascii := ascii_of_N (Z.to_N n).

(** UTF-8 of a code point. *)
Definition utf8 (u : Z) : string :=
  if u <? 128 then String (byte_of u) ""
  else if u <? 2048 then
    String (byte_of (192 + u / 64)) (String (byte_of (128 + u mod 64)) "")
  else if u <? 65536 then
    String (byte_of (224 + u / 4096))
      (String (byte_of (128 + (u / 64) mod 64))
         (String (byte_of (128 + u mod 64)) ""))
  else
    String (byte_of (240 + u / 262144))
      (String (byte_of (128 + (u / 4096) mod 64))
         (String (byte_of (128 + (u / 64) mod 64))
            (String (byte_of (128 + u mod 64)) ""))).

Definition is_high (u : Z) : bool := (55296 <=? u) && (u <=? 56319).
Definition is_low (u : Z) : bool := (56320 <=? u) && (u <=? 57343).

Definition prepend (p : string) (r : option string) : option string :=
  match r with Some s => Some (p ++ s) | None => None end.

(** The string the units stand for: two escapes that form a surrogate pair
    are one code point.  A surrogate on its own has no UTF-8 text and is
    outside the embedding ([None]). *)
Fixpoint decode_units (l : list cunit) : option string :=
  match l with
  | [] => Some ""
  | UByte c :: l' => prepend (String c "") (decode_units l')
  | UEsc u :: l' =>
      if is_high u then
        match l' with
        | UEsc u2 :: l'' =>
            if is_low u2 then
              prepend (utf8 (65536 + ((u - 55296) * 1024 + (u2 - 56320))))
                      (decode_units l'')
            else None
        | _ => None
        end
      else if is_low u then None
      else prepend (utf8 u) (decode_units l')
  end.

Definition scanstring (s : string) : option (string * string) :=
  match scan_units s with
  | Some (us, rest) =>
      match decode_units us with
      | Some str => Some (str, rest)
      | None => None
      end
  | None => None
  end.

(** The longest run of digits at the front, as a number, and what follows. *)
Fixpoint span_digits (acc : Z) (s : string) : Z * string :=
  match s with
  | String c s' =>
      if PyStr.is_ascii_digit c then span_digits (10 * acc + (PyStr.code c - 48)) s'
      else (acc, s)
  | EmptyString => (acc, s)
  end.

Definition starts_with_digit (s : string) : bool :=
  match s with String c _ => PyStr.is_ascii_digit c | EmptyString => false end.

(** Whether a fraction or an exponent follows the integer part; such a
    number is a float, which the embedding does not have. *)
Definition float_follows (s : string) : bool :=
  match s with
  | String c s' =>
      if Ascii.eqb c "."%char then starts_with_digit s'
      else if Ascii.eqb c "e"%char || Ascii.eqb c "E"%char then
        match s' with
        | String d s'' =>
            if Ascii.eqb d "+"%char || Ascii.eqb d "-"%char
            then starts_with_digit s''
            else PyStr.is_ascii_digit d
        | EmptyString => false
        end
      else false
  | EmptyString => false
  end.

(** The integer part [0|[1-9][0-9]*] of a number. *)
Definition scan_natural (s : string) : option (Z * string) :=
  match s with
  | String c s' =>
      if Ascii.eqb c "0"%char then Some (0, s')
      else if PyStr.is_ascii_digit c then Some (span_digits 0 s)
      else None
  | EmptyString => None
  end.

Definition scan_signed (s : string) : option (Z * string) :=
  match s with
  | String c s' =>
      if Ascii.eqb c "-"%char then
        match scan_natural s' with
        | Some (n, rest) => Some (- n, rest)
        | None => None
        end
      else scan_natural s
  | EmptyString => None
  end.

Definition scan_number (s : string) : option (value * string) :=
  match scan_signed s with
  | Some (z, rest) => if float_follows rest then None else Some (VInt z, rest)
  | None => None
  end.

(** [dict(pairs)]: a repeated key keeps its first place and its last
    value. *)
Definition dict_of_pairs (pairs : list (string * value)) : dict :=
  fold_left (fun d kv => dict_set (fst kv) (snd kv) d) pairs [].

(** What follows a value inside an array or an object. *)
Inductive follow := Close (rest : string) | Comma (rest : string) | Other.

Definition after_value (close : ascii) (s : string) : follow :=
  match skip_ws s with
  | String c rest =>
      if Ascii.eqb c close then Close rest
      else if Ascii.eqb c ","%char then Comma rest
      else Other
  | EmptyString => Other
  end.

(** A closing bracket right after the opening one (white space apart). *)
Definition closes_at_once (close : ascii) (s : string) : option string :=
  match skip_ws s with
  | String c rest => if Ascii.eqb c close then Some rest else None
  | EmptyString => None
  end.

(** [null], [true], [false]. *)
Definition scan_constant (s : string) : option (value * string) :=
  match PyStr.after "null" s with
  | Some rest => Some (VNone, rest)
  | None =>
      match PyStr.after "true" s with
      | Some rest => Some (VBool true, rest)
      | None =>
          match PyStr.after "false" s with
          | Some rest => Some (VBool false, rest)
          | None => None
          end
      end
  end.

(** [scan_once]: one value at the front of the text.  [fuel] bounds the
    nesting and the number of items; [loads] supplies enough of it. *)
Fixpoint scan_once (fuel : nat) (s : string) : option (value * string) :=
  match fuel with
  | O => None
  | S fuel' =>
      match s with
      | EmptyString => None
      | String c s' =>
          if Ascii.eqb c dquote then
            match scanstring s' with
            | Some (str, rest) => Some (VStr str, rest)
            | None => None
            end
          else if Ascii.eqb c "["%char then
            match closes_at_once "]"%char s' with
            | Some rest => Some (VList [], rest)
            | None =>
                match parse_items fuel' (skip_ws s') with
                | Some (l, rest) => Some (VList l, rest)
                | None => None
                end
            end
          else if Ascii.eqb c "{"%char then
            match closes_at_once "}"%char s' with
            | Some rest => Some (VDict [], rest)
            | None =>
                match parse_pairs fuel' (skip_ws s') with
                | Some (ps, rest) => Some (VDict (dict_of_pairs ps), rest)
                | None => None
                end
            end
          else
            match scan_constant s with
            | Some r => Some r
            | None => scan_number s
            end
      end
  end

(** The items of an array, from the first item to the closing bracket. *)
with parse_items (fuel : nat) (s : string) : option (list value * string) :=
  match fuel with
  | O => None
  | S fuel' =>
      match scan_once fuel' s with
      | Some (v, rest) =>
          match after_value "]"%char rest with
          | Close rest' => Some ([v], rest')
          | Comma rest' =>
              match parse_items fuel' (skip_ws rest') with
              | Some (l, rest'') => Some (v :: l, rest'')
              | None => None
              end
          | Other => None
          end
      | None => None
      end
  end

(** The members of an object, from the first key to the closing brace. *)
with parse_pairs (fuel : nat) (s : string)
  : option (list (string * value) * string) :=
  match fuel with
  | O => None
  | S fuel' =>
      match s with
      | String c s' =>
          if Ascii.eqb c dquote then
            match scanstring s' with
            | Some (k, rest) =>
                match skip_ws rest with
                | String c1 rest1 =>
                    if Ascii.eqb c1 ":"%char then
                      match scan_once fuel' (skip_ws rest1) with
                      | Some (v, rest2) =>
                          match after_value "}"%char rest2 with
                          | Close rest3 => Some ([(k, v)], rest3)
                          | Comma rest3 =>
                              match parse_pairs fuel' (skip_ws rest3) with
                              | Some (ps, rest4) => Some ((k, v) :: ps, rest4)
                              | None => None
                              end
                          | Other => None
                          end
                      | None => None
                      end
                    else None
                | EmptyString => None
                end
            | None => None
            end
          else None
      | EmptyString => None
      end
  end.

(** The characters a written value can start with, and the texts after
    which a written number ends. *)
Definition value_start (c : ascii) : bool :=
  PyStr.is_ascii_digit c || Ascii.eqb c "-"%char || Ascii.eqb c dquote ||
  Ascii.eqb c "["%char || Ascii.eqb c "{"%char || Ascii.eqb c "n"%char ||
  Ascii.eqb c "t"%char || Ascii.eqb c "f"%char.

Definition number_start (c : ascii) : bool :=
  PyStr.is_ascii_digit c || Ascii.eqb c "-"%char.

Definition delimited (rest : string) : bool :=
  negb (starts_with_digit rest) && negb (float_follows rest).

(** [json.loads]: one value, white space around it, nothing else. *)
Definition loads (s : string) : option value :=
  match scan_once (2 * String.length s + 2) (skip_ws s) with
  | Some (v, rest) =>
      match skip_ws rest with
      | EmptyString => Some v
      | _ => None
      end
  | None => None
  end.

End Json.

(** *** Vocabulary of the round trip *)

(** A text starts with a character that satisfies [p]. *)
Definition starts (p : ascii -> bool) (s : string) : Prop :=
  exists c s', s = String c s' /\ p c = true.

(** A value reads back when the reader, given its text at any depth of
    indentation and followed by anything that ends a number, returns the
    value and what follows. *)
Definition reads_back (v : value) : Prop :=
  forall lvl fuel rest,
    (size v <= fuel)%nat -> Json.delimited rest = true ->
    Json.scan_once fuel (Json.dumps_at lvl v ++ rest) = Some (v, rest).

Definition items_size (l : list value) : nat :=
  fold_right (fun x n => (S (size x) + n)%nat) 0%nat l.

Definition pairs_size (d : list (string * value)) : nat :=
  fold_right (fun (kv : string * value) n =>
                let (_, x) := kv in (S (size x) + n)%nat) 0%nat d.

(** The text of the items of an array after the first one, and of the
    members of an object after the first one. *)
Definition items_text (lvl : nat) (l : list value) : string :=
  PyStr.concat
    (map (fun y => "," ++ Json.newline_indent lvl ++ Json.dumps_at lvl y) l).

Definition pairs_text (lvl : nat) (d : list (string * value)) : string :=
  PyStr.concat
    (map (fun kv : string * value =>
            let (k', y) := kv in
            "," ++ Json.newline_indent lvl ++
            Json.encode_basestring k' ++ ": " ++ Json.dumps_at lvl y) d).

(** The text of a value is long enough to pay for reading it. *)
Definition text_bound (v : value) : Prop :=
  forall lvl, (size v <= S (String.length (Json.dumps_at lvl v)))%nat.

(** ** Files *)

Record file := mkFile { path : string; mtime : Z; content : string }.

(** The files, in the order the directory lists them.  The log files are
    not among them: what a run appends to its log file is [log_file]. *)
Definition filesystem := list file.

Fixpoint fs_find (p : string) (fs : filesystem) : option file :=
  match fs with
  | [] => None
  | f :: fs' => if String.eqb (path f) p then Some f else fs_find p fs'
  end.

(** [open(p, 'w')] and a write: the file is created or replaced. *)
Fixpoint fs_write (p : string) (t : Z) (c : string) (fs : filesystem)
  : filesystem :=
  match fs with
  | [] => [mkFile p t c]
  | f :: fs' =>
      if String.eqb (path f) p then mkFile p t c :: fs'
      else f :: fs_write p t c fs'
  end.

(** [os.path.join(a, b)] for a relative [b]. *)
Definition path_join (a b : string) : string :=
  if String.eqb a "" then b
  else if PyStr.endswith "/" a then a ++ b
  else a ++ "/" ++ b.

Definition open_read (fs : filesystem) (p : string) : result string :=
  match fs_find p fs with
  | Some f => Ok (content f)
  | None => raise FileNotFoundError ("No such file or directory: " ++ p)
  end.

(** [with open(p, 'r', encoding='utf-8') as f: json.load(f)]. *)
Definition json_load (fs : filesystem) (p : string) : result value :=
  do text <- open_read fs p;
  match Json.loads text with
  | Some v => Ok v
  | None => raise JSONDecodeError "Expecting value"
  end.

Definition DATA_DIR : string := "app_store_ranking".
Definition DB_DIR : string := "database".

(** ** get_app_store.py: save_to_json *)

Definition json_file_name (t : DateTime.datetime) : string :=
  "app_store_ranking_" ++ DateTime.strftime_compact t ++ ".json".

Definition count_write (st : run) : run :=
  mkRun (utc_reads st) (local_reads st) (requests st) (S (writes st))
        (log st) (stdout st).

(** The directory [folder_name] exists (the module creates it when it is
    loaded).  Returns the state of the run and of the files; the path that
    was written is the one the log entry names. *)
Definition save_to_json (w : world) (app_infos : list value)
           (folder_name : string) (st : run) (fs : filesystem)
  : string * run * filesystem :=
  let '(t, st) := now w st in
  let file_name := json_file_name t in
  let file_path := path_join folder_name file_name in
  let '(ts, st) := get_taiwan_time w st in
  let data := VDict [("timestamp", VStr ts); ("apps", VList app_infos)] in
  let fs := fs_write file_path (file_clock w (writes st)) (Json.dumps data) fs in
  let st := count_write st in
  let st := logging INFO ("數據已保存到: " ++ file_path) st in
  let st := print (String Json.newline ("數據已保存到: " ++ file_path)) st in
  (file_path, st, fs).

(** ** The SQLite database *)

Module Sqlite.

(** A bound parameter. *)
Inductive sqlval :=
| SNull
| SInteger (z : Z)
| SText (s : string).

Definition INT64_MIN : Z := -9223372036854775808.
Definition INT64_MAX : Z := 9223372036854775807.

(** How the [sqlite3] module binds a Python value. *)
Definition adapt (v : value) : result sqlval :=
  match v with
  | VNone => Ok SNull
  | VBool b => Ok (SInteger (if b then 1 else 0))
  | VInt z =>
      if (INT64_MIN <=? z) && (z <=? INT64_MAX) then Ok (SInteger z)
      else raise OverflowError "Python int too large to convert to SQLite INTEGER"
  | VStr s => Ok (SText s)
  | VList _ | VDict _ =>
      raise ProgrammingError "Error binding parameter: type is not supported"
  end.

(** What a column declared [TEXT] stores (an integer becomes its text), with
    and without [NOT NULL]. *)
Definition text_column (v : sqlval) : option string :=
  match v with
  | SNull => None
  | SInteger z => Some (PyStr.of_Z z)
  | SText s => Some s
  end.

Definition text_not_null (column : string) (v : sqlval) : result string :=
  match text_column v with
  | Some s => Ok s
  | None => raise IntegrityError ("NOT NULL constraint failed: " ++ column)
  end.

(** The rows of the two tables.  [ranking] is only ever bound to a Python
    [int], so the column holds integers. *)
Record apps_row := mkApp {
  app_id : Z;
  app_name : string;
  app_version : option string;
  app_ranking : Z;
  app_url : string;
  app_date : string;
  app_timestamp : string;
  app_created_at : string
}.

Record errors_row := mkErr {
  err_id : Z;
  err_name : string;
  err_url : string;
  err_error_message : string;
  err_timestamp : string;
  err_created_at : string
}.

(** A table with an AUTOINCREMENT key: its rows in rowid order and the
    largest key ever given out. *)
Record table (R : Type) := mkTable { rows : list R; seq : Z }.
Arguments mkTable {R} rows seq.
Arguments rows {R} t.
Arguments seq {R} t.

Definition empty_table {R} : table R := mkTable [] 0.

(** The database file: each table exists or not. *)
Record database := mkDb {
  apps : option (table apps_row);
  errors : option (table errors_row)
}.

Definition empty_db : database := mkDb None None.

(** A connection: what is durable in the file, what this connection sees,
    and whether it has an open transaction. *)
Record connection := mkConn {
  committed : database;
  working : database;
  in_transaction : bool
}.

Definition connect (db : database) : connection := mkConn db db false.

(** A statement: it may raise, and it changes the connection. *)
Definition sql (A : Type) := connection -> result A * connection.

Definition ret {A} (a : A) : sql A := fun c => (Ok a, c).

Definition bind_sql {A B} (m : sql A) (k : A -> sql B) : sql B :=
  fun c =>
    match m c with
    | (Ok a, c') => k a c'
    | (Raise e, c') => (Raise e, c')
    end.

(** A Python expression evaluated between two statements. *)
Definition lift {A} (r : result A) : sql A := fun c => (r, c).

(** A statement that writes opens a transaction when none is open. *)
Definition write (f : database -> result database) : sql unit :=
  fun c =>
    match f (working c) with
    | Ok db' => (Ok tt, mkConn (committed c) db' true)
    | Raise e => (Raise e, c)
    end.

(** [conn.commit()]. *)
Definition commit : sql unit :=
  fun c => (Ok tt, mkConn (working c) (working c) false).

(** [conn.close()], or the connection going away: what was not committed is
    rolled back, and the file holds [committed]. *)
Definition close (c : connection) : database := committed c.

(** A statement keeps the durable state when it leaves [committed] as it
    found it, whatever its outcome. *)
Definition keeps_committed {A} (m : sql A) : Prop :=
  forall c, committed (snd (m c)) = committed c.

Definition no_such_table {A} (name : string) : result A :=
  raise OperationalError ("no such table: " ++ name).

(** [CREATE TABLE IF NOT EXISTS]: outside a transaction the statement is
    durable at once. *)
Definition create_apps (db : database) : database :=
  mkDb (Some (match apps db with Some t => t | None => empty_table end))
       (errors db).

Definition create_errors (db : database) : database :=
  mkDb (apps db)
       (Some (match errors db with Some t => t | None => empty_table end)).

Definition ddl (f : database -> database) : sql unit :=
  fun c =>
    if in_transaction c
    then (Ok tt, mkConn (committed c) (f (working c)) true)
    else (Ok tt, mkConn (f (working c)) (f (working c)) false).

(** [SELECT COUNT( * ) FROM apps WHERE date = ?]. *)
Definition count_apps_by_date (date : string) : sql Z :=
  fun c =>
    match apps (working c) with
    | Some t =>
        (Ok (Z.of_nat
               (List.length
                  (List.filter (fun r => String.eqb (app_date r) date)
                               (rows t)))), c)
    | None => (no_such_table "apps", c)
    end.

(** [DELETE FROM apps WHERE date = ?]. *)
Definition delete_apps_by_date (date : string) : sql unit :=
  write (fun db =>
    match apps db with
    | Some t =>
        Ok (mkDb (Some (mkTable
                          (List.filter
                             (fun r => negb (String.eqb (app_date r) date))
                             (rows t))
                          (seq t)))
                 (errors db))
    | None => no_such_table "apps"
    end).

Section Engine.

(** SQLite's [date()] on a text: the date it denotes as YYYY-MM-DD, or NULL
    when the text is not a time value.  The function belongs to the storage
    engine and is left open here. *)
Variable sqlite_date : string -> option string.

Definition date_matches (date : string) (r : errors_row) : bool :=
  match sqlite_date (err_timestamp r) with
  | Some d => String.eqb d date
  | None => false
  end.

(** [DELETE FROM errors WHERE date(timestamp) = ?]. *)
Definition delete_errors_by_date (date : string) : sql unit :=
  write (fun db =>
    match errors db with
    | Some t =>
        Ok (mkDb (apps db)
                 (Some (mkTable
                          (List.filter (fun r => negb (date_matches date r))
                                       (rows t))
                          (seq t))))
    | None => no_such_table "errors"
    end).

End Engine.

(** The key of a new row; SQLite refuses the insert when the largest key
    was already given out. *)
Definition next_id {R} (t : table R) : result Z :=
  if INT64_MAX <=? seq t then raise OperationalError "database or disk is full"
  else Ok (seq t + 1).

(** [cursor.execute(sql, parameters)]: the statement is prepared, which
    needs its table, before the parameters are bound. *)
Definition prepared {R} (tbl : database -> option (table R)) (name : string)
           (statement : sql unit) : sql unit :=
  fun c =>
    match tbl (working c) with
    | Some _ => statement c
    | None => (no_such_table name, c)
    end.

(** [INSERT INTO errors (name, url, error_message, timestamp, created_at)
    VALUES (?, ?, ?, ?, ?)]: the parameters are bound in order, then the
    row is built and its constraints checked. *)
Definition insert_error (name url error_message timestamp created_at : value)
  : sql unit :=
  prepared errors "errors"
  (bind_sql (lift (do p1 <- adapt name;
                  do p2 <- adapt url;
                  do p3 <- adapt error_message;
                  do p4 <- adapt timestamp;
                  do p5 <- adapt created_at;
                  Ok (p1, p2, p3, p4, p5)))
    (fun '(p1, p2, p3, p4, p5) =>
       write (fun db =>
         match errors db with
         | Some t =>
             do id <- next_id t;
             do c1 <- text_not_null "errors.name" p1;
             do c2 <- text_not_null "errors.url" p2;
             do c3 <- text_not_null "errors.error_message" p3;
             do c4 <- text_not_null "errors.timestamp" p4;
             do c5 <- text_not_null "errors.created_at" p5;
             Ok (mkDb (apps db)
                      (Some (mkTable
                               (rows t ++ [mkErr id c1 c2 c3 c4 c5])%list
                               id)))
         | None => no_such_table "errors"
         end))).

(** [INSERT INTO apps (name, version, ranking, url, date, timestamp,
    created_at) VALUES (?, ?, ?, ?, ?, ?, ?)]; [ranking] is a Python int. *)
Definition insert_app (name version : value) (ranking : Z)
           (url date timestamp created_at : value) : sql unit :=
  prepared apps "apps"
  (bind_sql (lift (do p1 <- adapt name;
                  do p2 <- adapt version;
                  do p3 <- adapt (VInt ranking);
                  do p4 <- adapt url;
                  do p5 <- adapt date;
                  do p6 <- adapt timestamp;
                  do p7 <- adapt created_at;
                  Ok (p1, p2, p4, p5, p6, p7)))
    (fun '(p1, p2, p4, p5, p6, p7) =>
       write (fun db =>
         match apps db with
         | Some t =>
             do id <- next_id t;
             do c1 <- text_not_null "apps.name" p1;
             do c4 <- text_not_null "apps.url" p4;
             do c5 <- text_not_null "apps.date" p5;
             do c6 <- text_not_null "apps.timestamp" p6;
             do c7 <- text_not_null "apps.created_at" p7;
             Ok (mkDb (Some (mkTable
                               (rows t ++
                                [mkApp id c1 (text_column p2) ranking
                                       c4 c5 c6 c7])%list
                               id))
                      (errors db))
         | None => no_such_table "apps"
         end))).

(** [ORDER BY key]: rows with equal keys are kept in rowid order (SQL leaves
    their order open). *)
Definition order_by {K R} (leb : K -> K -> bool) (key : R -> K)
           (l : list R) : list R :=
  sort_by leb key l.

(** [LIMIT n]: a negative [n] is no limit. *)
Definition limit_rows {R} (n : Z) (l : list R) : list R :=
  if n <? 0 then l else firstn (Z.to_nat n) l.

End Sqlite.

(** ** json_to_db.py *)

Import Sqlite.

Notation "'exec' x <- m ; k" := (bind_sql m (fun x => k))
  (at level 10, x name, m at level 100, k at level 200) : py_scope.

(** [glob.glob(os.path.join(DATA_DIR, "app_store_ranking_*.json"))]: the
    star stands for any text without a slash. *)
Fixpoint has_slash (s : string) : bool :=
  match s with
  | EmptyString => false
  | String c s' => Ascii.eqb c "/"%char || has_slash s'
  end.

Definition glob_match (p : string) : bool :=
  match PyStr.after (path_join DATA_DIR "app_store_ranking_") p with
  | Some rest => PyStr.endswith ".json" rest && negb (has_slash rest)
  | None => false
  end.

Definition glob_json_files (fs : filesystem) : list file :=
  List.filter (fun f => glob_match (path f)) fs.

(** [max(l, key=...)]: the first of the largest. *)
Fixpoint max_by {A} (key : A -> Z) (best : A) (l : list A) : A :=
  match l with
  | [] => best
  | x :: l' => if key best <? key x then max_by key x l' else max_by key best l'
  end.

Definition get_latest_json_file (fs : filesystem) : option string :=
  match glob_json_files fs with
  | [] => None
  | f :: files => Some (path (max_by mtime f files))
  end.

Definition create_database (db : database) (st : run) : database * run :=
  let conn := connect db in
  let '(_, conn) :=
    (exec _ <- ddl create_apps;
     exec _ <- ddl create_errors;
     commit) conn in
  (close conn, logging INFO ("資料庫已創建: " ++ path_join DB_DIR "app_store.db") st).

(** [data.get(k, default)]. *)
Definition py_get (data : value) (k : string) (default : value)
  : result value :=
  match data with
  | VDict d =>
      match dict_get k d with
      | Some v => Ok v
      | None => Ok default
      end
  | _ => raise AttributeError "object has no attribute 'get'"
  end.

(** [x.split('T')[0]]. *)
Definition py_split_T_head (x : value) : result string :=
  match x with
  | VStr s => Ok (PyStr.split_head "T"%char s)
  | _ => raise AttributeError "object has no attribute 'split'"
  end.

(** What [for app in x] goes through. *)
Definition py_iter (x : value) : result (list value) :=
  match x with
  | VList l => Ok l
  | VDict d => Ok (map (fun kv => VStr (fst kv)) d)
  | VStr s => Ok (map VStr (PyStr.chars s))
  | _ => raise TypeError "object is not iterable"
  end.

Section Loader.

Variable sqlite_date : string -> option string.

(** The body of the [for] loop of [import_json_to_db]. *)
Definition import_app (date current_time : string) (app : value) : sql unit :=
  exec is_error <- lift (py_contains "error" app);
  if (is_error : bool) then
    exec name <- lift (py_getitem app "name");
    exec url <- lift (py_getitem app "url");
    exec error <- lift (py_getitem app "error");
    exec timestamp <- lift (py_getitem app "timestamp");
    insert_error name url error timestamp (VStr current_time)
  else
    exec name <- lift (py_getitem app "name");
    exec version <- lift (py_getitem app "version");
    exec ranking_text <- lift (py_getitem app "ranking");
    exec ranking <- lift (py_int ranking_text);
    exec url <- lift (py_getitem app "url");
    exec timestamp <- lift (py_getitem app "timestamp");
    insert_app name version ranking url (VStr date) timestamp
               (VStr current_time).

Fixpoint import_apps (date current_time : string) (l : list value)
  : sql unit :=
  match l with
  | [] => ret tt
  | app :: l' =>
      exec _ <- import_app date current_time app;
      import_apps date current_time l'
  end.

(** [import_json_to_db] from the connection to the end of the loop, and
    then to the commit. *)
Definition import_rows (data : value) (current_time : string) : sql unit :=
  exec timestamp <- lift (py_get data "timestamp" (VStr ""));
  exec date <- lift (py_split_T_head timestamp);
  exec n <- count_apps_by_date date;
  exec _ <- (if 0 <? n then
               exec _ <- delete_apps_by_date date;
               delete_errors_by_date sqlite_date date
             else ret tt);
  exec apps_value <- lift (py_get data "apps" (VList []));
  exec l <- lift (py_iter apps_value);
  import_apps date current_time l.

Definition import_data (data : value) (current_time : string) : sql unit :=
  exec _ <- import_rows data current_time;
  commit.

Definition log_overwrite (data : value) (db : database) (st : run) : run :=
  match py_get data "timestamp" (VStr "") with
  | Ok ts =>
      match py_split_T_head ts with
      | Ok date =>
          match count_apps_by_date date (connect db) with
          | (Ok n, _) =>
              if 0 <? n
              then logging INFO ("已存在 " ++ date ++ " 的數據，將覆蓋原有數據") st
              else st
          | _ => st
          end
      | _ => st
      end
  | _ => st
  end.

(** [import_json_to_db(json_file_path, db_path)]: the outcome, the database
    file afterwards, and the state of the run.  An exception leaves the
    function before [conn.commit()] and [conn.close()]; the connection goes
    away with it. *)
Definition import_json_to_db (w : world) (fs : filesystem)
           (json_file_path : string) (db : database) (st : run)
  : result unit * database * run :=
  match json_load fs json_file_path with
  | Raise e => (Raise e, db, st)
  | Ok data =>
      let conn := connect db in
      let '(t, st) := now w st in
      let current_time := DateTime.isoformat t in
      let st := log_overwrite data db st in
      match import_data data current_time conn with
      | (Ok _, conn) =>
          (Ok tt, close conn,
           logging INFO ("已將 " ++ json_file_path ++ " 導入到 " ++
                         path_join DB_DIR "app_store.db") st)
      | (Raise e, conn) => (Raise e, close conn, st)
      end
  end.

End Loader.

(** The rows the two queries return ([dict(row)] with these keys). *)
Record app_result := mkAppResult {
  r_name : string;
  r_version : option string;
  r_ranking : Z;
  r_url : string;
  r_date : string;
  r_timestamp : string
}.

Record error_result := mkErrorResult {
  q_name : string;
  q_url : string;
  q_error_message : string;
  q_timestamp : string
}.

Definition app_result_of (r : apps_row) : app_result :=
  mkAppResult (app_name r) (app_version r) (app_ranking r) (app_url r)
              (app_date r) (app_timestamp r).

Definition error_result_of (r : errors_row) : error_result :=
  mkErrorResult (err_name r) (err_url r) (err_error_message r)
                (err_timestamp r).

(** [ORDER BY timestamp DESC] compares the texts byte by byte. *)
Definition string_geb (a b : string) : bool := String.leb b a.

(** [query_apps(db_path, limit)]: the statement is prepared, then [limit]
    is bound. *)
Definition query_apps (db : database) (limit : Z) : result (list app_result) :=
  match apps db with
  | None => no_such_table "apps"
  | Some t =>
      do _ <- adapt (VInt limit);
      Ok (map app_result_of
              (limit_rows limit (order_by Z.leb app_ranking (rows t))))
  end.

Definition query_errors (db : database) (limit : Z)
  : result (list error_result) :=
  match errors db with
  | None => no_such_table "errors"
  | Some t =>
      do _ <- adapt (VInt limit);
      Ok (map error_result_of
              (limit_rows limit (order_by string_geb err_timestamp (rows t))))
  end.

(** [print_query_results]: the lines it prints; formatting [None] with a
    width is a TypeError. *)
Definition format_ljust_opt (w : nat) (v : option string) : result string :=
  match v with
  | Some s => Ok (PyStr.ljust w s)
  | None => raise TypeError "unsupported format string passed to NoneType.__format__"
  end.

Definition app_line (app : app_result) : result string :=
  do version <- format_ljust_opt 8 (r_version app);
  Ok (PyStr.ljust 6 (PyStr.of_Z (r_ranking app)) ++ " " ++
      PyStr.ljust 25 (r_name app) ++ " " ++ version ++ " " ++
      PyStr.ljust 10 (r_date app) ++ " " ++ r_url app).

Definition error_lines (e : error_result) : list string :=
  [PyStr.ljust 40 (q_name e) ++ " " ++ q_url e;
   "錯誤信息: " ++ q_error_message e].

Fixpoint print_each (lines : list string) (st : run) : run :=
  match lines with
  | [] => st
  | l :: lines' => print_each lines' (print l st)
  end.

Fixpoint print_apps (apps : list app_result) (st : run) : result unit * run :=
  match apps with
  | [] => (Ok tt, st)
  | app :: apps' =>
      match app_line app with
      | Ok l => print_apps apps' (print l st)
      | Raise e => (Raise e, st)
      end
  end.

Definition print_query_results (w : world) (apps : list app_result)
           (errors : list error_result) (st : run) : result unit * run :=
  let st := print (String Json.newline
                     "=== App Store 應用程式排名 (資料庫查詢結果) ===") st in
  let '(t, st) := now w st in
  let st := print ("查詢時間: " ++ DateTime.strftime_pretty t) st in
  let st := print (PyStr.repeat "-"%char 80) st in
  let st := print (PyStr.ljust 6 "排名" ++ " " ++ PyStr.ljust 25 "應用程式名稱"
                   ++ " " ++ PyStr.ljust 8 "版本" ++ " " ++
                   PyStr.ljust 10 "日期" ++ " " ++ "網址") st in
  let st := print (PyStr.repeat "-"%char 80) st in
  match print_apps apps st with
  | (Raise e, st) => (Raise e, st)
  | (Ok _, st) =>
      let st :=
        match errors with
        | [] => st
        | _ =>
            let st := print (String Json.newline "=== 錯誤記錄 ===") st in
            let st := print (PyStr.repeat "-"%char 50) st in
            let st := print (PyStr.ljust 40 "應用程式名稱" ++ " " ++ "網址") st in
            let st := print (PyStr.repeat "-"%char 50) st in
            print_each (flat_map error_lines errors) st
        end in
      (Ok tt, print (PyStr.repeat "-"%char 80) st)
  end.

(** ** What a load stores *)

(** What a TEXT column stores when it is given the Python value [v]: the
    text, or NULL; nothing when the value cannot be bound. *)
Definition column (v : value) : option (option string) :=
  match adapt v with
  | Ok p => Some (text_column p)
  | Raise _ => None
  end.

(** The same for a column declared NOT NULL. *)
Definition column_not_null (v : value) : option string :=
  match column v with
  | Some (Some s) => Some s
  | _ => None
  end.

Definition stored_text (x : value) (k : string) : option string :=
  match py_getitem x k with
  | Ok v => column_not_null v
  | Raise _ => None
  end.

(** The row of [errors] for a record, without key and writing time. *)
Definition expected_error (app : value) : option error_result :=
  match stored_text app "name", stored_text app "url",
        stored_text app "error", stored_text app "timestamp" with
  | Some n, Some u, Some e, Some t => Some (mkErrorResult n u e t)
  | _, _, _, _ => None
  end.

(** The row of [apps] for a record, without key and writing time. *)
Definition expected_app (date : string) (app : value) : option app_result :=
  match stored_text app "name", py_getitem app "version", ranking_key app,
        stored_text app "url", stored_text app "timestamp" with
  | Some n, Ok v, Ok z, Some u, Some t =>
      match column v with
      | Some version =>
          if (INT64_MIN <=? z) && (z <=? INT64_MAX)
          then Some (mkAppResult n version z u date t)
          else None
      | None => None
      end
  | _, _, _, _, _ => None
  end.

Definition apps_rows (db : database) : list apps_row :=
  match apps db with Some t => rows t | None => [] end.

Definition errors_rows (db : database) : list errors_row :=
  match errors db with Some t => rows t | None => [] end.

Definition apps_seq (db : database) : Z :=
  match apps db with Some t => seq t | None => 0 end.

Definition errors_seq (db : database) : Z :=
  match errors db with Some t => seq t | None => 0 end.

(** Whether a record goes to [errors]. *)
Definition is_error_record (app : value) : bool :=
  match py_contains "error" app with
  | Ok b => b
  | Raise _ => false
  end.

(** The batch date and the records [import_json_to_db] takes from the
    loaded data, and the time it stamps the rows with. *)
Definition batch_date (data : value) : option string :=
  match py_get data "timestamp" (VStr "") with
  | Ok ts =>
      match py_split_T_head ts with
      | Ok d => Some d
      | Raise _ => None
      end
  | Raise _ => None
  end.

Definition records_of (data : value) : option (list value) :=
  match py_get data "apps" (VList []) with
  | Ok v =>
      match py_iter v with
      | Ok l => Some l
      | Raise _ => None
      end
  | Raise _ => None
  end.

Definition load_time (w : world) (st : run) : string :=
  DateTime.isoformat (DateTime.of_micros (local_clock w (local_reads st))).

Definition has_date (date : string) (r : apps_row) : bool :=
  String.eqb (app_date r) date.

(** What one successful load did to the two tables: the rows it kept and,
    after them, the rows it wrote ([new_apps], [new_errors]). *)
Definition load_effect (sqlite_date : string -> option string)
           (date current_time : string) (l : list value)
           (db db' : database) : Prop :=
  exists (new_apps : list apps_row) (new_errors : list errors_row),
    apps_rows db' =
      (List.filter (fun r => negb (has_date date r)) (apps_rows db)
       ++ new_apps)%list /\
    errors_rows db' =
      ((if existsb (has_date date) (apps_rows db)
        then List.filter (fun r => negb (date_matches sqlite_date date r))
                         (errors_rows db)
        else errors_rows db) ++ new_errors)%list /\
    map Some (map app_result_of new_apps) =
      map (expected_app date)
          (List.filter (fun x => negb (is_error_record x)) l) /\
    map Some (map error_result_of new_errors) =
      map expected_error (List.filter is_error_record l) /\
    Forall (fun r => app_created_at r = current_time /\
                     apps_seq db < app_id r) new_apps /\
    Forall (fun r => err_created_at r = current_time /\
                     errors_seq db < err_id r) new_errors.

(** [main()] of the loader, for the command line [argv]. *)
Definition main (sqlite_date : string -> option string) (w : world)
           (argv : list string) (fs : filesystem) (db : database) (st : run)
  : result unit * database * run :=
  let json_file_path :=
    match argv with
    | _ :: p :: _ => Some p
    | _ => get_latest_json_file fs
    end in
  match json_file_path with
  | None | Some EmptyString =>
      let st := logging ERROR "未找到 JSON 文件" st in
      let st := print "錯誤: 未找到 JSON 文件" st in
      (Ok tt, db, st)
  | Some json_file_path =>
      let db_path := path_join DB_DIR "app_store.db" in
      let '(db, st) := create_database db st in
      match import_json_to_db sqlite_date w fs json_file_path db st with
      | (Raise e, db, st) => (Raise e, db, st)
      | (Ok _, db, st) =>
          match query_apps db 10 with
          | Raise e => (Raise e, db, st)
          | Ok apps =>
              match query_errors db 10 with
              | Raise e => (Raise e, db, st)
              | Ok errors =>
                  match print_query_results w apps errors st with
                  | (Raise e, st) => (Raise e, db, st)
                  | (Ok _, st) =>
                      (Ok tt, db,
                       print (String Json.newline
                                ("數據已成功導入到資料庫: " ++ db_path)) st)
                  end
              end
          end
      end
  end.

(** ** Sample inputs *)

Module Samples.

(** A page whose ranking link has no digit in it, as the App Store shows
    for an app outside the charts: the link then names the category only. *)
Definition page_without_digits : soup :=
  [Tag "html" []
     [Tag "body" []
        [Tag "h1" ["product-header__title"] [NavigableString " MAX "];
         Tag "a" ["inline-list__item"] [NavigableString "Finance"]]]].

(** A page with a ranking. *)
Definition page_ranked : soup :=
  [Tag "html" []
     [Tag "body" []
        [Tag "h1" ["product-header__title"] [NavigableString "BitoPro"];
         Tag "a" ["inline-list__item"] [NavigableString "#12 in Finance"]]]].

Definition html_without_digits : string :=
  "<h1 class='product-header__title'> MAX </h1><a class='inline-list__item'>Finance</a>".

(** A world where every request is answered 200 with that page. *)
Definition world_without_digits : world :=
  mkWorld (fun _ => 63839664000000000) (fun _ => 63839692800000000)
          (fun _ => 1704067200)
          (fun _ url => Ok (mkResponse 200 "OK" url html_without_digits))
          (fun _ => Ok page_without_digits).

(** A world where the first request times out, the second is answered 404
    and the later ones are answered with a ranked page. *)
Definition world_flaky : world :=
  mkWorld (fun n => 63839664000000000 + Z.of_nat n * 2500000)
          (fun n => 63839692800000000 + Z.of_nat n * 2500000)
          (fun _ => 1704067200)
          (fun n url =>
             match n with
             | O => raise RequestException "Connection timed out"
             | S O => Ok (mkResponse 404 "Not Found" url "")
             | _ => Ok (mkResponse 200 "OK" url "<html>")
             end)
          (fun _ => Ok page_ranked).

Definition urls3 : list string := ["u1"; "u2"; "u3"].

Definition record (name ranking : string) : value :=
  VDict [("name", VStr name); ("ranking", VStr ranking);
         ("url", VStr "u"); ("timestamp", VStr "2024-01-01T08:00:00")].

Definition unsorted : list value :=
  [record "A" "5"; record "B" "999999"; record "C" "1"; record "D" "5"].

(** Snapshots, the file that holds one, and a database with its two tables
    and no row. *)
Definition snapshot_path : string :=
  "app_store_ranking/app_store_ranking_20240101_080005.json".

Definition snapshot_file (v : value) : filesystem :=
  [mkFile snapshot_path 1704067205 (Json.dumps v)].

(** What the scraper writes: records without a [version]. *)
Definition snapshot_scraped : value :=
  VDict [("timestamp", VStr "2024-01-01T08:00:05");
         ("apps", VList [record "C" "1"; record "A" "5"])].

Definition timeout_record : value :=
  error_record "u1" (mkExn RequestException "Connection timed out")
               "2024-01-01T08:00:02".

(** A snapshot of a run in which every request failed. *)
Definition snapshot_errors_only : value :=
  VDict [("timestamp", VStr "2024-01-01T08:00:05");
         ("apps", VList [timeout_record])].

Definition versioned (name ranking url timestamp : string) : value :=
  VDict [("name", VStr name); ("version", VStr "1.0");
         ("ranking", VStr ranking); ("url", VStr url);
         ("timestamp", VStr timestamp)].

Definition snapshot_ranked : value :=
  VDict [("timestamp", VStr "2024-01-01T00:00:00");
         ("apps", VList [versioned "A" "5" "u1" "2024-01-01T00:00:00";
                         versioned "B" "1" "u2" "2024-01-01T00:00:01"])].


(** A snapshot with one app and one failed request of the same day. *)
Definition snapshot_mixed : value :=
  VDict [("timestamp", VStr "2024-01-01T08:00:05");
         ("apps", VList [versioned "A" "5" "u2" "2024-01-01T08:00:04";
                         timeout_record])].

(** A snapshot with a failed request and, after it, a record of the
    scraper, which has no [version]. *)
Definition snapshot_mixed_scraped : value :=
  VDict [("timestamp", VStr "2024-01-01T08:00:05");
         ("apps", VList [timeout_record; record "C" "1"])].

Definition fresh_db : Sqlite.database :=
  Sqlite.mkDb (Some Sqlite.empty_table) (Some Sqlite.empty_table).

(** [date()] on the texts [isoformat] writes, for a valid calendar date:
    the first ten characters. *)
Definition iso_date (s : string) : option string :=
  let d := substring 0 10 s in
  let digits := PyStr.filter PyStr.is_ascii_digit d in
  if (String.length d =? 10)%nat && (String.length digits =? 8)%nat &&
     String.eqb (substring 4 1 d) "-" && String.eqb (substring 7 1 d) "-"
  then Some d else None.

End Samples.

(** ** Sample loads *)

Module Loaded.

Definition load (v : value) (db : database) : result unit * database * run :=
  import_json_to_db Samples.iso_date Samples.world_flaky
    (Samples.snapshot_file v) Samples.snapshot_path db run0.

(** The mixed snapshot loaded into empty tables, and loaded again. *)
Definition once : database := snd (fst (load Samples.snapshot_mixed Samples.fresh_db)).
Definition once_run : run := snd (load Samples.snapshot_mixed Samples.fresh_db).
Definition twice : database := snd (fst (load Samples.snapshot_mixed once)).
Definition twice_run : run := snd (load Samples.snapshot_mixed once).

(** What is left of a load of the scraper's own snapshot, which raises. *)
Definition failed : database :=
  snd (fst (load Samples.snapshot_scraped Samples.fresh_db)).

End Loaded.

(** ** Sample runs of [main] *)

Module MainRuns.

Definition argv : list string := ["json_to_db.py"; Samples.snapshot_path].

(** The database and the run state [main] hands to the load, starting from
    an empty database file. *)
Definition created : database := fst (create_database empty_db run0).
Definition created_run : run := snd (create_database empty_db run0).

Definition load (v : value) : result unit * database * run :=
  import_json_to_db Samples.iso_date Samples.world_flaky
    (Samples.snapshot_file v) Samples.snapshot_path created created_run.

End MainRuns.

(** ** From the scraper to the loader *)

(** The two shapes of the records [fetch_app_info] makes. *)
Definition scraped_shape (r : value) : Prop :=
  exists name ranking url ts,
    r = VDict [("name", VStr name); ("ranking", VStr ranking);
               ("url", VStr url); ("timestamp", VStr ts)].

Definition error_shape (r : value) : Prop :=
  exists url e ts, r = error_record url e ts.

(** A run of the scraper: two failed requests and one page. *)
Module Pipeline.

Definition fetched : list value :=
  fst (fetch_app_info Samples.world_flaky Samples.urls3 run0).
Definition fetched_run : run :=
  snd (fetch_app_info Samples.world_flaky Samples.urls3 run0).

Definition sorted_apps : list value :=
  match sort_apps_by_ranking fetched with
  | Ok l => l
  | Raise _ => []
  end.

End Pipeline.

(** ** File names and dates *)

(** [t.date().isoformat()]: the text before the [T] of [t.isoformat()]. *)
Definition calendar_date (t : DateTime.datetime) : string :=
  PyStr.zpad 4 (DateTime.year t) ++ "-" ++ PyStr.zpad 2 (DateTime.month t) ++
  "-" ++ PyStr.zpad 2 (DateTime.day t).

(** The Taiwan time [get_taiwan_time] reads in state [st]. *)
Definition taiwan_datetime_at (w : world) (st : run) : DateTime.datetime :=
  DateTime.add_hours (DateTime.of_micros (utc_clock w (utc_reads st))) 8.

(** The characters of the numbers in a time stamp. *)
Definition stamp_char (c : ascii) : bool :=
  PyStr.is_ascii_digit c || Ascii.eqb c "-"%char || Ascii.eqb c "_"%char.

(** The path [save_to_json] writes in state [st]. *)
Definition saved_path (w : world) (folder : string) (st : run) : string :=
  path_join folder
    (json_file_name (DateTime.of_micros (local_clock w (local_reads st)))).

(** Two saves of one run, under a clock that stands still. *)
Module Saves.

Definition first : list value := [Samples.record "A" "1"].
Definition second : list value := [Samples.record "B" "2"].

Definition run1 : run :=
  snd (fst (save_to_json Samples.world_without_digits first DATA_DIR run0 [])).
Definition files1 : filesystem :=
  snd (save_to_json Samples.world_without_digits first DATA_DIR run0 []).

End Saves.

(** ** The calendar *)

(** The month and the day [DateTime.ord2ymd] computes from the day of the
    year (counted from 0). *)
Definition month_day (leapyear : bool) (n : Z) : Z * Z :=
  let m := Z.shiftr (n + 50) 5 in
  let preceding :=
    nth (Z.to_nat m) DateTime.DAYS_BEFORE_MONTH 0 +
    DateTime.b2z ((2 <? m) && leapyear) in
  if n <? preceding then
    let m' := m - 1 in
    let preceding' :=
      preceding -
      (nth (Z.to_nat m') DateTime.DAYS_IN_MONTH 0 +
       DateTime.b2z ((m' =? 2) && leapyear)) in
    (m', n - preceding' + 1)
  else (m, n - preceding + 1).

(** It is a month and a day of the month, and the days before them make up
    the day of the year. *)
Definition month_day_ok (leapyear : bool) (n : Z) : bool :=
  let '(m, d) := month_day leapyear n in
  (1 <=? m) && (m <=? 12) && (1 <=? d) && (d <=? 31) &&
  (nth (Z.to_nat m) DateTime.DAYS_BEFORE_MONTH 0 +
   DateTime.b2z ((2 <? m) && leapyear) + d =? n + 1).

(** Eight hours, in microseconds. *)
Definition EIGHT_HOURS : Z := 8 * 3600 * 1000000.

(** ** The log of the scraper *)

Definition is_error_level (lv : level) : bool :=
  match lv with
  | ERROR => true
  | INFO => false
  end.

Definition error_lines_of (l : list (level * string)) : nat :=
  List.length (List.filter (fun e => is_error_level (fst e)) l).

Definition error_records_of (l : list value) : nat :=
  List.length (List.filter is_error_record l).

(** ** get_app_store.py: print_app_ranking and main *)

Module GetAppStore.

(** [format(v, "<w")]: a [bool] is formatted as the integer it is; [None],
    lists and dicts take no format specification. *)
Definition py_format_ljust (w : nat) (v : value) : result string :=
  match v with
  | VStr s => Ok (PyStr.ljust w s)
  | VInt z => Ok (PyStr.ljust w (PyStr.of_Z z))
  | VBool b => Ok (PyStr.ljust w (if b then "1" else "0"))
  | VNone =>
      raise TypeError "unsupported format string passed to NoneType.__format__"
  | VList _ =>
      raise TypeError "unsupported format string passed to list.__format__"
  | VDict _ =>
      raise TypeError "unsupported format string passed to dict.__format__"
  end.

Definition get_app_urls : list string :=
  ["https://apps.apple.com/tw/app/max-%E8%99%9B%E6%93%AC%E8%B2%A8%E5%B9%A3%E4%BA%A4%E6%98%93%E6%89%80/id1370837255";
   "https://apps.apple.com/tw/app/bitopro-%E5%B9%A3%E8%A8%97%E4%BA%A4%E6%98%93%E6%89%80-%E6%AF%94%E7%89%B9%E5%B9%A3%E8%B2%B7%E8%B3%A3%E9%A6%96%E9%81%B8/id6468561188";
   "https://apps.apple.com/tw/app/%E5%B9%A3%E5%AE%89-%E8%B2%B7%E6%AF%94%E7%89%B9%E5%B9%A3-%E5%B0%B1%E7%94%A8%E5%85%A8%E7%90%83%E7%AC%AC%E4%B8%80%E6%8A%95%E8%B3%87%E7%90%86%E8%B2%A1%E9%A6%96%E9%81%B8%E5%8A%A0%E5%AF%86%E8%B2%A8%E5%B9%A3%E4%BA%A4%E6%98%93%E6%89%80/id1436799971";
   "https://apps.apple.com/tw/app/okx-%E6%AF%94%E7%89%B9%E5%B9%A3%E6%8A%95%E8%B3%87-%E4%BD%BF%E7%94%A8%E5%85%A8%E7%90%83%E5%89%8D%E4%BA%8C%E5%8A%A0%E5%AF%86%E8%B2%A8%E5%B9%A3%E4%BA%A4%E6%98%93%E6%89%80-web3%E9%8C%A2%E5%8C%85/id1327268470"].

Section Printing.

(** [str(v)] of a list or a dict, which is not modelled. *)
Variable py_repr : value -> string.

(** [str(v)], the text of a replacement field without a format. *)
Definition py_str (v : value) : string :=
  match v with
  | VStr s => s
  | VInt z => PyStr.of_Z z
  | VBool b => if b then "True" else "False"
  | VNone => "None"
  | VList _ | VDict _ => py_repr v
  end.

(** The fields of an f-string are evaluated and formatted from left to
    right. *)
Definition error_line (app : value) : result string :=
  do name <- py_getitem app "name";
  do name <- py_format_ljust 40 name;
  do url <- py_getitem app "url";
  Ok (PyStr.ljust 6 "錯誤" ++ " " ++ name ++ " " ++ py_str url).

Definition error_message_line (app : value) : result string :=
  do error <- py_getitem app "error";
  Ok ("錯誤信息: " ++ py_str error).

Definition ranking_line (app : value) : result string :=
  do ranking <- py_getitem app "ranking";
  do ranking <- py_format_ljust 6 ranking;
  do name <- py_getitem app "name";
  do name <- py_format_ljust 40 name;
  do url <- py_getitem app "url";
  Ok (ranking ++ " " ++ name ++ " " ++ py_str url).

(** The body of the [for] loop for one record. *)
Definition print_app (app : value) (st : run) : result unit * run :=
  match py_contains "error" app with
  | Raise e => (Raise e, st)
  | Ok true =>
      match error_line app with
      | Raise e => (Raise e, st)
      | Ok l =>
          let st := print l st in
          match error_message_line app with
          | Raise e => (Raise e, st)
          | Ok l => (Ok tt, print l st)
          end
      end
  | Ok false =>
      match ranking_line app with
      | Raise e => (Raise e, st)
      | Ok l => (Ok tt, print l st)
      end
  end.

Fixpoint print_apps (app_infos : list value) (st : run) : result unit * run :=
  match app_infos with
  | [] => (Ok tt, st)
  | app :: app_infos' =>
      match print_app app st with
      | (Raise e, st) => (Raise e, st)
      | (Ok _, st) => print_apps app_infos' st
      end
  end.

Definition print_app_ranking (w : world) (app_infos : list value) (st : run)
  : result unit * run :=
  let st := print (String Json.newline "=== App Store 應用程式排名 ===") st in
  let '(t, st) := now w st in
  let st := print ("抓取時間: " ++ DateTime.strftime_pretty t) st in
  let st := print (PyStr.repeat "-"%char 50) st in
  let st := print (PyStr.ljust 6 "排名" ++ " " ++ PyStr.ljust 40 "應用程式名稱"
                   ++ " " ++ "網址") st in
  let st := print (PyStr.repeat "-"%char 50) st in
  match print_apps app_infos st with
  | (Raise e, st) => (Raise e, st)
  | (Ok _, st) => (Ok tt, print (PyStr.repeat "-"%char 50) st)
  end.

(** [main()]: the session of the crawler has no part in what follows. *)
Definition main (w : world) (st : run) (fs : filesystem)
  : result unit * run * filesystem :=
  let urls := get_app_urls in
  let '(app_info_list, st) := fetch_app_info w urls st in
  match sort_apps_by_ranking app_info_list with
  | Raise e => (Raise e, st, fs)
  | Ok sorted_apps =>
      match print_app_ranking w sorted_apps st with
      | (Raise e, st) => (Raise e, st, fs)
      | (Ok _, st) =>
          let '(_, st, fs) := save_to_json w sorted_apps DATA_DIR st fs in
          (Ok tt, st, fs)
      end
  end.

End Printing.

End GetAppStore.

(** ** What one request comes to *)

(** The page the [n]-th request of the run gets for [url]: the request,
    the check of the status and the parser, each of which may raise. *)
Definition page_at (w : world) (url : string) (n : nat) : result soup :=
  do response <- network w n url;
  do _ <- raise_for_status response;
  html_parser w (text response).

(** The time stamp made of the [n]-th reading of the UTC clock: the ISO
    text of the instant eight hours later. *)
Definition stamp_at (w : world) (n : nat) : string :=
  DateTime.isoformat (DateTime.of_micros (utc_clock w n + EIGHT_HOURS)).

(** A byte of the ASCII text [int] makes of digits: a digit, or the mark
    that stands for a character it cannot read. *)
Definition digit_or_mark (c : ascii) : bool :=
  PyStr.is_ascii_digit c || Ascii.eqb c "?"%char.

(** ** Records the loader cannot store *)

(** The fields [import_json_to_db] reads from a record without an [error]
    field. *)
Definition EXPECTED_FIELDS : list string :=
  ["name"; "version"; "ranking"; "url"; "timestamp"].

Definition lacks_field (r : dict) : bool :=
  existsb (fun k => negb (dict_has k r)) EXPECTED_FIELDS.

(** A string between two quotes, as a JSON file holds it when nothing in it
    is escaped. *)
Definition quoted (s : string) : string :=
  String Json.dquote (s ++ String Json.dquote "").

(** * Properties *)

(** ** Small facts about results *)

Lemma bind_ok {A B} (m : result A) (k : A -> result B) (b : B) :
  bind m k = Ok b -> exists a, m = Ok a /\ k a = Ok b.
Proof.
  destruct m as [a|e]; simpl; intros H; [eauto | discriminate].
Qed.

Lemma bind_raise {A B} (m : result A) (k : A -> result B) (e : exn) :
  bind m k = Raise e ->
  m = Raise e \/ exists a, m = Ok a /\ k a = Raise e.
Proof.
  destruct m as [a|e']; simpl; intros H; [right; eauto | left; congruence].
Qed.

(** ** The extractions *)

Lemma get_app_ranking_eq (s : soup) :
  _get_app_ranking s =
  Ok (match find "a" "inline-list__item" s with
      | Some t => PyStr.filter_chars PyStr.isdigit (PyStr.concat (strings t))
      | None => sentinel_ranking
      end).
Proof.
  unfold _get_app_ranking.
  destruct (find "a" "inline-list__item" s) as [t|]; reflexivity.
Qed.

Lemma get_app_name_eq (s : soup) :
  _get_app_name s =
  Ok (match find "h1" "product-header__title" s with
      | Some t =>
          PyStr.concat (List.filter nonempty (map PyStr.strip (strings t)))
      | None => unknown_name
      end).
Proof.
  unfold _get_app_name.
  destruct (find "h1" "product-header__title" s) as [t|]; reflexivity.
Qed.

(** The ranking extraction never raises. *)
Lemma get_app_ranking_total (s : soup) : is_ok (_get_app_ranking s) = true.
Proof. rewrite get_app_ranking_eq. reflexivity. Qed.

(** When the link is there and its text has no digit, the extraction gives
    the empty string, not the sentinel. *)
Lemma get_app_ranking_no_digit (s : soup) (t : node) :
  find "a" "inline-list__item" s = Some t ->
  PyStr.filter_chars PyStr.isdigit (PyStr.concat (strings t)) = "" ->
  _get_app_ranking s = Ok "".
Proof.
  intros Hfind Hnone. rewrite get_app_ranking_eq, Hfind, Hnone. reflexivity.
Qed.

(** C3 (the code departs from the claim).  On a page whose ranking link
    reads "Finance", the link is found, its text has no digit, and
    [_get_app_ranking] returns the empty string where the claim asks for
    "999999"; the empty string is not accepted by [int].  The rest of the
    claim holds on that page: nothing is raised. *)
Theorem get_app_ranking_empty_on_digitless_link :
  find "a" "inline-list__item" Samples.page_without_digits
    = Some (Tag "a" ["inline-list__item"] [NavigableString "Finance"]) /\
  _get_app_ranking Samples.page_without_digits = Ok "" /\
  _get_app_ranking Samples.page_without_digits <> Ok sentinel_ranking /\
  PyStr.to_int "" = None.
Proof.
  repeat split; try reflexivity.
  rewrite get_app_ranking_eq. simpl. discriminate.
Qed.

(** ** fetch_app_info *)

Section Fetch.

Variable w : world.

(** The loop only ever adds to the end of what it was given. *)
Lemma fetch_loop_acc (urls : list string) :
  forall acc st,
    fetch_loop w urls acc st =
    ((acc ++ fst (fetch_loop w urls [] st))%list,
     snd (fetch_loop w urls [] st)).
Proof.
  induction urls as [|url urls IH]; intros acc st; simpl.
  - now rewrite app_nil_r.
  - destruct (fetch_one w url st) as [r st1].
    rewrite (IH (acc ++ [r])%list), (IH [r]). simpl.
    now rewrite <- app_assoc.
Qed.

Lemma fetch_app_info_nil (st : run) : fetch_app_info w [] st = ([], st).
Proof. reflexivity. Qed.

Lemma fetch_app_info_cons (url : string) (urls : list string) (st : run) :
  fetch_app_info w (url :: urls) st =
  (fst (fetch_one w url st)
     :: fst (fetch_app_info w urls (snd (fetch_one w url st))),
   snd (fetch_app_info w urls (snd (fetch_one w url st)))).
Proof.
  unfold fetch_app_info. simpl.
  destruct (fetch_one w url st) as [r st1]. simpl.
  now rewrite fetch_loop_acc.
Qed.

Lemma get_taiwan_time_eq (st : run) :
  fst (get_taiwan_time w st) = taiwan_time_at w st.
Proof. cbv [get_taiwan_time utcnow taiwan_time_at fst]. reflexivity. Qed.

Lemma utc_reads_logging lv msg st : utc_reads (logging lv msg st) = utc_reads st.
Proof. reflexivity. Qed.

(** One turn of the loop: the record of the [try] body, or the sentinel
    record for what the body raised. *)
Lemma fetch_one_cases (url : string) (st : run) :
  (exists r st1, fetch_try w url st = (Ok r, st1) /\
                 fst (fetch_one w url st) = r) \/
  (exists e st1, fetch_try w url st = (Raise e, st1) /\
                 fst (fetch_one w url st) =
                 error_record url e (taiwan_time_at w st1)).
Proof.
  unfold fetch_one.
  destruct (fetch_try w url st) as [[r|e] st1].
  - left. exists r, st1. split; reflexivity.
  - right. exists e, st1. split; [reflexivity|].
    destruct (exn_class_eqb (exn_cls e) RequestException);
      cbv [get_taiwan_time utcnow taiwan_time_at logging utc_reads fst];
      reflexivity.
Qed.

(** What the [try] body returns is a record of the four plain fields. *)
Lemma fetch_try_ok (url : string) (st : run) (r : value) (st1 : run) :
  fetch_try w url st = (Ok r, st1) ->
  exists name ranking ts,
    r = VDict [("name", VStr name); ("ranking", VStr ranking);
               ("url", VStr url); ("timestamp", VStr ts)].
Proof.
  unfold fetch_try.
  destruct (session_get w url (logging INFO ("開始抓取: " ++ url) st))
    as [got st0].
  match goal with
  | |- context [match ?m with Ok _ => _ | Raise _ => _ end] =>
      destruct m as [[name ranking]|e]
  end.
  - destruct (get_taiwan_time w st0) as [ts st2].
    intros H. injection H as H _. subst r. eauto.
  - discriminate.
Qed.

Lemma url_of_error_record url e ts :
  py_getitem (error_record url e ts) "url" = Ok (VStr url).
Proof. reflexivity. Qed.

Lemma fetch_one_url (url : string) (st : run) :
  py_getitem (fst (fetch_one w url st)) "url" = Ok (VStr url).
Proof.
  destruct (fetch_one_cases url st) as [(r & st1 & Htry & Hr)
                                       |(e & st1 & Htry & Hr)];
    rewrite Hr.
  - destruct (fetch_try_ok _ _ _ _ Htry) as (name & ranking & ts & ->).
    reflexivity.
  - reflexivity.
Qed.

End Fetch.

(** C10.  A page can make the pipeline produce a record on which the sort
    raises: the ranking link is there with no digit in its text, so
    [fetch_app_info] returns a record without [error] whose ranking is the
    empty string, [int('')] is a ValueError, and [sort_apps_by_ranking]
    raises it instead of returning a sorted list. *)
Theorem sort_raises_on_produced_record :
  exists (w : world) (url : string) (r : value) (st' : run) (e : exn),
    html_parser w Samples.html_without_digits = Ok Samples.page_without_digits /\
    find "a" "inline-list__item" Samples.page_without_digits <> None /\
    fetch_app_info w [url] run0 = ([r], st') /\
    py_contains "error" r = Ok false /\
    py_getitem r "ranking" = Ok (VStr "") /\
    py_int (VStr "") = Raise e /\
    sort_apps_by_ranking [r] = Raise e /\
    exn_cls e = ValueError.
Proof.
  exists Samples.world_without_digits, "u1".
  eexists. eexists. eexists.
  split; [reflexivity|].
  split; [discriminate|].
  split; [vm_compute; reflexivity|].
  repeat split; reflexivity.
Qed.

(** ** Sorting *)

Section SortBy.

Context {K R : Type}.
Variable leb : K -> K -> bool.
Variable key : R -> K.
Hypothesis leb_total : forall a b, leb a b = true \/ leb b a = true.
Hypothesis leb_trans :
  forall a b c, leb a b = true -> leb b c = true -> leb a c = true.

Local Abbreviation key_leb := (fun a b : R => leb (key a) (key b) = true).

Lemma insert_by_perm (x : R) (l : list R) :
  Permutation (x :: l) (insert_by leb key x l).
Proof.
  induction l as [|y l IH]; simpl.
  - apply Permutation_refl.
  - destruct (leb (key x) (key y)).
    + apply Permutation_refl.
    + eapply Permutation_trans; [apply perm_swap|].
      now apply perm_skip.
Qed.

Lemma sort_by_perm (l : list R) : Permutation l (sort_by leb key l).
Proof.
  induction l as [|x l IH]; simpl.
  - constructor.
  - eapply Permutation_trans; [apply perm_skip, IH|].
    apply insert_by_perm.
Qed.

Lemma insert_by_sorted (x : R) (l : list R) :
  StronglySorted key_leb l -> StronglySorted key_leb (insert_by leb key x l).
Proof.
  induction 1 as [|y l Hs IH Hall]; simpl.
  - repeat constructor.
  - destruct (leb (key x) (key y)) eqn:Hle.
    + constructor; [now constructor|].
      constructor; [assumption|].
      eapply Forall_impl; [|exact Hall]. simpl. intros z Hz.
      now apply leb_trans with (key y).
    + constructor; [assumption|].
      eapply Permutation_Forall; [apply insert_by_perm|].
      constructor; [|assumption].
      destruct (leb_total (key x) (key y)) as [H|H]; [congruence|exact H].
Qed.

Lemma sort_by_sorted (l : list R) : StronglySorted key_leb (sort_by leb key l).
Proof.
  induction l as [|x l IH]; simpl.
  - constructor.
  - now apply insert_by_sorted.
Qed.

End SortBy.

Section KeyedSort.

Context {A : Type}.

Local Abbreviation key_le := (fun a b : Z * A => fst a <= fst b).

Lemma sort_keyed_perm (l : list (Z * A)) : Permutation l (sort_keyed l).
Proof. apply sort_by_perm. Qed.

Lemma sort_keyed_sorted (l : list (Z * A)) :
  StronglySorted key_le (sort_keyed l).
Proof.
  assert (H : StronglySorted (fun a b : Z * A => (fst a <=? fst b) = true)
                             (sort_keyed l)).
  { apply sort_by_sorted.
    - intros a b. rewrite !Z.leb_le. lia.
    - intros a b c. rewrite !Z.leb_le. lia. }
  induction H as [|x s Hs IH Hall]; constructor; [assumption|].
  eapply Forall_impl; [|exact Hall]. simpl. intros y Hy.
  now apply Z.leb_le.
Qed.

(** Inserting does not reorder the elements of any one key. *)
Lemma insert_keyed_filter (k : Z) (kx : Z * A) (l : list (Z * A)) :
  List.filter (fun p => fst p =? k) (insert_by Z.leb fst kx l) =
  List.filter (fun p => fst p =? k) (kx :: l).
Proof.
  induction l as [|ky l IH]; [reflexivity|].
  simpl insert_by. destruct (fst kx <=? fst ky) eqn:Hle; [reflexivity|].
  apply Z.leb_gt in Hle.
  simpl in *. rewrite IH.
  destruct (fst kx =? k) eqn:Hx; [|reflexivity].
  apply Z.eqb_eq in Hx.
  replace (fst ky =? k) with false; [reflexivity|].
  symmetry. apply Z.eqb_neq. lia.
Qed.

Lemma sort_keyed_filter (k : Z) (l : list (Z * A)) :
  List.filter (fun p => fst p =? k) (sort_keyed l) =
  List.filter (fun p => fst p =? k) l.
Proof.
  induction l as [|kx l IH]; [reflexivity|].
  unfold sort_keyed in *. simpl sort_by.
  rewrite insert_keyed_filter. simpl. now rewrite IH.
Qed.

(** Two sorted lists that hold, for every key, the same elements in the
    same order are the same list: the outcome of a stable sort does not
    depend on the sorting method. *)
Lemma stable_sort_unique (s1 : list (Z * A)) :
  forall s2,
    StronglySorted key_le s1 -> StronglySorted key_le s2 ->
    (forall k, List.filter (fun p => fst p =? k) s1 =
               List.filter (fun p => fst p =? k) s2) ->
    s1 = s2.
Proof.
  induction s1 as [|x t1 IH]; intros s2 H1 H2 Hf.
  - destruct s2 as [|y t2]; [reflexivity|].
    specialize (Hf (fst y)). simpl in Hf. rewrite Z.eqb_refl in Hf.
    discriminate.
  - destruct s2 as [|y t2].
    { specialize (Hf (fst x)). simpl in Hf. rewrite Z.eqb_refl in Hf.
      discriminate. }
    inversion H1 as [|? ? Hs1 Hall1]; subst.
    inversion H2 as [|? ? Hs2 Hall2]; subst.
    assert (Hxy : fst x <= fst y).
    { assert (Hin : In y (List.filter (fun p => fst p =? fst y) (x :: t1))).
      { rewrite Hf. simpl. rewrite Z.eqb_refl. now left. }
      apply filter_In in Hin as [[->|Hin] _]; [lia|].
      rewrite Forall_forall in Hall1. now apply Hall1. }
    assert (Hyx : fst y <= fst x).
    { assert (Hin : In x (List.filter (fun p => fst p =? fst x) (y :: t2))).
      { rewrite <- Hf. simpl. rewrite Z.eqb_refl. now left. }
      apply filter_In in Hin as [[->|Hin] _]; [lia|].
      rewrite Forall_forall in Hall2. now apply Hall2. }
    assert (Hk : fst x = fst y) by lia.
    pose proof (Hf (fst x)) as Hhead. simpl in Hhead.
    rewrite Z.eqb_refl in Hhead.
    replace (fst y =? fst x) with true in Hhead
      by (symmetry; apply Z.eqb_eq; lia).
    injection Hhead as Hxy' Htail. subst y.
    f_equal. apply IH; try assumption.
    intros k. specialize (Hf k). simpl in Hf.
    destruct (fst x =? k) eqn:Hxk; [|exact Hf].
    apply Z.eqb_eq in Hxk. subst k. exact Htail.
Qed.

End KeyedSort.

Section SortedByKey.

Context {A : Type}.
Variable key : A -> result Z.

Lemma map_result_keyed (l : list A) (keys : list Z) :
  map_result key l = Ok keys ->
  keyed key (combine keys l) /\ map snd (combine keys l) = l.
Proof.
  revert keys. induction l as [|x l IH]; intros keys H; simpl in H.
  - injection H as <-. split; [constructor | reflexivity].
  - apply bind_ok in H as (k & Hk & H).
    apply bind_ok in H as (ks & Hks & H).
    injection H as <-. destruct (IH _ Hks) as [Hall Hsnd].
    simpl. split; [constructor; assumption | now rewrite Hsnd].
Qed.

Lemma keyed_map_result (s : list (Z * A)) :
  keyed key s -> map_result key (map snd s) = Ok (map fst s).
Proof.
  induction 1 as [|p s Hp _ IH]; simpl; [reflexivity|].
  now rewrite Hp, IH.
Qed.

Lemma keyed_filter (k : Z) (s : list (Z * A)) :
  keyed key s ->
  List.filter (fun x => match key x with Ok k' => k' =? k | Raise _ => false end)
              (map snd s) =
  map snd (List.filter (fun p => fst p =? k) s).
Proof.
  induction 1 as [|p s Hp _ IH]; simpl; [reflexivity|].
  rewrite Hp, IH. now destruct (fst p =? k).
Qed.

Lemma sorted_strongly (ks : list (Z * A)) :
  StronglySorted (fun a b : Z * A => fst a <= fst b) ks ->
  StronglySorted Z.le (map fst ks).
Proof.
  induction 1 as [|p s Hs IH Hall]; simpl; constructor; auto.
  apply Forall_map. exact Hall.
Qed.

(** [sorted(l, key=key)] when every key can be computed: a permutation of
    [l], ascending in the key, elements of equal key in their old order. *)
Lemma sorted_spec (l : list A) (keys : list Z) :
  map_result key l = Ok keys ->
  exists out,
    sorted l key = Ok out /\
    Permutation l out /\
    (exists ks, map_result key out = Ok ks /\ StronglySorted Z.le ks) /\
    forall k,
      List.filter
        (fun x => match key x with Ok k' => k' =? k | Raise _ => false end) out =
      List.filter
        (fun x => match key x with Ok k' => k' =? k | Raise _ => false end) l.
Proof.
  intros Hkeys. destruct (map_result_keyed _ _ Hkeys) as [Hall Hsnd].
  unfold sorted. rewrite Hkeys. simpl.
  exists (map snd (sort_keyed (combine keys l))).
  assert (Hsorted_keyed : keyed key (sort_keyed (combine keys l))).
  { eapply Permutation_Forall; [apply sort_keyed_perm | exact Hall]. }
  split; [reflexivity|]. split; [|split].
  - rewrite <- Hsnd at 1. apply Permutation_map, sort_keyed_perm.
  - exists (map fst (sort_keyed (combine keys l))).
    split; [now apply keyed_map_result|].
    apply sorted_strongly, sort_keyed_sorted.
  - intros k. rewrite keyed_filter by assumption.
    rewrite sort_keyed_filter, <- keyed_filter by assumption.
    now rewrite Hsnd.
Qed.

End SortedByKey.

(** C6.  When [int(x['ranking'])] succeeds on every record of the list,
    [sort_apps_by_ranking] returns a list: the same records, ascending in
    [int(ranking)], and for every ranking the records that have it stand in
    the order they had in the input (the sort is stable). *)
Theorem sort_apps_by_ranking_sorts_stably (l : list value) (keys : list Z) :
  map_result ranking_key l = Ok keys ->
  exists out,
    sort_apps_by_ranking l = Ok out /\
    Permutation l out /\
    (exists ks, map_result ranking_key out = Ok ks /\ StronglySorted Z.le ks) /\
    forall k, List.filter (key_is k) out = List.filter (key_is k) l.
Proof.
  intros H. exact (sorted_spec ranking_key l keys H).
Qed.

Lemma sort_apps_by_ranking_sorts_stably_witness :
  exists out,
    sort_apps_by_ranking Samples.unsorted = Ok out /\
    Permutation Samples.unsorted out /\
    (exists ks, map_result ranking_key out = Ok ks /\ StronglySorted Z.le ks) /\
    forall k, List.filter (key_is k) out = List.filter (key_is k) Samples.unsorted.
Proof.
  apply (sort_apps_by_ranking_sorts_stably Samples.unsorted [5; 999999; 1; 5]).
  reflexivity.
Defined.

(** The sample list sorted: C, then A before D (both 5, in input order),
    then the sentinel. *)
Example sort_apps_by_ranking_sample :
  sort_apps_by_ranking Samples.unsorted =
  Ok [Samples.record "C" "1"; Samples.record "A" "5"; Samples.record "D" "5";
      Samples.record "B" "999999"].
Proof. reflexivity. Qed.

(** ** The loader: what a failed load leaves in the file *)

Import Sqlite.

Lemma keeps_ret {A} (a : A) : keeps_committed (ret a).
Proof. intros c. reflexivity. Qed.

Lemma keeps_lift {A} (r : result A) : keeps_committed (lift r).
Proof. intros c. reflexivity. Qed.

Lemma keeps_write (f : database -> result database) : keeps_committed (write f).
Proof. intros c. unfold write. now destruct (f (working c)). Qed.

Lemma keeps_bind {A B} (m : sql A) (k : A -> sql B) :
  keeps_committed m -> (forall a, keeps_committed (k a)) ->
  keeps_committed (bind_sql m k).
Proof.
  intros Hm Hk c. unfold bind_sql.
  specialize (Hm c). destruct (m c) as [[a|e] c1]; simpl in *.
  - now rewrite Hk.
  - assumption.
Qed.

(** When whatever follows a statement raises, so does the sequence. *)
Lemma bind_sql_tail {A B} (m : sql A) (k : A -> sql B) :
  (forall a c, exists e, fst (k a c) = Raise e) ->
  forall c, exists e, fst (bind_sql m k c) = Raise e.
Proof.
  intros Hk c. unfold bind_sql.
  destruct (m c) as [[a|e] c1]; [apply Hk | exists e; reflexivity].
Qed.

Lemma keeps_count (date : string) : keeps_committed (count_apps_by_date date).
Proof. intros c. unfold count_apps_by_date. now destruct (apps (working c)). Qed.

Lemma keeps_prepared {R} (tbl : database -> option (table R)) (name : string)
      (m : sql unit) :
  keeps_committed m -> keeps_committed (prepared tbl name m).
Proof.
  intros Hm c. unfold prepared.
  destruct (tbl (working c)); [apply Hm | reflexivity].
Qed.

Lemma prepared_ok {R} (tbl : database -> option (table R)) (name : string)
      (m : sql unit) (c c' : connection) :
  prepared tbl name m c = (Ok tt, c') -> m c = (Ok tt, c').
Proof.
  unfold prepared. destruct (tbl (working c)); [trivial | discriminate].
Qed.

Lemma keeps_insert_error n u e t c0 : keeps_committed (insert_error n u e t c0).
Proof.
  unfold insert_error. apply keeps_prepared.
  apply keeps_bind; [apply keeps_lift|].
  intros [[[[p1 p2] p3] p4] p5]. apply keeps_write.
Qed.

Lemma keeps_insert_app n v r u d t c0 :
  keeps_committed (insert_app n v r u d t c0).
Proof.
  unfold insert_app. apply keeps_prepared.
  apply keeps_bind; [apply keeps_lift|].
  intros [[[[[p1 p2] p4] p5] p6] p7]. apply keeps_write.
Qed.

Create HintDb keeps.
#[local] Hint Resolve keeps_ret keeps_lift keeps_write keeps_count
  keeps_insert_error keeps_insert_app : keeps.

Ltac keeps :=
  repeat first [ solve [auto with keeps] | apply keeps_bind; [|intros ?] ].

Lemma keeps_import_app date ct app : keeps_committed (import_app date ct app).
Proof.
  unfold import_app. apply keeps_bind; [auto with keeps|].
  intros [|]; keeps.
Qed.

Lemma keeps_import_apps date ct l : keeps_committed (import_apps date ct l).
Proof.
  induction l as [|app l IH]; simpl; [auto with keeps|].
  apply keeps_bind; [apply keeps_import_app | intros _; exact IH].
Qed.

Section LoaderFacts.

Variable sqlite_date : string -> option string.

Lemma keeps_import_rows data ct :
  keeps_committed (import_rows sqlite_date data ct).
Proof.
  unfold import_rows.
  do 3 (apply keeps_bind; [auto with keeps | intros ?]).
  apply keeps_bind.
  { destruct (0 <? a1); [|auto with keeps].
    apply keeps_bind; [apply keeps_write | intros _; apply keeps_write]. }
  intros _. keeps. apply keeps_import_apps.
Qed.

(** The rows become durable at the commit and nowhere before it: a load
    that raises leaves the file as it was. *)
Lemma import_data_raise data ct (c c' : connection) (e : exn) :
  import_data sqlite_date data ct c = (Raise e, c') ->
  committed c' = committed c.
Proof.
  unfold import_data, bind_sql. intros H.
  pose proof (keeps_import_rows data ct c) as Hk.
  destruct (import_rows sqlite_date data ct c) as [[u|e'] c1]; simpl in *.
  - discriminate H.
  - injection H as _ <-. exact Hk.
Qed.

(** A record without [error] and without [version] stops the loop. *)
Lemma import_app_missing_version date ct (r : dict) (c : connection) :
  dict_has "error" r = false ->
  dict_has "version" r = false ->
  exists e, fst (import_app date ct (VDict r) c) = Raise e /\
            exn_cls e = KeyError.
Proof.
  intros Herr Hver. unfold import_app, bind_sql, lift. simpl.
  rewrite Herr. unfold dict_has in Hver.
  destruct (dict_get "name" r); simpl.
  - destruct (dict_get "version" r); [discriminate|].
    simpl. eexists. split; reflexivity.
  - eexists. split; reflexivity.
Qed.

Lemma import_apps_raises date ct (l : list value) (r : dict) :
  In (VDict r) l ->
  dict_has "error" r = false ->
  dict_has "version" r = false ->
  forall c, exists e, fst (import_apps date ct l c) = Raise e.
Proof.
  intros Hin Herr Hver.
  induction l as [|app l IH]; [destruct Hin|].
  intros c. simpl. unfold bind_sql.
  destruct Hin as [-> | Hin].
  - destruct (import_app_missing_version date ct r c Herr Hver)
      as (e & He & _).
    destruct (import_app date ct (VDict r) c) as [[u|e'] c1]; simpl in He.
    + discriminate.
    + exists e'. reflexivity.
  - destruct (import_app date ct app c) as [[u|e'] c1].
    + apply IH. assumption.
    + exists e'. reflexivity.
Qed.

Lemma import_rows_raises (d : dict) (l : list value) (r : dict) ct :
  dict_get "apps" d = Some (VList l) ->
  In (VDict r) l ->
  dict_has "error" r = false ->
  dict_has "version" r = false ->
  forall c, exists e, fst (import_rows sqlite_date (VDict d) ct c) = Raise e.
Proof.
  intros Happs Hin Herr Hver.
  unfold import_rows.
  apply bind_sql_tail; intros timestamp.
  apply bind_sql_tail; intros date.
  apply bind_sql_tail; intros n.
  apply bind_sql_tail; intros _.
  intros c. unfold bind_sql at 1. unfold lift at 1. unfold py_get.
  rewrite Happs. simpl.
  apply import_apps_raises with (r := r); assumption.
Qed.

End LoaderFacts.

(** On what the scraper writes the exception is the KeyError for
    'version'. *)
Example import_scraped_snapshot_key_error :
  fst (fst (import_json_to_db Samples.iso_date Samples.world_flaky
              (Samples.snapshot_file Samples.snapshot_scraped)
              Samples.snapshot_path Samples.fresh_db run0))
  = Raise (mkExn KeyError "'version'").
Proof. vm_compute. reflexivity. Qed.

(** C2 (the code departs from the claim).  The snapshot of a run in which
    every request failed holds error records only.  Loaded into a database
    with empty tables it leaves one row in [errors]; loaded a second time it
    leaves two, both with the batch date: the rows of [errors] are deleted
    only when [apps] has a row of that date, and this snapshot puts none
    there.  The engine's [date()] plays no part in it. *)
Theorem reload_of_failed_run_duplicates_errors
        (sqlite_date : string -> option string) :
  let load :=
    import_json_to_db sqlite_date Samples.world_flaky
      (Samples.snapshot_file Samples.snapshot_errors_only)
      Samples.snapshot_path in
  let row :=
    mkErrorResult "未知" "u1" "Connection timed out" "2024-01-01T08:00:02" in
  exists db1 st1 db2 st2,
    load Samples.fresh_db run0 = (Ok tt, db1, st1) /\
    load db1 st1 = (Ok tt, db2, st2) /\
    option_map (fun t => map error_result_of (rows t)) (errors db1)
      = Some [row] /\
    option_map (fun t => map error_result_of (rows t)) (errors db2)
      = Some [row; row] /\
    Samples.iso_date (q_timestamp row) = Some "2024-01-01".
Proof.
  intros load row. subst load row.
  eexists. eexists. eexists. eexists.
  split; [vm_compute; reflexivity|].
  split; [vm_compute; reflexivity|].
  repeat split.
Qed.

(** ** The loader: choosing the file *)

Lemma max_by_in {A} (key : A -> Z) (l : list A) :
  forall best, In (max_by key best l) (best :: l).
Proof.
  induction l as [|x l IH]; intros best; simpl.
  - now left.
  - destruct (key best <? key x).
    + right. apply IH.
    + destruct (IH best) as [H|H]; [now left | now right; right].
Qed.

Lemma max_by_ge {A} (key : A -> Z) (l : list A) :
  forall best x, In x (best :: l) -> key x <= key (max_by key best l).
Proof.
  induction l as [|y l IH]; intros best x Hin; simpl.
  - destruct Hin as [<-|[]]. lia.
  - destruct (key best <? key y) eqn:Hlt.
    + apply Z.ltb_lt in Hlt.
      destruct Hin as [<-|[<-|Hin]].
      * specialize (IH y y (or_introl eq_refl)). lia.
      * apply IH. now left.
      * apply IH. now right.
    + apply Z.ltb_ge in Hlt.
      destruct Hin as [<-|[<-|Hin]].
      * apply IH. now left.
      * specialize (IH best best (or_introl eq_refl)). lia.
      * apply IH. now right.
Qed.

Lemma glob_match_nonempty (p : string) : glob_match p = true -> p <> "".
Proof. intros H ->. discriminate H. Qed.

(** What [get_latest_json_file] returns: a matching file none of the
    matching files is newer than, or nothing when no file matches. *)
Lemma get_latest_json_file_spec (fs : filesystem) :
  match get_latest_json_file fs with
  | Some p =>
      exists f, In f fs /\ glob_match (path f) = true /\ path f = p /\
                forall g, In g fs -> glob_match (path g) = true ->
                          mtime g <= mtime f
  | None => forall g, In g fs -> glob_match (path g) = false
  end.
Proof.
  unfold get_latest_json_file, glob_json_files.
  destruct (List.filter (fun f => glob_match (path f)) fs) as [|f files] eqn:Hfl.
  - intros g Hg. destruct (glob_match (path g)) eqn:Hm; [|reflexivity].
    assert (Hin : In g (List.filter (fun f => glob_match (path f)) fs))
      by (apply filter_In; split; assumption).
    rewrite Hfl in Hin. destruct Hin.
  - pose proof (max_by_in mtime files f) as Hin.
    rewrite <- Hfl in Hin. apply filter_In in Hin as [Hin Hm].
    exists (max_by mtime f files). repeat split; try assumption.
    intros g Hg Hgm. apply max_by_ge. rewrite <- Hfl.
    apply filter_In. split; assumption.
Qed.

(** C8.  Called without a path, [main] looks for the snapshot files of the
    data directory.  When there is one, it goes on exactly as if it had been
    given the path of a matching file that no matching file is newer than.
    When there is none, it logs and prints the failure and returns with the
    database file untouched: no table is created, nothing is deleted or
    inserted. *)
Theorem main_without_path (sqlite_date : string -> option string) (w : world)
        (script : string) (fs : filesystem) (db : database) (st : run) :
  match get_latest_json_file fs with
  | Some p =>
      (exists f, In f fs /\ glob_match (path f) = true /\ path f = p /\
                 forall g, In g fs -> glob_match (path g) = true ->
                           mtime g <= mtime f) /\
      main sqlite_date w [script] fs db st =
      main sqlite_date w [script; p] fs db st
  | None =>
      (forall g, In g fs -> glob_match (path g) = false) /\
      main sqlite_date w [script] fs db st =
      (Ok tt, db,
       print "錯誤: 未找到 JSON 文件" (logging ERROR "未找到 JSON 文件" st))
  end.
Proof.
  pose proof (get_latest_json_file_spec fs) as Hspec.
  destruct (get_latest_json_file fs) as [p|] eqn:Hlatest.
  - split; [exact Hspec|].
    unfold main. rewrite Hlatest. reflexivity.
  - split; [exact Hspec|].
    unfold main. rewrite Hlatest. reflexivity.
Qed.

(** ** The queries *)

Lemma string_leb_trans (a : string) :
  forall b c, String.leb a b = true -> String.leb b c = true ->
              String.leb a c = true.
Proof.
  unfold String.leb.
  induction a as [|x a IH]; intros [|y b] [|z c]; simpl; try congruence.
  unfold Ascii.compare.
  destruct (N_of_ascii x ?= N_of_ascii y)%N eqn:Hxy;
    destruct (N_of_ascii y ?= N_of_ascii z)%N eqn:Hyz;
    destruct (N_of_ascii x ?= N_of_ascii z)%N eqn:Hxz;
    try congruence; try apply IH;
    rewrite ?N.compare_eq_iff, ?N.compare_lt_iff, ?N.compare_gt_iff in *;
    try lia.
Qed.

Lemma in_firstn {A} (y : A) (l : list A) :
  forall n, In y (firstn n l) -> In y l.
Proof.
  induction l as [|x l IH]; intros [|n]; simpl; try tauto.
  intros [H|H]; [now left | right; now apply (IH n)].
Qed.

Lemma StronglySorted_firstn {A} (R : A -> A -> Prop) (l : list A) :
  StronglySorted R l -> forall n, StronglySorted R (firstn n l).
Proof.
  induction 1 as [|x l Hs IH Hall]; intros [|n]; simpl; try constructor.
  - apply IH.
  - rewrite Forall_forall in *. intros y Hy. apply Hall.
    now apply in_firstn with n.
Qed.

Lemma StronglySorted_map {A B} (f : A -> B) (R : B -> B -> Prop) (l : list A) :
  StronglySorted (fun a b => R (f a) (f b)) l -> StronglySorted R (map f l).
Proof.
  induction 1 as [|x l Hs IH Hall]; simpl; constructor; auto.
  apply Forall_map. exact Hall.
Qed.

Lemma adapt_limit (limit : Z) :
  0 <= limit <= INT64_MAX -> adapt (VInt limit) = Ok (SInteger limit).
Proof.
  intros H. unfold adapt.
  replace ((INT64_MIN <=? limit) && (limit <=? INT64_MAX)) with true;
    [reflexivity|].
  symmetry. apply andb_true_intro. unfold INT64_MIN, INT64_MAX in *.
  split; apply Z.leb_le; lia.
Qed.

Lemma limit_rows_firstn {R} (limit : Z) (l : list R) :
  0 <= limit -> limit_rows limit l = firstn (Z.to_nat limit) l.
Proof.
  intros H. unfold limit_rows.
  destruct (limit <? 0) eqn:Hneg; [apply Z.ltb_lt in Hneg; lia | reflexivity].
Qed.

Lemma length_firstn_le {A} (limit : Z) (l : list A) :
  0 <= limit -> Z.of_nat (List.length (firstn (Z.to_nat limit) l)) <= limit.
Proof.
  intros H. pose proof (firstn_le_length (Z.to_nat limit) l). lia.
Qed.

(** [query_apps]: the first [limit] rows of the table put in ascending
    order of ranking. *)
Lemma query_apps_spec (db : database) (t : table apps_row) (limit : Z) :
  apps db = Some t ->
  0 <= limit <= INT64_MAX ->
  exists out all,
    query_apps db limit = Ok out /\
    Permutation (map app_result_of (rows t)) all /\
    StronglySorted Z.le (map r_ranking all) /\
    out = firstn (Z.to_nat limit) all /\
    Z.of_nat (List.length out) <= limit /\
    StronglySorted Z.le (map r_ranking out).
Proof.
  intros Ht Hl.
  assert (Hsorted :
            StronglySorted (fun a b => app_ranking a <= app_ranking b)
                           (order_by Z.leb app_ranking (rows t))).
  { assert (H : StronglySorted
                  (fun a b => (app_ranking a <=? app_ranking b) = true)
                  (order_by Z.leb app_ranking (rows t))).
    { apply sort_by_sorted.
      - intros a b. rewrite !Z.leb_le. lia.
      - intros a b c. rewrite !Z.leb_le. lia. }
    induction H as [|x s Hs IH Hall]; constructor; [assumption|].
    eapply Forall_impl; [|exact Hall]. simpl. intros y Hy.
    now apply Z.leb_le. }
  exists (map app_result_of
              (firstn (Z.to_nat limit) (order_by Z.leb app_ranking (rows t)))),
         (map app_result_of (order_by Z.leb app_ranking (rows t))).
  split; [|split; [|split; [|split; [|split]]]].
  - unfold query_apps. rewrite Ht, adapt_limit by assumption. simpl.
    rewrite limit_rows_firstn by lia. reflexivity.
  - apply Permutation_map. apply sort_by_perm.
  - rewrite map_map. simpl. apply StronglySorted_map. exact Hsorted.
  - symmetry. apply firstn_map.
  - rewrite length_map. apply length_firstn_le. lia.
  - rewrite map_map. simpl. apply StronglySorted_map.
    now apply StronglySorted_firstn.
Qed.

(** [query_errors]: the first [limit] rows of the table put in descending
    order of time stamp, the texts compared byte by byte. *)
Lemma query_errors_spec (db : database) (t : table errors_row) (limit : Z) :
  errors db = Some t ->
  0 <= limit <= INT64_MAX ->
  exists out all,
    query_errors db limit = Ok out /\
    Permutation (map error_result_of (rows t)) all /\
    StronglySorted (fun a b => String.leb b a = true) (map q_timestamp all) /\
    out = firstn (Z.to_nat limit) all /\
    Z.of_nat (List.length out) <= limit /\
    StronglySorted (fun a b => String.leb b a = true) (map q_timestamp out).
Proof.
  intros Ht Hl.
  assert (Hsorted :
            StronglySorted
              (fun a b => String.leb (err_timestamp b) (err_timestamp a) = true)
              (order_by string_geb err_timestamp (rows t))).
  { apply (sort_by_sorted string_geb err_timestamp).
    - intros a b. unfold string_geb. apply String.leb_total.
    - intros a b c. unfold string_geb. intros H1 H2.
      now apply string_leb_trans with b. }
  exists (map error_result_of
              (firstn (Z.to_nat limit)
                      (order_by string_geb err_timestamp (rows t)))),
         (map error_result_of (order_by string_geb err_timestamp (rows t))).
  split; [|split; [|split; [|split; [|split]]]].
  - unfold query_errors. rewrite Ht, adapt_limit by assumption. simpl.
    rewrite limit_rows_firstn by lia. reflexivity.
  - apply Permutation_map. apply sort_by_perm.
  - rewrite map_map. simpl. apply StronglySorted_map. exact Hsorted.
  - symmetry. apply firstn_map.
  - rewrite length_map. apply length_firstn_le. lia.
  - rewrite map_map. simpl. apply StronglySorted_map.
    now apply StronglySorted_firstn.
Qed.

(** A negative limit is no limit at all: every row is returned. *)
Lemma query_apps_negative_limit (db : database) (t : table apps_row) :
  apps db = Some t ->
  option_map (@List.length _)
             (match query_apps db (-1) with Ok l => Some l | Raise _ => None end)
  = Some (List.length (rows t)).
Proof.
  intros Ht. unfold query_apps. rewrite Ht. simpl.
  rewrite length_map. f_equal.
  apply Permutation_length, Permutation_sym, sort_by_perm.
Qed.




(** ** The JSON round trip *)

Section JsonRoundTrip.

Import Json.

Lemma append_assoc (a b c : string) : (a ++ b) ++ c = a ++ (b ++ c).
Proof. induction a as [|x a IH]; simpl; [reflexivity | now rewrite IH]. Qed.

Lemma append_nil_r (s : string) : s ++ "" = s.
Proof. induction s as [|x s IH]; simpl; [reflexivity | now rewrite IH]. Qed.

Lemma length_append (a b : string) :
  String.length (a ++ b) = (String.length a + String.length b)%nat.
Proof. induction a as [|x a IH]; simpl; [reflexivity | now rewrite IH]. Qed.

(** *** Strings *)

Lemma scanstring_escape (c : ascii) (X : string) :
  scanstring (escape c ++ X) =
  match scanstring X with
  | Some (s, r) => Some (String c s, r)
  | None => None
  end.
Proof.
  unfold scanstring.
  destruct c as [[] [] [] [] [] [] [] []];
    (simpl; destruct (scan_units X) as [[us r]|]; simpl;
     [destruct (decode_units us); reflexivity | reflexivity]).
Qed.

Lemma scanstring_escape_string (s rest : string) :
  scanstring (escape_string s ++ String dquote rest) = Some (s, rest).
Proof.
  induction s as [|c s IH]; simpl.
  - reflexivity.
  - now rewrite append_assoc, scanstring_escape, IH.
Qed.

Lemma encode_basestring_app (s rest : string) :
  encode_basestring s ++ rest =
  String dquote (escape_string s ++ String dquote rest).
Proof. unfold encode_basestring. simpl. now rewrite append_assoc. Qed.

(** *** Numbers *)

Lemma digit_char_spec (d : nat) :
  (d < 10)%nat ->
  PyStr.is_ascii_digit (PyStr.digit_char d) = true /\
  PyStr.code (PyStr.digit_char d) - 48 = Z.of_nat d.
Proof.
  intros H.
  do 10 (destruct d as [|d]; [split; reflexivity|]). lia.
Qed.

Lemma digit_char_nonzero (d : nat) :
  (0 < d < 10)%nat -> Ascii.eqb (PyStr.digit_char d) "0"%char = false.
Proof.
  intros H. destruct d as [|d]; [lia|].
  do 9 (destruct d as [|d]; [reflexivity|]). lia.
Qed.

Lemma span_digits_of_nat_aux (fuel : nat) :
  forall n, (n < fuel)%nat ->
  exists k, forall a rest,
    span_digits a (PyStr.of_nat_aux fuel n ++ rest) =
    span_digits (a * k + Z.of_nat n) rest.
Proof.
  induction fuel as [|fuel IH]; intros n Hn; [lia|].
  cbn [PyStr.of_nat_aux]. destruct (n <? 10)%nat eqn:Hsmall.
  - apply Nat.ltb_lt in Hsmall.
    destruct (digit_char_spec n Hsmall) as [Hd Hv].
    exists 10. intros a rest. cbn [String.append span_digits].
    rewrite Hd, Hv. f_equal. lia.
  - apply Nat.ltb_ge in Hsmall.
    pose proof (Nat.div_mod_eq n 10) as Hdm.
    assert (Hq : (n / 10 < fuel)%nat).
    { pose proof (Nat.div_lt n 10). lia. }
    assert (Hr : (n mod 10 < 10)%nat) by (apply Nat.mod_upper_bound; lia).
    destruct (IH _ Hq) as [k Hk].
    destruct (digit_char_spec _ Hr) as [Hd Hv].
    exists (k * 10). intros a rest.
    rewrite append_assoc, Hk. cbn [String.append span_digits].
    rewrite Hd, Hv. f_equal. lia.
Qed.

Lemma of_nat_aux_head (fuel : nat) :
  forall n, (n < fuel)%nat ->
  exists c s,
    PyStr.of_nat_aux fuel n = String c s /\
    PyStr.is_ascii_digit c = true /\
    ((0 < n)%nat -> Ascii.eqb c "0"%char = false).
Proof.
  induction fuel as [|fuel IH]; intros n Hn; [lia|].
  cbn [PyStr.of_nat_aux]. destruct (n <? 10)%nat eqn:Hsmall.
  - apply Nat.ltb_lt in Hsmall.
    exists (PyStr.digit_char n), "". split; [reflexivity|]. split.
    + now apply digit_char_spec.
    + intros Hpos. apply digit_char_nonzero. lia.
  - apply Nat.ltb_ge in Hsmall.
    assert (Hq : (n / 10 < fuel)%nat).
    { pose proof (Nat.div_lt n 10). lia. }
    destruct (IH _ Hq) as (c & s & Heq & Hd & Hnz).
    exists c, (s ++ String (PyStr.digit_char (n mod 10)) "").
    rewrite Heq. split; [reflexivity|]. split; [assumption|].
    intros _. apply Hnz.
    pose proof (Nat.div_mod_eq n 10).
    pose proof (Nat.mod_upper_bound n 10). lia.
Qed.

Lemma span_digits_stop (a : Z) (rest : string) :
  starts_with_digit rest = false -> span_digits a rest = (a, rest).
Proof.
  destruct rest as [|c rest]; simpl; [reflexivity|].
  now intros ->.
Qed.

Lemma isdigit_not_minus (c : ascii) :
  PyStr.is_ascii_digit c = true -> Ascii.eqb c "-"%char = false.
Proof.
  intros H. destruct (Ascii.eqb_spec c "-"%char) as [->|]; [discriminate H|].
  reflexivity.
Qed.

Lemma scan_natural_of_nat (n : nat) (rest : string) :
  starts_with_digit rest = false ->
  scan_natural (PyStr.of_nat n ++ rest) = Some (Z.of_nat n, rest).
Proof.
  intros Hrest. unfold PyStr.of_nat.
  destruct (of_nat_aux_head (S n) n (Nat.lt_succ_diag_r n))
    as (c & s & Heq & Hd & Hnz).
  destruct (span_digits_of_nat_aux (S n) n (Nat.lt_succ_diag_r n)) as [k Hk].
  destruct n as [|n].
  - reflexivity.
  - specialize (Hk 0 rest). rewrite Heq in *.
    cbn [String.append scan_natural].
    rewrite (Hnz (Nat.lt_0_succ n)), Hd.
    cbn [String.append] in Hk. rewrite Hk, Z.mul_0_l, Z.add_0_l.
    now rewrite span_digits_stop.
Qed.

Lemma scan_signed_of_Z (z : Z) (rest : string) :
  starts_with_digit rest = false ->
  scan_signed (PyStr.of_Z z ++ rest) = Some (z, rest).
Proof.
  intros Hrest. unfold PyStr.of_Z.
  destruct (z <? 0) eqn:Hneg.
  - apply Z.ltb_lt in Hneg. cbn [String.append scan_signed].
    change (Ascii.eqb "-" "-") with true. cbv iota.
    rewrite scan_natural_of_nat by assumption.
    f_equal. f_equal. lia.
  - apply Z.ltb_ge in Hneg.
    pose proof (scan_natural_of_nat (Z.to_nat z) rest Hrest) as Hnat.
    unfold PyStr.of_nat in *.
    destruct (of_nat_aux_head (S (Z.to_nat z)) _ (Nat.lt_succ_diag_r _))
      as (c & s & Heq & Hd & _).
    rewrite Heq in *. cbn [String.append scan_signed].
    cbn [String.append] in Hnat.
    rewrite (isdigit_not_minus c Hd), Hnat.
    f_equal. f_equal. lia.
Qed.

Lemma of_Z_head (z : Z) :
  exists c s, PyStr.of_Z z = String c s /\ number_start c = true.
Proof.
  unfold PyStr.of_Z. destruct (z <? 0).
  - eexists. eexists. split; reflexivity.
  - unfold PyStr.of_nat.
    destruct (of_nat_aux_head (S (Z.to_nat z)) _ (Nat.lt_succ_diag_r _))
      as (c & s & Heq & Hd & _).
    exists c, s. split; [assumption|].
    unfold number_start. now rewrite Hd.
Qed.

(** *** What a written value starts with *)

Lemma value_start_facts (c : ascii) :
  value_start c = true ->
  is_ws c = false /\ Ascii.eqb c "]"%char = false /\
  Ascii.eqb c "}"%char = false /\ Ascii.eqb c ","%char = false.
Proof.
  destruct c as [[] [] [] [] [] [] [] []]; intros H;
    try discriminate H; repeat split.
Qed.

Lemma number_start_facts (c : ascii) :
  number_start c = true ->
  Ascii.eqb c dquote = false /\ Ascii.eqb c "["%char = false /\
  Ascii.eqb c "{"%char = false /\ Ascii.eqb "n"%char c = false /\
  Ascii.eqb "t"%char c = false /\ Ascii.eqb "f"%char c = false /\
  value_start c = true.
Proof.
  destruct c as [[] [] [] [] [] [] [] []]; intros H;
    try discriminate H; repeat split.
Qed.

Lemma starts_app (p : ascii -> bool) (s rest : string) :
  starts p s -> starts p (s ++ rest).
Proof. intros (c & s' & -> & H). exists c, (s' ++ rest). now split. Qed.

Lemma dumps_at_starts (lvl : nat) (v : value) :
  starts value_start (dumps_at lvl v).
Proof.
  destruct v as [| [|] | z | s | [|x l] | [|[k x] d]];
    try (eexists; eexists; split; reflexivity).
  cbn [dumps_at].
  destruct (of_Z_head z) as (c & s & -> & H).
  exists c, s. split; [reflexivity|].
  now apply number_start_facts in H.
Qed.

Lemma skip_ws_starts (s : string) : starts value_start s -> skip_ws s = s.
Proof.
  intros (c & s' & -> & H). apply value_start_facts in H as (Hws & _).
  simpl. now rewrite Hws.
Qed.

Lemma skip_ws_newline_indent (lvl : nat) (s : string) :
  skip_ws (newline_indent lvl ++ s) = skip_ws s.
Proof.
  unfold newline_indent. cbn [String.append skip_ws].
  change (is_ws newline) with true. cbv iota.
  induction (4 * lvl)%nat as [|n IH]; [reflexivity|].
  cbn [PyStr.repeat String.append skip_ws].
  change (is_ws " ") with true. cbv iota. exact IH.
Qed.

Lemma closes_at_once_starts (close : ascii) (lvl : nat) (s : string) :
  (close = "]"%char \/ close = "}"%char) ->
  starts value_start s ->
  closes_at_once close (newline_indent lvl ++ s) = None.
Proof.
  intros Hclose Hs. unfold closes_at_once.
  rewrite skip_ws_newline_indent, (skip_ws_starts s Hs).
  destruct Hs as (c & s' & -> & H).
  apply value_start_facts in H as (_ & H1 & H2 & _).
  destruct Hclose as [-> | ->]; [now rewrite H1 | now rewrite H2].
Qed.

Lemma delimited_comma (s : string) : delimited (String ","%char s) = true.
Proof. reflexivity. Qed.

Lemma delimited_newline_indent (lvl : nat) (s : string) :
  delimited (newline_indent lvl ++ s) = true.
Proof. reflexivity. Qed.

Lemma delimited_nil : delimited "" = true.
Proof. reflexivity. Qed.

(** *** Scalars *)

Lemma scan_once_int (fuel : nat) (z : Z) (rest : string) :
  delimited rest = true ->
  scan_once (S fuel) (PyStr.of_Z z ++ rest) = Some (VInt z, rest).
Proof.
  intros Hd. unfold delimited in Hd.
  apply andb_true_iff in Hd as [Hdig Hfl].
  apply negb_true_iff in Hdig. apply negb_true_iff in Hfl.
  pose proof (scan_signed_of_Z z rest Hdig) as Hsigned.
  destruct (of_Z_head z) as (c & s & Heq & Hc).
  rewrite Heq in *. cbn [String.append] in *.
  apply number_start_facts in Hc as (H1 & H2 & H3 & H4 & H5 & H6 & _).
  cbn [scan_once]. rewrite H1, H2, H3.
  unfold scan_constant. cbn [PyStr.after]. rewrite H4, H5, H6.
  unfold scan_number. now rewrite Hsigned, Hfl.
Qed.

Lemma scan_once_str (fuel : nat) (s rest : string) :
  scan_once (S fuel) (encode_basestring s ++ rest) = Some (VStr s, rest).
Proof.
  rewrite encode_basestring_app. cbn [scan_once].
  change (Ascii.eqb dquote dquote) with true. cbv iota.
  now rewrite scanstring_escape_string.
Qed.

(** *** Arrays and objects *)

Lemma after_value_close (close : ascii) (lvl : nat) (rest : string) :
  (close = "]"%char \/ close = "}"%char) ->
  after_value close (newline_indent lvl ++ String close rest) = Close rest.
Proof.
  intros H. unfold after_value. rewrite skip_ws_newline_indent.
  destruct H as [-> | ->]; reflexivity.
Qed.

Lemma after_value_comma (close : ascii) (s : string) :
  (close = "]"%char \/ close = "}"%char) ->
  after_value close (String ","%char s) = Comma s.
Proof. intros [-> | ->]; reflexivity. Qed.

Lemma parse_items_dumps (L L0 : nat) (rest : string) (l : list value) :
  forall x fuel,
    Forall reads_back (x :: l) ->
    (items_size (x :: l) <= fuel)%nat ->
    parse_items fuel
      (dumps_at L x ++ items_text L l ++ newline_indent L0 ++ String "]"%char rest)
    = Some (x :: l, rest).
Proof.
  induction l as [|y l IH]; intros x fuel Hall Hfuel;
    inversion Hall as [|? ? Hx Hl]; subst;
    destruct fuel as [|fuel]; cbn [items_size fold_right] in Hfuel; try lia;
    cbn [parse_items].
  - unfold items_text. cbn [map PyStr.concat String.append].
    rewrite Hx; [|lia|apply delimited_newline_indent].
    rewrite after_value_close by now left. reflexivity.
  - unfold items_text. cbn [map PyStr.concat].
    fold (items_text L l).
    rewrite !append_assoc. cbn [String.append].
    rewrite Hx; [|lia|apply delimited_comma].
    rewrite after_value_comma by now left.
    rewrite skip_ws_newline_indent.
    rewrite skip_ws_starts by apply starts_app, dumps_at_starts.
    rewrite IH; [reflexivity | assumption |].
    cbn [items_size fold_right]. fold (items_size l). 
    unfold items_size in *. lia.
Qed.

Lemma skip_ws_colon (s : string) : skip_ws (String ":"%char s) = String ":"%char s.
Proof. reflexivity. Qed.

Lemma skip_ws_space (s : string) : skip_ws (String " "%char s) = skip_ws s.
Proof. reflexivity. Qed.

Lemma parse_pairs_dumps (L L0 : nat) (rest : string) (d : list (string * value)) :
  forall k x fuel,
    Forall (fun kv => reads_back (snd kv)) ((k, x) :: d) ->
    (pairs_size ((k, x) :: d) <= fuel)%nat ->
    parse_pairs fuel
      (encode_basestring k ++ ": " ++ dumps_at L x ++ pairs_text L d ++
       newline_indent L0 ++ String "}"%char rest)
    = Some ((k, x) :: d, rest).
Proof.
  induction d as [|[k' y] d IH]; intros k x fuel Hall Hfuel;
    inversion Hall as [|? ? Hx Hl]; subst; simpl in Hx;
    destruct fuel as [|fuel]; cbn [pairs_size fold_right] in Hfuel; try lia;
    rewrite encode_basestring_app; cbn [parse_pairs];
    change (Ascii.eqb dquote dquote) with true; cbv iota;
    rewrite scanstring_escape_string;
    cbn [String.append]; rewrite skip_ws_colon;
    change (Ascii.eqb ":" ":") with true; cbv iota;
    rewrite skip_ws_space;
    (rewrite skip_ws_starts by apply starts_app, dumps_at_starts).
  - unfold pairs_text. cbn [map PyStr.concat String.append].
    rewrite Hx; [|lia|apply delimited_newline_indent].
    rewrite after_value_close by now right. reflexivity.
  - unfold pairs_text. cbn [map PyStr.concat].
    fold (pairs_text L d).
    rewrite !append_assoc. cbn [String.append].
    rewrite Hx; [|lia|apply delimited_comma].
    rewrite after_value_comma by now right.
    rewrite skip_ws_newline_indent.
    assert (Hskip : forall s, skip_ws (encode_basestring k' ++ s)
                              = encode_basestring k' ++ s) by reflexivity.
    rewrite Hskip.
    pose proof (IH k' y fuel Hl) as IH'.
    cbn [String.append] in IH'. rewrite IH'; [reflexivity|].
    cbn [pairs_size fold_right]. fold (pairs_size d).
    unfold pairs_size in *. lia.
Qed.

(** [dict(pairs)] of pairs with distinct keys is the list of the pairs. *)
Lemma dict_set_fresh (k : string) (v : value) (d : dict) :
  existsb (String.eqb k) (map fst d) = false ->
  dict_set k v d = (d ++ [(k, v)])%list.
Proof.
  induction d as [|[k' v'] d IH]; simpl; [reflexivity|].
  intros H. apply orb_false_iff in H as [Hk Hd].
  rewrite Hk. now rewrite IH.
Qed.

Lemma existsb_app_false (k : string) (a b : list string) :
  existsb (String.eqb k) (a ++ b) = false <->
  existsb (String.eqb k) a = false /\ existsb (String.eqb k) b = false.
Proof. rewrite existsb_app. apply orb_false_iff. Qed.

Lemma dict_of_pairs_acc (ps : list (string * value)) :
  forall acc,
    unique_keys (map fst ps) = true ->
    (forall k, In k (map fst acc) ->
               existsb (String.eqb k) (map fst ps) = false) ->
    fold_left (fun d kv => dict_set (fst kv) (snd kv) d) ps acc
    = (acc ++ ps)%list.
Proof.
  induction ps as [|[k v] ps IH]; intros acc Hu Hdis; simpl.
  - now rewrite app_nil_r.
  - simpl in Hu. apply andb_true_iff in Hu as [Hk Hu].
    apply negb_true_iff in Hk.
    assert (Hfresh : existsb (String.eqb k) (map fst acc) = false).
    { destruct (existsb (String.eqb k) (map fst acc)) eqn:He; [|reflexivity].
      apply existsb_exists in He as (k' & Hin & Heq).
      apply String.eqb_eq in Heq. subst k'.
      specialize (Hdis k Hin). simpl in Hdis.
      now rewrite String.eqb_refl in Hdis. }
    rewrite dict_set_fresh by assumption.
    rewrite IH; [now rewrite <- app_assoc | assumption |].
    intros k0 Hin. rewrite map_app in Hin. apply in_app_or in Hin as [Hin|Hin].
    + specialize (Hdis k0 Hin). simpl in Hdis.
      now apply orb_false_iff in Hdis as [_ H].
    + simpl in Hin. destruct Hin as [<-|[]]. exact Hk.
Qed.

Lemma dict_of_pairs_unique (ps : list (string * value)) :
  unique_keys (map fst ps) = true -> dict_of_pairs ps = ps.
Proof.
  intros Hu. unfold dict_of_pairs.
  rewrite dict_of_pairs_acc; [reflexivity | assumption |].
  intros k [].
Qed.

(** *** Every value reads back *)

Lemma size_pos (v : value) : (1 <= size v)%nat.
Proof. destruct v; simpl; lia. Qed.

Lemma items_size_in (y : value) (l : list value) :
  In y l -> (S (size y) <= items_size l)%nat.
Proof.
  induction l as [|x l IH]; intros H; [destruct H|].
  cbn [items_size fold_right]. fold (items_size l).
  destruct H as [->|H]; [lia | specialize (IH H); lia].
Qed.

Lemma pairs_size_in (k : string) (y : value) (d : list (string * value)) :
  In (k, y) d -> (S (size y) <= pairs_size d)%nat.
Proof.
  induction d as [|[k' x] d IH]; intros H; [destruct H|].
  cbn [pairs_size fold_right]. fold (pairs_size d).
  destruct H as [H|H]; [injection H as -> ->; lia | specialize (IH H); lia].
Qed.

Lemma dumps_list_app (lvl : nat) (x : value) (l : list value) (rest : string) :
  dumps_at lvl (VList (x :: l)) ++ rest =
  String "["%char
    (newline_indent (S lvl) ++
     (dumps_at (S lvl) x ++ items_text (S lvl) l ++
      newline_indent lvl ++ String "]"%char rest)).
Proof.
  cbn [dumps_at]. fold (items_text (S lvl) l).
  rewrite !append_assoc. reflexivity.
Qed.

Lemma dumps_dict_app (lvl : nat) (k : string) (x : value)
      (d : list (string * value)) (rest : string) :
  dumps_at lvl (VDict ((k, x) :: d)) ++ rest =
  String "{"%char
    (newline_indent (S lvl) ++
     (encode_basestring k ++ ": " ++ dumps_at (S lvl) x ++
      pairs_text (S lvl) d ++ newline_indent lvl ++ String "}"%char rest)).
Proof.
  cbn [dumps_at]. fold (pairs_text (S lvl) d).
  rewrite !append_assoc. reflexivity.
Qed.

Lemma encode_basestring_starts (k : string) (s : string) :
  starts value_start (encode_basestring k ++ s).
Proof. eexists. eexists. split; reflexivity. Qed.

Lemma reads_back_all (n : nat) :
  forall v, (size v <= n)%nat -> wf_value v = true -> reads_back v.
Proof.
  induction n as [|n IH]; intros v Hsz Hwf.
  { pose proof (size_pos v). lia. }
  destruct v as [| b | z | s | l | d]; intros lvl fuel rest Hfuel Hdel;
    (destruct fuel as [|fuel]; [cbn [size] in Hfuel; lia|]).
  - reflexivity.
  - destruct b; reflexivity.
  - now apply scan_once_int.
  - apply scan_once_str.
  - destruct l as [|x l]; [reflexivity|].
    rewrite dumps_list_app. cbn [scan_once].
    change (Ascii.eqb "[" dquote) with false.
    change (Ascii.eqb "[" "[") with true. cbv iota.
    rewrite closes_at_once_starts;
      [|now left | apply starts_app, dumps_at_starts].
    rewrite skip_ws_newline_indent.
    rewrite skip_ws_starts by apply starts_app, dumps_at_starts.
    rewrite parse_items_dumps; [reflexivity | |].
    + apply Forall_forall. intros y Hy. apply IH.
      * pose proof (items_size_in y (x :: l) Hy) as Hin.
        cbn [size] in Hsz. fold (items_size (x :: l)) in Hsz. lia.
      * cbn [wf_value] in Hwf. rewrite forallb_forall in Hwf. now apply Hwf.
    + cbn [size] in Hfuel. fold (items_size (x :: l)) in Hfuel. lia.
  - destruct d as [|[k x] d]; [reflexivity|].
    rewrite dumps_dict_app. cbn [scan_once].
    change (Ascii.eqb "{" dquote) with false.
    change (Ascii.eqb "{" "[") with false.
    change (Ascii.eqb "{" "{") with true. cbv iota.
    rewrite closes_at_once_starts;
      [|now right | apply encode_basestring_starts].
    rewrite skip_ws_newline_indent.
    rewrite skip_ws_starts by apply encode_basestring_starts.
    cbn [wf_value] in Hwf. apply andb_true_iff in Hwf as [Hu Hwf].
    rewrite parse_pairs_dumps.
    + now rewrite dict_of_pairs_unique.
    + apply Forall_forall. intros [k' y] Hy. simpl. apply IH.
      * pose proof (pairs_size_in k' y _ Hy) as Hin.
        cbn [size] in Hsz. fold (pairs_size ((k, x) :: d)) in Hsz. lia.
      * rewrite forallb_forall in Hwf. exact (Hwf _ Hy).
    + cbn [size] in Hfuel. fold (pairs_size ((k, x) :: d)) in Hfuel. lia.
Qed.

(** *** Enough fuel *)

Lemma length_newline_indent (lvl : nat) :
  (1 <= String.length (newline_indent lvl))%nat.
Proof. unfold newline_indent. simpl. lia. Qed.

Lemma items_text_bound (lvl : nat) (l : list value) :
  Forall text_bound l ->
  (items_size l <= String.length (items_text lvl l))%nat.
Proof.
  induction 1 as [|y l Hy _ IH]; [simpl; lia|].
  cbn [items_size fold_right]. fold (items_size l).
  unfold items_text. cbn [map PyStr.concat]. fold (items_text lvl l).
  rewrite !length_append.
  pose proof (length_newline_indent lvl). specialize (Hy lvl).
  cbn [String.length]. lia.
Qed.

Lemma pairs_text_bound (lvl : nat) (d : list (string * value)) :
  Forall (fun kv => text_bound (snd kv)) d ->
  (pairs_size d <= String.length (pairs_text lvl d))%nat.
Proof.
  induction 1 as [|[k y] d Hy _ IH]; [simpl; lia|].
  cbn [pairs_size fold_right]. fold (pairs_size d).
  unfold pairs_text. cbn [map PyStr.concat]. fold (pairs_text lvl d).
  rewrite !length_append.
  pose proof (length_newline_indent lvl). simpl in Hy. specialize (Hy lvl).
  cbn [String.length]. lia.
Qed.

Lemma text_bound_all (n : nat) :
  forall v, (size v <= n)%nat -> text_bound v.
Proof.
  induction n as [|n IH]; intros v Hsz.
  { pose proof (size_pos v). lia. }
  destruct v as [| b | z | s | l | d]; intros lvl;
    try (cbn [size]; lia).
  - destruct l as [|x l]; [simpl; lia|].
    assert (Hall : Forall text_bound (x :: l)).
    { apply Forall_forall. intros y Hy. apply IH.
      pose proof (items_size_in y _ Hy).
      cbn [size] in Hsz. fold (items_size (x :: l)) in Hsz. lia. }
    inversion Hall as [|? ? Hx Hl]; subst.
    pose proof (items_text_bound (S lvl) l Hl) as Hitems.
    specialize (Hx (S lvl)).
    cbn [dumps_at]. fold (items_text (S lvl) l).
    cbn [size]. fold (items_size (x :: l)).
    cbn [items_size fold_right]. fold (items_size l).
    rewrite !length_append.
    pose proof (length_newline_indent (S lvl)).
    pose proof (length_newline_indent lvl).
    cbn [String.length]. lia.
  - destruct d as [|[k x] d]; [simpl; lia|].
    assert (Hall : Forall (fun kv => text_bound (snd kv)) ((k, x) :: d)).
    { apply Forall_forall. intros [k' y] Hy. simpl. apply IH.
      pose proof (pairs_size_in k' y _ Hy).
      cbn [size] in Hsz. fold (pairs_size ((k, x) :: d)) in Hsz. lia. }
    inversion Hall as [|? ? Hx Hl]; subst. simpl in Hx.
    pose proof (pairs_text_bound (S lvl) d Hl) as Hpairs.
    specialize (Hx (S lvl)).
    cbn [dumps_at]. fold (pairs_text (S lvl) d).
    cbn [size]. fold (pairs_size ((k, x) :: d)).
    cbn [pairs_size fold_right]. fold (pairs_size d).
    rewrite !length_append.
    pose proof (length_newline_indent (S lvl)).
    pose proof (length_newline_indent lvl).
    cbn [String.length]. lia.
Qed.

(** [json.loads(json.dumps(v, ensure_ascii=False, indent=4)) == v]. *)
Lemma loads_dumps (v : value) :
  wf_value v = true -> loads (dumps v) = Some v.
Proof.
  intros Hwf. unfold loads, dumps.
  rewrite skip_ws_starts by apply dumps_at_starts.
  pose proof (reads_back_all (size v) v (Nat.le_refl _) Hwf 0%nat
                (2 * String.length (dumps_at 0 v) + 2)%nat "") as Hread.
  rewrite append_nil_r in Hread. rewrite Hread; [reflexivity | | reflexivity].
  pose proof (text_bound_all (size v) v (Nat.le_refl _) 0%nat). lia.
Qed.

End JsonRoundTrip.

(** ** Extra properties: the snapshot file *)

Lemma fs_find_write_same (p : string) (t : Z) (c : string) (fs : filesystem) :
  fs_find p (fs_write p t c fs) = Some (mkFile p t c).
Proof.
  induction fs as [|f fs IH]; simpl.
  - now rewrite String.eqb_refl.
  - destruct (String.eqb (path f) p) eqn:Hp; simpl.
    + now rewrite String.eqb_refl.
    + now rewrite Hp.
Qed.

Lemma fs_find_write_other (p q : string) (t : Z) (c : string)
      (fs : filesystem) :
  q <> p -> fs_find q (fs_write p t c fs) = fs_find q fs.
Proof.
  intros Hq. apply String.eqb_neq in Hq.
  induction fs as [|f fs IH]; simpl.
  - rewrite String.eqb_sym. now rewrite Hq.
  - destruct (String.eqb (path f) p) eqn:Hp; simpl.
    + apply String.eqb_eq in Hp. rewrite Hp.
      rewrite String.eqb_sym. now rewrite Hq.
    + now rewrite IH.
Qed.

Lemma save_to_json_written (w : world) (app_infos : list value)
      (folder : string) (st : run) (fs : filesystem) :
  fs_find (fst (fst (save_to_json w app_infos folder st fs)))
          (snd (save_to_json w app_infos folder st fs))
  = Some (mkFile
            (path_join folder
               (json_file_name
                  (DateTime.of_micros (local_clock w (local_reads st)))))
            (file_clock w (writes st))
            (Json.dumps
               (VDict [("timestamp", VStr (taiwan_time_at w st));
                       ("apps", VList app_infos)]))).
Proof.
  cbv [save_to_json now get_taiwan_time utcnow taiwan_time_at fst snd
       utc_reads local_reads writes].
  apply fs_find_write_same.
Qed.

(** X1.  What [save_to_json] writes, [json.load] reads back (the first step
    of [import_json_to_db]) as the dict it dumped: the Taiwan time of the
    save under "timestamp" and, under "apps", the records it was given, in
    the same order and field for field.  The records are Python values
    whose dicts have each key once. *)
Theorem saved_snapshot_reads_back (w : world) (app_infos : list value)
        (folder : string) (st : run) (fs : filesystem) :
  forallb wf_value app_infos = true ->
  json_load (snd (save_to_json w app_infos folder st fs))
            (fst (fst (save_to_json w app_infos folder st fs)))
  = Ok (VDict [("timestamp", VStr (taiwan_time_at w st));
               ("apps", VList app_infos)]).
Proof.
  intros Hwf. unfold json_load, open_read.
  rewrite save_to_json_written. cbn [content bind].
  rewrite loads_dumps; [reflexivity|].
  cbn [wf_value map fst unique_keys existsb forallb].
  rewrite Hwf. reflexivity.
Qed.

Lemma saved_snapshot_reads_back_witness :
  json_load (snd (save_to_json Samples.world_flaky Samples.unsorted DATA_DIR
                               run0 []))
            (fst (fst (save_to_json Samples.world_flaky Samples.unsorted
                                    DATA_DIR run0 [])))
  = Ok (VDict [("timestamp", VStr (taiwan_time_at Samples.world_flaky run0));
               ("apps", VList Samples.unsorted)]).
Proof.
  apply (saved_snapshot_reads_back Samples.world_flaky Samples.unsorted
           DATA_DIR run0 []).
  reflexivity.
Defined.

Lemma escape_plain (c : ascii) :
  Json.plain c = true -> Json.escape c = String c "".
Proof.
  destruct c as [[] [] [] [] [] [] [] []]; intros H;
    try discriminate H; reflexivity.
Qed.

(** X2.  [json.dump(..., ensure_ascii=False)] writes a string that has no
    quote, backslash or control character as the string itself between two
    quotes: UTF-8 text such as "未知" is in the file as it is, not as
    escapes. *)
Theorem plain_text_is_written_literally (s : string) :
  PyStr.all Json.plain s = true ->
  Json.encode_basestring s = String Json.dquote (s ++ String Json.dquote "").
Proof.
  intros H. unfold Json.encode_basestring. f_equal. f_equal.
  induction s as [|c s IH]; [reflexivity|].
  cbn [PyStr.all] in H. apply andb_true_iff in H as [Hc Hs].
  cbn [Json.escape_string]. rewrite (escape_plain c Hc), (IH Hs). reflexivity.
Qed.

Lemma plain_text_is_written_literally_witness :
  Json.encode_basestring unknown_name
  = String Json.dquote (unknown_name ++ String Json.dquote "").
Proof.
  apply (plain_text_is_written_literally unknown_name). reflexivity.
Defined.

(** ** Extra properties: the scraper *)

Section FetchMore.

Variable w : world.

Lemma fetch_one_counts (url : string) (st : run) :
  requests (snd (fetch_one w url st)) = S (requests st) /\
  utc_reads (snd (fetch_one w url st)) = S (utc_reads st).
Proof.
  unfold fetch_one, fetch_try.
  cbv [session_get get_taiwan_time utcnow logging].
  match goal with
  | |- context [match ?m with Ok _ => _ | Raise _ => _ end] =>
      destruct m as [[name ranking]|e]
  end.
  - split; reflexivity.
  - destruct (exn_class_eqb (exn_cls e) RequestException); split; reflexivity.
Qed.

(** X3.  [fetch_app_info] asks the network once for every URL and never
    again (no retry), and reads the UTC clock once for every URL, whether
    the URL succeeds or fails. *)
Theorem fetch_app_info_one_request_per_url (urls : list string) (st : run) :
  requests (snd (fetch_app_info w urls st))
    = (requests st + List.length urls)%nat /\
  utc_reads (snd (fetch_app_info w urls st))
    = (utc_reads st + List.length urls)%nat.
Proof.
  revert st. induction urls as [|url urls IH]; intros st.
  - rewrite fetch_app_info_nil. simpl. lia.
  - rewrite fetch_app_info_cons. cbn [snd List.length].
    destruct (IH (snd (fetch_one w url st))) as [Hr Hu].
    destruct (fetch_one_counts url st) as [Hr1 Hu1].
    rewrite Hr, Hu, Hr1, Hu1. lia.
Qed.

End FetchMore.

(** *** Rankings are strings of digits *)

Lemma all_weaken_early (p q : ascii -> bool) (s : string) :
  (forall c, p c = true -> q c = true) ->
  PyStr.all p s = true -> PyStr.all q s = true.
Proof.
  intros Hpq. induction s as [|c s IH]; [reflexivity|].
  cbn [PyStr.all]. intros H. apply andb_true_iff in H as [Hc Hs].
  now rewrite (Hpq c Hc), IH.
Qed.

(** *** Characters *)

Lemma take_continuation_app (h t : string) :
  PyStr.all PyStr.is_continuation h = true ->
  match t with
  | String c _ => PyStr.is_continuation c = false
  | EmptyString => True
  end ->
  PyStr.take_continuation (h ++ t) = (h, t).
Proof.
  intros Hh Ht. induction h as [|c h IH].
  - cbn [String.append]. destruct t as [|c t]; [reflexivity|].
    cbn [PyStr.take_continuation]. now rewrite Ht.
  - cbn [PyStr.all] in Hh. apply andb_true_iff in Hh as [Hc Hh].
    cbn [String.append PyStr.take_continuation]. rewrite Hc.
    now rewrite (IH Hh).
Qed.

Lemma take_continuation_length (s : string) :
  (String.length (snd (PyStr.take_continuation s)) <= String.length s)%nat.
Proof.
  induction s as [|c s IH]; [apply Nat.le_refl|].
  cbn [PyStr.take_continuation].
  destruct (PyStr.is_continuation c); [|apply Nat.le_refl].
  destruct (PyStr.take_continuation s) as [h t]. cbn [snd String.length] in *.
  lia.
Qed.

Lemma chars_aux_fuel (f1 : nat) :
  forall f2 s,
    (String.length s <= f1)%nat -> (String.length s <= f2)%nat ->
    PyStr.chars_aux f1 s = PyStr.chars_aux f2 s.
Proof.
  induction f1 as [|f1 IH]; intros f2 s H1 H2.
  - destruct s; [|cbn in H1; lia]. destruct f2; reflexivity.
  - destruct s as [|c s]; [destruct f2; reflexivity|].
    destruct f2 as [|f2]; [cbn in H2; lia|].
    cbn [PyStr.chars_aux]. cbn [String.length] in H1, H2.
    pose proof (take_continuation_length s) as Hlen.
    destruct (PyStr.take_continuation s) as [h t]. cbn [snd] in Hlen.
    f_equal. apply IH; lia.
Qed.

Lemma chars_cons (ch t : string) :
  PyStr.is_char ch = true ->
  match t with
  | String c _ => PyStr.is_continuation c = false
  | EmptyString => True
  end ->
  PyStr.chars (ch ++ t) = ch :: PyStr.chars t.
Proof.
  intros Hch Ht. destruct ch as [|c h]; [discriminate Hch|].
  cbn [PyStr.is_char] in Hch. apply andb_true_iff in Hch as [_ Hh].
  unfold PyStr.chars. cbn [String.append String.length PyStr.chars_aux].
  rewrite (take_continuation_app h t Hh Ht). f_equal.
  apply chars_aux_fuel; [|apply Nat.le_refl].
  rewrite length_append. lia.
Qed.

Lemma concat_head (l : list string) :
  Forall (fun ch => PyStr.is_char ch = true) l ->
  match PyStr.concat l with
  | String c _ => PyStr.is_continuation c = false
  | EmptyString => True
  end.
Proof.
  intros Hl. destruct Hl as [|ch l Hch Hl]; [exact I|].
  destruct ch as [|c h]; [discriminate Hch|].
  cbn [PyStr.is_char] in Hch. apply andb_true_iff in Hch as [Hc _].
  cbn [PyStr.concat String.append]. now apply negb_true_iff.
Qed.

(** Cutting joined characters gives the characters back. *)
Lemma chars_concat (l : list string) :
  Forall (fun ch => PyStr.is_char ch = true) l ->
  PyStr.chars (PyStr.concat l) = l.
Proof.
  induction 1 as [|ch l Hch Hl IH]; [reflexivity|].
  cbn [PyStr.concat]. rewrite chars_cons; [now rewrite IH | exact Hch|].
  now apply concat_head.
Qed.

Lemma codepoint_is_char (ch : string) :
  PyStr.codepoint ch <> -1 -> PyStr.is_char ch = true.
Proof.
  unfold PyStr.codepoint, PyStr.is_char.
  destruct ch as [|c0 [|c1 [|c2 [|c3 [|c4 r]]]]]; intros H;
    try congruence; cbn [PyStr.all];
    match type of H with
    | (if ?b then _ else _) <> _ =>
        destruct b eqn:H0; [|congruence]
    end;
    repeat (apply andb_true_iff in H0 as [H0 ?]);
    repeat match goal with
           | Hc : PyStr.is_continuation _ = true |- _ => rewrite Hc; clear Hc
           end;
    cbn [andb]; rewrite ?andb_true_r; apply negb_true_iff;
    unfold PyStr.is_continuation;
    apply andb_false_iff.
  - left. apply Z.leb_gt. apply Z.ltb_lt in H0. lia.
  - right. apply Z.ltb_ge. apply Z.leb_le in H0. lia.
  - right. apply Z.ltb_ge. apply Z.leb_le in H0. lia.
  - right. apply Z.ltb_ge. apply Z.leb_le in H0. lia.
Qed.

Lemma isdigit_is_char (ch : string) :
  PyStr.isdigit ch = true -> PyStr.is_char ch = true.
Proof.
  unfold PyStr.isdigit. intros H. apply codepoint_is_char.
  intros Hcp. rewrite Hcp in H. discriminate H.
Qed.

Lemma forallb_filter_same {A} (p : A -> bool) (l : list A) :
  forallb p (List.filter p l) = true.
Proof.
  induction l as [|x l IH]; [reflexivity|].
  cbn [List.filter]. destruct (p x) eqn:Hx; [|exact IH].
  cbn [forallb]. now rewrite Hx.
Qed.

(** The characters of ["".join(filter(str.isdigit, text))] are the digits
    of [text]. *)
Lemma chars_filter_digits (text : string) :
  PyStr.chars (PyStr.filter_chars PyStr.isdigit text)
  = List.filter PyStr.isdigit (PyStr.chars text).
Proof.
  unfold PyStr.filter_chars. apply chars_concat.
  apply Forall_forall. intros ch Hch. apply filter_In in Hch as [_ Hd].
  now apply isdigit_is_char.
Qed.

Lemma get_app_ranking_digits (s : soup) (r : string) :
  _get_app_ranking s = Ok r -> forallb PyStr.isdigit (PyStr.chars r) = true.
Proof.
  rewrite get_app_ranking_eq. intros H. injection H as <-.
  destruct (find "a" "inline-list__item" s); [|reflexivity].
  rewrite chars_filter_digits. apply forallb_filter_same.
Qed.

(** *** The tables *)

Lemma in_ranges_disjoint (cp : Z) (l1 l2 : list (Z * Z)) :
  forallb (fun r1 =>
             forallb (fun r2 => (snd r1 <? fst r2) || (snd r2 <? fst r1)) l2)
          l1 = true ->
  Unicode.in_ranges cp l1 = true -> Unicode.in_ranges cp l2 = false.
Proof.
  intros Hd H1. unfold Unicode.in_ranges in *.
  apply existsb_exists in H1 as (r1 & Hr1 & Hin1).
  rewrite forallb_forall in Hd. specialize (Hd r1 Hr1).
  rewrite forallb_forall in Hd.
  destruct (existsb (Unicode.in_range cp) l2) eqn:H2; [|reflexivity].
  apply existsb_exists in H2 as (r2 & Hr2 & Hin2).
  specialize (Hd r2 Hr2). unfold Unicode.in_range in *.
  apply andb_true_iff in Hin1 as [A1 B1]. apply andb_true_iff in Hin2 as [A2 B2].
  apply Z.leb_le in A1, B1, A2, B2.
  apply orb_true_iff in Hd as [Hd|Hd]; apply Z.ltb_lt in Hd; lia.
Qed.

Lemma decimal_some (cp d : Z) :
  Unicode.decimal cp = Some d ->
  0 <= d <= 9 /\
  Unicode.in_ranges cp (map (fun z => (z, z + 9)) Unicode.DECIMAL_ZEROS) = true.
Proof.
  unfold Unicode.decimal.
  destruct (List.find (fun z => Unicode.in_range cp (z, z + 9))
                      Unicode.DECIMAL_ZEROS) as [z|] eqn:Hf; [|discriminate].
  intros H. injection H as <-. apply find_some in Hf as [Hin Hr].
  split.
  - unfold Unicode.in_range in Hr. cbn [fst snd] in Hr.
    apply andb_true_iff in Hr as [A B]. apply Z.leb_le in A, B. lia.
  - unfold Unicode.in_ranges. apply existsb_exists.
    exists (z, z + 9). split; [|exact Hr].
    apply in_map_iff. now exists z.
Qed.

Lemma isdigit_not_space (cp : Z) :
  Unicode.isdigit cp = true -> Unicode.isspace cp = false.
Proof.
  unfold Unicode.isdigit, Unicode.isdecimal, Unicode.isspace. intros H.
  destruct (Unicode.decimal cp) as [d|] eqn:Hd.
  - apply decimal_some in Hd as [_ Hin].
    eapply in_ranges_disjoint; [|exact Hin]. vm_compute. reflexivity.
  - cbn [orb] in H.
    eapply in_ranges_disjoint; [|exact H]. vm_compute. reflexivity.
Qed.

(** Of the ASCII characters, the ten digits are the digits, and they are
    decimal. *)
Lemma ascii_isdigit (c : ascii) :
  (PyStr.code c <? 128) = true ->
  Unicode.isdigit (PyStr.code c) = true ->
  PyStr.is_ascii_digit c = true /\ Unicode.isdecimal (PyStr.code c) = true.
Proof.
  destruct c as [[] [] [] [] [] [] [] []]; intros H1 H2;
    try discriminate H1; try discriminate H2; split; reflexivity.
Qed.

(** *** What [int] makes of a string of digits *)

(** What [int] reads a digit as: its ASCII digit when it is a decimal
    digit, and nothing it can read when it is not. *)
Lemma int_char_digit (ch : string) :
  PyStr.isdigit ch = true ->
  (PyStr.isdecimal ch = true /\
   PyStr.is_ascii_digit (PyStr.int_char ch) = true) \/
  (PyStr.isdecimal ch = false /\ PyStr.int_char ch = "?"%char).
Proof.
  intros Hd. pose proof (isdigit_is_char ch Hd) as Hch.
  unfold PyStr.isdigit in Hd. unfold PyStr.isdecimal, PyStr.int_char.
  destruct ch as [|c h]; [discriminate Hch|].
  destruct h as [|c1 h].
  - cbn [PyStr.codepoint] in *.
    destruct (PyStr.code c <? 128) eqn:Hc; [|discriminate Hd].
    left. destruct (ascii_isdigit c Hc Hd) as [H1 H2]. now split.
  - set (ch := String c (String c1 h)) in *.
    unfold PyStr.isspace. rewrite (isdigit_not_space _ Hd).
    unfold Unicode.isdecimal.
    destruct (Unicode.decimal (PyStr.codepoint ch)) as [d|] eqn:Hdec.
    + left. split; [reflexivity|].
      apply decimal_some in Hdec as [Hr _].
      apply digit_char_spec. lia.
    + right. now split.
Qed.

Lemma c_lstrip_no_space (t : string) :
  PyStr.all (fun c => negb (PyStr.c_isspace c)) t = true ->
  PyStr.c_lstrip t = t.
Proof.
  destruct t as [|c t]; [reflexivity|]. cbn [PyStr.all PyStr.c_lstrip].
  intros H. apply andb_true_iff in H as [Hc _].
  apply negb_true_iff in Hc. now rewrite Hc.
Qed.

Lemma c_rstrip_no_space (t : string) :
  PyStr.all (fun c => negb (PyStr.c_isspace c)) t = true ->
  PyStr.c_rstrip t = t.
Proof.
  induction t as [|c t IH]; [reflexivity|]. cbn [PyStr.all PyStr.c_rstrip].
  intros H. apply andb_true_iff in H as [Hc Ht].
  apply negb_true_iff in Hc. rewrite (IH Ht), Hc. now destruct t.
Qed.

Lemma digit_or_mark_facts (c : ascii) :
  digit_or_mark c = true ->
  PyStr.c_isspace c = false /\ Ascii.eqb c "_"%char = false /\
  Ascii.eqb c "-"%char = false /\ Ascii.eqb c "+"%char = false /\
  (PyStr.is_ascii_digit c = false -> c = "?"%char).
Proof.
  destruct c as [[] [] [] [] [] [] [] []]; intros H;
    try discriminate H; repeat split; try reflexivity; intros H1;
    try discriminate H1; reflexivity.
Qed.

Lemma int_digits_all (s : string) :
  PyStr.all PyStr.is_ascii_digit s = true ->
  forall acc b, (s <> "" \/ b = true) ->
                exists z, PyStr.int_digits acc b s = Some z.
Proof.
  induction s as [|c s IH]; intros H acc b Hb.
  - destruct Hb as [Hb | ->]; [congruence|]. now exists acc.
  - cbn [PyStr.all] in H. apply andb_true_iff in H as [Hc Hs].
    cbn [PyStr.int_digits]. rewrite Hc. apply IH; [assumption | now right].
Qed.

Lemma int_digits_mark (s : string) :
  PyStr.all digit_or_mark s = true ->
  PyStr.all PyStr.is_ascii_digit s = false ->
  forall acc b, PyStr.int_digits acc b s = None.
Proof.
  induction s as [|c s IH]; intros Hm Hd acc b; [discriminate Hd|].
  cbn [PyStr.all] in Hm, Hd. apply andb_true_iff in Hm as [Hc Hs].
  cbn [PyStr.int_digits].
  destruct (PyStr.is_ascii_digit c) eqn:Hdc.
  - cbn [andb] in Hd. now apply IH.
  - destruct (digit_or_mark_facts c Hc) as (_ & Hu & _). now rewrite Hu.
Qed.

Lemma filter_all_same (p : ascii -> bool) (s : string) :
  PyStr.all p s = true -> PyStr.filter p s = s.
Proof.
  induction s as [|c s IH]; [reflexivity|]. cbn [PyStr.all PyStr.filter].
  intros H. apply andb_true_iff in H as [Hc Hs]. now rewrite Hc, IH.
Qed.

Lemma all_no_space (t : string) :
  PyStr.all digit_or_mark t = true ->
  PyStr.all (fun c => negb (PyStr.c_isspace c)) t = true.
Proof.
  apply all_weaken_early.
  intros c Hc. destruct (digit_or_mark_facts c Hc) as (-> & _). reflexivity.
Qed.

(** [int] on ASCII text of digits and marks: it reads the text exactly when
    the text is not empty, has no mark and is within the limit. *)
Lemma to_int_ascii_digits (t : string) :
  PyStr.all digit_or_mark t = true ->
  if negb (String.eqb t "") && PyStr.all PyStr.is_ascii_digit t &&
     (String.length t <=? PyStr.INT_MAX_STR_DIGITS)%nat
  then exists z, PyStr.to_int_ascii t = Some z
  else PyStr.to_int_ascii t = None.
Proof.
  intros Hm. unfold PyStr.to_int_ascii, PyStr.c_strip.
  rewrite (c_lstrip_no_space t (all_no_space t Hm)).
  rewrite (c_rstrip_no_space t (all_no_space t Hm)).
  destruct t as [|c t]; [reflexivity|].
  cbn [String.eqb negb andb].
  pose proof Hm as Hm'. cbn [PyStr.all] in Hm'.
  apply andb_true_iff in Hm' as [Hc _].
  destruct (digit_or_mark_facts c Hc) as (_ & _ & Hminus & Hplus & _).
  unfold PyStr.sign_split. rewrite Hminus, Hplus.
  destruct (PyStr.all PyStr.is_ascii_digit (String c t)) eqn:Hd.
  - rewrite (filter_all_same _ _ Hd). cbn [andb].
    rewrite Nat.ltb_antisym.
    destruct (String.length (String c t) <=? PyStr.INT_MAX_STR_DIGITS)%nat;
      cbn [negb]; [|reflexivity].
    apply int_digits_all; [exact Hd | left; discriminate].
  - cbn [andb].
    destruct (PyStr.INT_MAX_STR_DIGITS <?
              String.length (PyStr.filter PyStr.is_ascii_digit (String c t)))%nat;
      [reflexivity|].
    now apply int_digits_mark.
Qed.

Lemma int_text_digits (l : list string) :
  forallb PyStr.isdigit l = true ->
  PyStr.all digit_or_mark (string_of_list_ascii (map PyStr.int_char l)) = true /\
  PyStr.all PyStr.is_ascii_digit (string_of_list_ascii (map PyStr.int_char l))
    = forallb PyStr.isdecimal l /\
  String.length (string_of_list_ascii (map PyStr.int_char l)) = List.length l.
Proof.
  induction l as [|ch l IH]; intros H; [repeat split|].
  cbn [forallb] in H. apply andb_true_iff in H as [Hch Hl].
  destruct (IH Hl) as (H1 & H2 & H3).
  cbn [map string_of_list_ascii PyStr.all forallb String.length List.length].
  rewrite H1, H2, H3.
  destruct (int_char_digit ch Hch) as [[Hdec Hasc] | [Hdec Hmark]].
  - rewrite Hdec, Hasc. unfold digit_or_mark. rewrite Hasc. repeat split.
  - rewrite Hdec, Hmark. repeat split.
Qed.

(** [int] on a string of digits: it reads it exactly when it is decimal
    text. *)
Lemma to_int_digits (s : string) :
  forallb PyStr.isdigit (PyStr.chars s) = true ->
  if decimal_text s then exists z, PyStr.to_int s = Some z
  else PyStr.to_int s = None.
Proof.
  intros H. unfold PyStr.to_int, PyStr.int_text, decimal_text.
  destruct (int_text_digits _ H) as (Hm & Hd & Hlen).
  pose proof (to_int_ascii_digits _ Hm) as Hint.
  rewrite Hd, Hlen in Hint.
  destruct (PyStr.chars s) as [|ch l] eqn:Hl.
  - exact Hint.
  - replace (String.eqb (string_of_list_ascii (map PyStr.int_char (ch :: l))) "")
      with false in Hint by reflexivity.
    exact Hint.
Qed.

Section FetchSort.

Variable w : world.

Lemma fetch_try_ok_digits (url : string) (st : run) (r : value) (st1 : run) :
  fetch_try w url st = (Ok r, st1) -> digit_ranking r.
Proof.
  unfold fetch_try.
  destruct (session_get w url (logging INFO ("開始抓取: " ++ url) st))
    as [got st0].
  match goal with
  | |- context [match ?m with Ok _ => _ | Raise _ => _ end] =>
      destruct m as [[name ranking]|e] eqn:Hm
  end; [|discriminate].
  apply bind_ok in Hm as (response & _ & Hm).
  apply bind_ok in Hm as (u & _ & Hm).
  apply bind_ok in Hm as (sp & _ & Hm).
  apply bind_ok in Hm as (name' & _ & Hm).
  apply bind_ok in Hm as (ranking' & Hrank & Hm).
  injection Hm as <- <-.
  destruct (get_taiwan_time w st0) as [ts st2].
  intros H. injection H as <- _.
  exists ranking'. split; [reflexivity|].
  now apply get_app_ranking_digits with sp.
Qed.

Lemma fetch_one_digits (url : string) (st : run) :
  digit_ranking (fst (fetch_one w url st)).
Proof.
  destruct (fetch_one_cases w url st) as [(r & st1 & Htry & ->)
                                         |(e & st1 & Htry & ->)].
  - now apply fetch_try_ok_digits with url st st1.
  - exists sentinel_ranking. split; reflexivity.
Qed.

Lemma fetch_app_info_digits (urls : list string) :
  forall st, Forall digit_ranking (fst (fetch_app_info w urls st)).
Proof.
  induction urls as [|url urls IH]; intros st.
  - constructor.
  - rewrite fetch_app_info_cons. cbn [fst].
    constructor; [apply fetch_one_digits | apply IH].
Qed.

Lemma ranking_key_digits (r : value) :
  digit_ranking r ->
  if decimal_ranking r then exists z, ranking_key r = Ok z
  else exists e, ranking_key r = Raise e /\ exn_cls e = ValueError.
Proof.
  intros (s & Hget & Hdig). unfold ranking_key, decimal_ranking.
  rewrite Hget. cbn [bind py_int].
  pose proof (to_int_digits s Hdig) as Hint.
  destruct (decimal_text s).
  - destruct Hint as [z ->]. now exists z.
  - rewrite Hint. eexists. split; reflexivity.
Qed.

Lemma map_result_ok_iff {A B} (f : A -> result B) (l : list A) :
  (exists ys, map_result f l = Ok ys) <->
  Forall (fun x => exists y, f x = Ok y) l.
Proof.
  induction l as [|x l IH]; simpl.
  - split; [constructor | now exists []].
  - split.
    + intros [ys H]. apply bind_ok in H as (y & Hy & H).
      apply bind_ok in H as (ys' & Hys & _).
      constructor; [now exists y | apply IH; now exists ys'].
    + intros H. inversion H as [|? ? [y Hy] Hl]; subst.
      apply IH in Hl as [ys Hys]. rewrite Hy, Hys. simpl. now eexists.
Qed.

Lemma map_result_digits (recs : list value) :
  Forall digit_ranking recs ->
  match map_result ranking_key recs with
  | Ok _ => forallb decimal_ranking recs = true
  | Raise e => exn_cls e = ValueError /\ forallb decimal_ranking recs = false
  end.
Proof.
  induction 1 as [|r recs Hr Hrecs IH]; [reflexivity|].
  cbn [map_result forallb].
  pose proof (ranking_key_digits r Hr) as Hkey.
  destruct (decimal_ranking r).
  - destruct Hkey as [z ->]. cbn [bind andb].
    destruct (map_result ranking_key recs) as [keys|e]; cbn [bind]; exact IH.
  - destruct Hkey as (e & -> & Hcls). cbn [bind andb]. now split.
Qed.

Lemma sort_of_digits (recs : list value) :
  Forall digit_ranking recs ->
  match sort_apps_by_ranking recs with
  | Ok _ => forallb decimal_ranking recs = true
  | Raise e => exn_cls e = ValueError /\ forallb decimal_ranking recs = false
  end.
Proof.
  intros H. apply map_result_digits in H.
  unfold sort_apps_by_ranking, sorted.
  destruct (map_result ranking_key recs) as [keys|e]; exact H.
Qed.

(** X4.  Every ranking [fetch_app_info] produces is a string of characters
    that [str.isdigit] accepts, and sorting the records succeeds exactly
    when every ranking is decimal text: not empty, made of decimal digits
    only (a superscript two is a digit for [str.isdigit] and none for
    [int]) and of no more digits than [int] reads.  Otherwise
    [sort_apps_by_ranking] raises ValueError.  The ranking of the error
    records, 999999, is decimal text. *)
Theorem sort_of_fetched_records (urls : list string) (st : run) :
  Forall digit_ranking (fst (fetch_app_info w urls st)) /\
  ((exists out, sort_apps_by_ranking (fst (fetch_app_info w urls st)) = Ok out)
   <->
   forallb decimal_ranking (fst (fetch_app_info w urls st)) = true) /\
  (forall e, sort_apps_by_ranking (fst (fetch_app_info w urls st)) = Raise e ->
             exn_cls e = ValueError) /\
  decimal_text sentinel_ranking = true /\
  decimal_text "" = false /\
  (PyStr.isdigit "²" = true /\ decimal_text "²" = false) /\
  decimal_text "１２" = true.
Proof.
  pose proof (fetch_app_info_digits urls st) as Hdig.
  split; [exact Hdig|].
  pose proof (sort_of_digits _ Hdig) as Hsort.
  set (recs := fst (fetch_app_info w urls st)) in *. clearbody recs.
  split; [|split; [|repeat split; vm_compute; reflexivity]].
  - destruct (sort_apps_by_ranking recs) as [out|e].
    + split; [intros _; exact Hsort | intros _; now exists out].
    + destruct Hsort as [_ Hf]. split; [intros [out H]; discriminate H|].
      rewrite Hf. discriminate.
  - intros e He. rewrite He in Hsort. apply Hsort.
Qed.

End FetchSort.

(** ** Extra properties: the loader *)

Lemma bind_sql_ok {A B} (m : sql A) (k : A -> sql B)
      (c : connection) (b : B) (c' : connection) :
  bind_sql m k c = (Ok b, c') ->
  exists a c1, m c = (Ok a, c1) /\ k a c1 = (Ok b, c').
Proof.
  unfold bind_sql. destruct (m c) as [[a|e] c1]; intros H.
  - now exists a, c1.
  - discriminate H.
Qed.

Lemma lift_ok {A} (r : result A) (c : connection) (a : A) (c' : connection) :
  lift r c = (Ok a, c') -> r = Ok a /\ c' = c.
Proof. unfold lift. intros H. injection H as -> ->. now split. Qed.

Lemma write_ok (f : database -> result database) (c : connection)
      (u : unit) (c' : connection) :
  write f c = (Ok u, c') ->
  exists db', f (working c) = Ok db' /\ c' = mkConn (committed c) db' true.
Proof.
  unfold write. destruct (f (working c)) as [db'|e]; intros H.
  - injection H as _ <-. now exists db'.
  - discriminate H.
Qed.

Lemma text_not_null_ok (col : string) (p : sqlval) (s : string) :
  text_not_null col p = Ok s -> text_column p = Some s.
Proof.
  unfold text_not_null. destruct (text_column p); intros H;
    [now injection H as -> | discriminate H].
Qed.

Lemma column_not_null_eq (v : value) (p : sqlval) (s : string) :
  adapt v = Ok p -> text_column p = Some s -> column_not_null v = Some s.
Proof. intros Ha Ht. unfold column_not_null, column. now rewrite Ha, Ht. Qed.

Lemma next_id_ok {R} (t : table R) (id : Z) :
  next_id t = Ok id -> id = seq t + 1 /\ seq t < INT64_MAX.
Proof.
  unfold next_id. destruct (INT64_MAX <=? seq t) eqn:H; intros Hid.
  - discriminate Hid.
  - injection Hid as <-. apply Z.leb_gt in H. now split.
Qed.

Lemma insert_error_ok (n u e t ca : value) (c c' : connection) :
  insert_error n u e t ca c = (Ok tt, c') ->
  exists te c1 c2 c3 c4 c5,
    column_not_null n = Some c1 /\ column_not_null u = Some c2 /\
    column_not_null e = Some c3 /\ column_not_null t = Some c4 /\
    column_not_null ca = Some c5 /\
    errors (working c) = Some te /\ seq te < INT64_MAX /\
    c' = mkConn (committed c)
                (mkDb (apps (working c))
                      (Some (mkTable
                               (rows te ++
                                [mkErr (seq te + 1) c1 c2 c3 c4 c5])%list
                               (seq te + 1))))
                true.
Proof.
  unfold insert_error. intros H. apply prepared_ok in H.
  apply bind_sql_ok in H as ([[[[p1 p2] p3] p4] p5] & c1' & Hp & H).
  apply lift_ok in Hp as [Hp ->].
  apply bind_ok in Hp as (q1 & H1 & Hp).
  apply bind_ok in Hp as (q2 & H2 & Hp).
  apply bind_ok in Hp as (q3 & H3 & Hp).
  apply bind_ok in Hp as (q4 & H4 & Hp).
  apply bind_ok in Hp as (q5 & H5 & Hp).
  injection Hp as <- <- <- <- <-.
  apply write_ok in H as (db' & Hf & ->).
  destruct (errors (working c)) as [te|]; [|discriminate Hf].
  apply bind_ok in Hf as (id & Hid & Hf).
  apply bind_ok in Hf as (c1 & Hc1 & Hf).
  apply bind_ok in Hf as (c2 & Hc2 & Hf).
  apply bind_ok in Hf as (c3 & Hc3 & Hf).
  apply bind_ok in Hf as (c4 & Hc4 & Hf).
  apply bind_ok in Hf as (c5 & Hc5 & Hf).
  injection Hf as <-.
  apply next_id_ok in Hid as [-> Hseq].
  apply text_not_null_ok in Hc1, Hc2, Hc3, Hc4, Hc5.
  exists te, c1, c2, c3, c4, c5.
  repeat split; eauto using column_not_null_eq.
Qed.

Lemma insert_app_ok (n v : value) (z : Z) (u d t ca : value)
      (c c' : connection) :
  insert_app n v z u d t ca c = (Ok tt, c') ->
  exists ta c1 ver c4 c5 c6 c7,
    column_not_null n = Some c1 /\ column v = Some ver /\
    (INT64_MIN <=? z) && (z <=? INT64_MAX) = true /\
    column_not_null u = Some c4 /\ column_not_null d = Some c5 /\
    column_not_null t = Some c6 /\ column_not_null ca = Some c7 /\
    apps (working c) = Some ta /\ seq ta < INT64_MAX /\
    c' = mkConn (committed c)
                (mkDb (Some (mkTable
                               (rows ta ++
                                [mkApp (seq ta + 1) c1 ver z c4 c5 c6 c7])%list
                               (seq ta + 1)))
                      (errors (working c)))
                true.
Proof.
  unfold insert_app. intros H. apply prepared_ok in H.
  apply bind_sql_ok in H as ([[[[[p1 p2] p4] p5] p6] p7] & c1' & Hp & H).
  apply lift_ok in Hp as [Hp ->].
  apply bind_ok in Hp as (q1 & H1 & Hp).
  apply bind_ok in Hp as (q2 & H2 & Hp).
  apply bind_ok in Hp as (q3 & H3 & Hp).
  apply bind_ok in Hp as (q4 & H4 & Hp).
  apply bind_ok in Hp as (q5 & H5 & Hp).
  apply bind_ok in Hp as (q6 & H6 & Hp).
  apply bind_ok in Hp as (q7 & H7 & Hp).
  injection Hp as <- <- <- <- <- <-.
  apply write_ok in H as (db' & Hf & ->).
  destruct (apps (working c)) as [ta|]; [|discriminate Hf].
  apply bind_ok in Hf as (id & Hid & Hf).
  apply bind_ok in Hf as (c1 & Hc1 & Hf).
  apply bind_ok in Hf as (c4 & Hc4 & Hf).
  apply bind_ok in Hf as (c5 & Hc5 & Hf).
  apply bind_ok in Hf as (c6 & Hc6 & Hf).
  apply bind_ok in Hf as (c7 & Hc7 & Hf).
  injection Hf as <-.
  apply next_id_ok in Hid as [-> Hseq].
  apply text_not_null_ok in Hc1, Hc4, Hc5, Hc6, Hc7.
  exists ta, c1, (text_column q2), c4, c5, c6, c7.
  repeat split; eauto using column_not_null_eq.
  - unfold column. now rewrite H2.
  - cbn [adapt] in H3.
    destruct ((INT64_MIN <=? z) && (z <=? INT64_MAX)); [reflexivity|].
    discriminate H3.
Qed.

Lemma column_not_null_str (s c : string) :
  column_not_null (VStr s) = Some c -> c = s.
Proof. intros H. now injection H as <-. Qed.

(** One successful turn of the loop: one row more in one of the tables. *)
Lemma import_app_ok (date ct : string) (app : value) (c c' : connection) :
  import_app date ct app c = (Ok tt, c') ->
  (is_error_record app = true /\
   exists r, expected_error app = Some (error_result_of r) /\
             err_created_at r = ct /\
             err_id r = errors_seq (working c) + 1 /\
             apps (working c') = apps (working c) /\
             errors (working c') =
             Some (mkTable (errors_rows (working c) ++ [r])%list (err_id r)))
  \/
  (is_error_record app = false /\
   exists r, expected_app date app = Some (app_result_of r) /\
             app_created_at r = ct /\
             app_id r = apps_seq (working c) + 1 /\
             errors (working c') = errors (working c) /\
             apps (working c') =
             Some (mkTable (apps_rows (working c) ++ [r])%list (app_id r))).
Proof.
  unfold import_app. intros H.
  apply bind_sql_ok in H as (is_error & c0 & Hc & H).
  apply lift_ok in Hc as [Hc ->].
  destruct is_error.
  - left. split; [unfold is_error_record; now rewrite Hc|].
    apply bind_sql_ok in H as (n & c1 & Hn & H). apply lift_ok in Hn as [Hn ->].
    apply bind_sql_ok in H as (u & c1 & Hu & H). apply lift_ok in Hu as [Hu ->].
    apply bind_sql_ok in H as (e & c1 & He & H). apply lift_ok in He as [He ->].
    apply bind_sql_ok in H as (t & c1 & Ht & H). apply lift_ok in Ht as [Ht ->].
    apply insert_error_ok in H
      as (te & c1 & c2 & c3 & c4 & c5 & H1 & H2 & H3 & H4 & H5 & Hte & _ & ->).
    apply column_not_null_str in H5. subst c5.
    exists (mkErr (seq te + 1) c1 c2 c3 c4 ct).
    unfold expected_error, stored_text, errors_seq, errors_rows.
    rewrite Hn, Hu, He, Ht, H1, H2, H3, H4, Hte. cbn.
    repeat split.
  - right. split; [unfold is_error_record; now rewrite Hc|].
    apply bind_sql_ok in H as (n & c1 & Hn & H). apply lift_ok in Hn as [Hn ->].
    apply bind_sql_ok in H as (v & c1 & Hv & H). apply lift_ok in Hv as [Hv ->].
    apply bind_sql_ok in H as (rt & c1 & Hrt & H).
    apply lift_ok in Hrt as [Hrt ->].
    apply bind_sql_ok in H as (z & c1 & Hz & H). apply lift_ok in Hz as [Hz ->].
    apply bind_sql_ok in H as (u & c1 & Hu & H). apply lift_ok in Hu as [Hu ->].
    apply bind_sql_ok in H as (t & c1 & Ht & H). apply lift_ok in Ht as [Ht ->].
    apply insert_app_ok in H
      as (ta & c1 & ver & c4 & c5 & c6 & c7 &
          H1 & H2 & Hrange & H4 & H5 & H6 & H7 & Hta & _ & ->).
    apply column_not_null_str in H5, H7. subst c5 c7.
    exists (mkApp (seq ta + 1) c1 ver z c4 date c6 ct).
    unfold expected_app, stored_text, ranking_key, apps_seq, apps_rows.
    rewrite Hn, Hv, Hrt, Hu, Ht, H1, H2, H4, H6, Hta. cbn [bind].
    rewrite Hz, Hrange. cbn.
    repeat split.
Qed.

Lemma apps_seq_rows (db : database) (t : table apps_row) :
  apps db = Some t -> apps_rows db = rows t /\ apps_seq db = seq t.
Proof. intros H. unfold apps_rows, apps_seq. now rewrite H. Qed.

Lemma errors_seq_rows (db : database) (t : table errors_row) :
  errors db = Some t -> errors_rows db = rows t /\ errors_seq db = seq t.
Proof. intros H. unfold errors_rows, errors_seq. now rewrite H. Qed.

(** The loop, when it succeeds: the rows of the records, after the rows
    that were there. *)
Lemma import_apps_ok (date ct : string) (l : list value) :
  forall c c',
    import_apps date ct l c = (Ok tt, c') ->
    exists na ne,
      apps_rows (working c') = (apps_rows (working c) ++ na)%list /\
      errors_rows (working c') = (errors_rows (working c) ++ ne)%list /\
      map Some (map app_result_of na) =
        map (expected_app date)
            (List.filter (fun x => negb (is_error_record x)) l) /\
      map Some (map error_result_of ne) =
        map expected_error (List.filter is_error_record l) /\
      Forall (fun r => app_created_at r = ct /\
                       apps_seq (working c) < app_id r) na /\
      Forall (fun r => err_created_at r = ct /\
                       errors_seq (working c) < err_id r) ne /\
      apps_seq (working c) <= apps_seq (working c') /\
      errors_seq (working c) <= errors_seq (working c').
Proof.
  induction l as [|app l IH]; intros c c' H.
  - cbn in H. injection H as <-. exists [], [].
    rewrite !app_nil_r. repeat split; try constructor; lia.
  - cbn [import_apps] in H.
    apply bind_sql_ok in H as ([] & c1 & Happ & H).
    destruct (IH _ _ H)
      as (na & ne & Ha & He & Hca & Hce & Hsa & Hse & Hqa & Hqe).
    apply import_app_ok in Happ
      as [(Hk & r & Hexp & Hct & Hid & Happs & Herrs)
         |(Hk & r & Hexp & Hct & Hid & Herrs & Happs)].
    + destruct (errors_seq_rows _ _ Herrs) as [Hr1 Hs1].
      assert (Hra : apps_rows (working c1) = apps_rows (working c))
        by (unfold apps_rows; now rewrite Happs).
      assert (Hqa' : apps_seq (working c1) = apps_seq (working c))
        by (unfold apps_seq; now rewrite Happs).
      cbn [rows seq] in Hr1, Hs1.
      exists na, (r :: ne).
      cbn [List.filter]. rewrite Hk. cbn [negb map].
      rewrite He, Hr1, <- app_assoc, Ha, Hra, Hca, Hce, Hexp.
      repeat split; try lia.
      * eapply Forall_impl; [|exact Hsa]. cbn. intros x [? ?]. split; [assumption|lia].
      * constructor; [split; [assumption|lia]|].
        eapply Forall_impl; [|exact Hse]. cbn. intros x [? ?]. split; [assumption|lia].
    + destruct (apps_seq_rows _ _ Happs) as [Hr1 Hs1].
      assert (Hre : errors_rows (working c1) = errors_rows (working c))
        by (unfold errors_rows; now rewrite Herrs).
      assert (Hqe' : errors_seq (working c1) = errors_seq (working c))
        by (unfold errors_seq; now rewrite Herrs).
      cbn [rows seq] in Hr1, Hs1.
      exists (r :: na), ne.
      cbn [List.filter]. rewrite Hk. cbn [negb map].
      rewrite Ha, Hr1, <- app_assoc, He, Hre, Hca, Hce, Hexp.
      repeat split; try lia.
      * constructor; [split; [assumption|lia]|].
        eapply Forall_impl; [|exact Hsa]. cbn. intros x [? ?]. split; [assumption|lia].
      * eapply Forall_impl; [|exact Hse]. cbn. intros x [? ?]. split; [assumption|lia].
Qed.

Lemma count_pos {A} (p : A -> bool) (l : list A) :
  (0 <? Z.of_nat (List.length (List.filter p l))) = existsb p l.
Proof.
  induction l as [|x l IH]; [reflexivity|].
  simpl. destruct (p x); simpl; [|exact IH].
  apply Z.ltb_lt. lia.
Qed.

Lemma filter_negb_none {A} (p : A -> bool) (l : list A) :
  existsb p l = false -> List.filter (fun x => negb (p x)) l = l.
Proof.
  induction l as [|x l IH]; [reflexivity|].
  simpl. intros H. apply orb_false_iff in H as [-> Hl]. simpl.
  now rewrite IH.
Qed.

Lemma count_apps_by_date_ok (date : string) (c c1 : connection) (n : Z) :
  count_apps_by_date date c = (Ok n, c1) ->
  c1 = c /\
  exists ta, apps (working c) = Some ta /\
             (0 <? n) = existsb (has_date date) (rows ta).
Proof.
  unfold count_apps_by_date.
  destruct (apps (working c)) as [ta|]; intros H; [|discriminate H].
  injection H as <- <-. split; [reflexivity|].
  exists ta. split; [reflexivity|]. apply count_pos.
Qed.

Section LoadEffect.

Variable sqlite_date : string -> option string.

Lemma import_rows_ok (data : value) (ct : string) (db : database)
      (c' : connection) :
  import_rows sqlite_date data ct (connect db) = (Ok tt, c') ->
  exists date l,
    batch_date data = Some date /\ records_of data = Some l /\
    load_effect sqlite_date date ct l db (working c').
Proof.
  unfold import_rows. intros H.
  apply bind_sql_ok in H as (ts & c0 & Hts & H). apply lift_ok in Hts as [Hts ->].
  apply bind_sql_ok in H as (date & c0 & Hd & H). apply lift_ok in Hd as [Hd ->].
  apply bind_sql_ok in H as (n & c0 & Hn & H).
  apply count_apps_by_date_ok in Hn as (-> & ta & Hta & Hpos).
  apply bind_sql_ok in H as ([] & c1 & Hdel & H).
  apply bind_sql_ok in H as (av & c2 & Hav & H). apply lift_ok in Hav as [Hav ->].
  apply bind_sql_ok in H as (l & c2 & Hl & H). apply lift_ok in Hl as [Hl ->].
  exists date, l.
  split; [unfold batch_date; now rewrite Hts, Hd|].
  split; [unfold records_of; now rewrite Hav, Hl|].
  apply import_apps_ok in H
    as (na & ne & Ha & He & Hca & Hce & Hsa & Hse & _ & _).
  cbn [connect working] in *.
  destruct (apps_seq_rows _ _ Hta) as [Hrows Hseq].
  assert (Hstate :
            apps_rows (working c1) =
              List.filter (fun r => negb (has_date date r)) (apps_rows db) /\
            errors_rows (working c1) =
              (if existsb (has_date date) (apps_rows db)
               then List.filter
                      (fun r => negb (date_matches sqlite_date date r))
                      (errors_rows db)
               else errors_rows db) /\
            apps_seq (working c1) = apps_seq db /\
            errors_seq (working c1) = errors_seq db).
  { rewrite Hrows. rewrite Hpos in Hdel.
    destruct (existsb (has_date date) (rows ta)) eqn:Hex.
    - apply bind_sql_ok in Hdel as ([] & c3 & Hda & Hde).
      unfold delete_apps_by_date in Hda.
      apply write_ok in Hda as (db1 & Hda & ->).
      unfold delete_errors_by_date in Hde.
      apply write_ok in Hde as (db2 & Hde & ->).
      cbn [connect working] in *. rewrite Hta in Hda.
      injection Hda as <-. cbn [apps errors] in Hde.
      destruct (errors db) as [te|] eqn:Hte; [|discriminate Hde].
      injection Hde as <-.
      unfold apps_rows, errors_rows, apps_seq, errors_seq.
      cbn [apps errors rows seq]. rewrite Hta, Hte.
      repeat split.
    - injection Hdel as <-. cbn [connect working].
      rewrite filter_negb_none by exact Hex. rewrite Hrows.
      repeat split. }
  destruct Hstate as (Hra & Hre & Hqa & Hqe).
  rewrite Hra in Ha. rewrite Hre in He. rewrite Hqa in Hsa. rewrite Hqe in Hse.
  exists na, ne. repeat split; assumption.
Qed.

(** A load that succeeds: the data it read, and what it did to the
    tables. *)
Lemma import_json_to_db_ok (w : world) (fs : filesystem) (p : string)
      (db db' : database) (st st' : run) :
  import_json_to_db sqlite_date w fs p db st = (Ok tt, db', st') ->
  exists data date l,
    json_load fs p = Ok data /\
    batch_date data = Some date /\ records_of data = Some l /\
    load_effect sqlite_date date (load_time w st) l db db'.
Proof.
  unfold import_json_to_db.
  destruct (json_load fs p) as [data|e]; [|discriminate].
  cbv [now]. fold (load_time w st).
  destruct (import_data sqlite_date data (load_time w st) (connect db))
    as [[u|e] conn] eqn:Himp; [|discriminate].
  intros H. injection H as <- _.
  unfold import_data in Himp.
  apply bind_sql_ok in Himp as ([] & c1 & Hrows & Hcommit).
  unfold commit in Hcommit. injection Hcommit as H.
  apply import_rows_ok in Hrows as (date & l & Hd & Hl & Heff).
  subst conn. cbn [close committed].
  exists data, date, l.
  split; [reflexivity | split; [assumption | split; assumption]].
Qed.

End LoadEffect.

Section LoadExtras.

Variable sqlite_date : string -> option string.

Lemma import_raise_keeps (w : world) (fs : filesystem)
      (p : string) (db db' : database) (st st' : run) (e : exn) :
  import_json_to_db sqlite_date w fs p db st = (Raise e, db', st') ->
  db' = db.
Proof.
  unfold import_json_to_db.
  destruct (json_load fs p) as [data|e0].
  - cbv [now]. fold (load_time w st).
    destruct (import_data sqlite_date data (load_time w st) (connect db))
      as [[u|e1] conn] eqn:Himp; intros H; [discriminate H|].
    injection H as _ <- _.
    apply import_data_raise in Himp. exact Himp.
  - intros H. now injection H as _ <- _.
Qed.

(** X5.  A load that raises, for whatever reason (no such file, text that
    is not JSON, a missing table, a missing key, a ranking that is no
    integer, a value SQLite refuses), leaves the database file exactly as
    it was: the rows are committed once, after the loop, and an exception
    leaves the function before that. *)
Theorem failed_load_changes_nothing (w : world) (fs : filesystem)
        (p : string) (db db' : database) (st st' : run) (e : exn) :
  import_json_to_db sqlite_date w fs p db st = (Raise e, db', st') ->
  db' = db.
Proof. exact (import_raise_keeps w fs p db db' st st' e). Qed.

Lemma expected_app_date (date : string) (x : value) (r : app_result) :
  expected_app date x = Some r -> r_date r = date.
Proof.
  unfold expected_app.
  destruct (stored_text x "name"); [|discriminate].
  destruct (py_getitem x "version") as [v|]; [|discriminate].
  destruct (ranking_key x) as [z|]; [|discriminate].
  destruct (stored_text x "url"); [|discriminate].
  destruct (stored_text x "timestamp"); [|discriminate].
  destruct (column v); [|discriminate].
  destruct ((INT64_MIN <=? z) && (z <=? INT64_MAX)); [|discriminate].
  intros H. now injection H as <-.
Qed.

Lemma map_some_forall2 {A B C} (f : A -> C) (g : B -> option C)
      (rs : list A) :
  forall xs, map Some (map f rs) = map g xs ->
             Forall2 (fun r x => g x = Some (f r)) rs xs.
Proof.
  induction rs as [|r rs IH]; intros [|x xs] H; try discriminate H.
  - constructor.
  - injection H as H1 H2. constructor; [now symmetry | now apply IH].
Qed.

Lemma new_apps_have_date (date : string) (na : list apps_row)
      (xs : list value) :
  map Some (map app_result_of na) = map (expected_app date) xs ->
  Forall (fun r => app_date r = date) na.
Proof.
  intros H. apply map_some_forall2 in H.
  induction H as [|r x rs xs Hrx _ IH]; constructor; [|assumption].
  apply expected_app_date in Hrx. exact Hrx.
Qed.

(** X6.  A load that succeeds replaces the rows of [apps] by date: after
    it the table holds the rows of every other date as they were, in their
    order, and after them one row for every record without an [error]
    field, in the order of the snapshot, each with the batch date (the text
    of the snapshot's time stamp before the first 'T') and with the columns
    the record gives. *)
Theorem load_replaces_apps_by_date (w : world) (fs : filesystem)
        (p : string) (db db' : database) (st st' : run) :
  import_json_to_db sqlite_date w fs p db st = (Ok tt, db', st') ->
  exists data date l new_apps,
    json_load fs p = Ok data /\
    batch_date data = Some date /\ records_of data = Some l /\
    apps_rows db' =
      (List.filter (fun r => negb (has_date date r)) (apps_rows db)
       ++ new_apps)%list /\
    Forall (fun r => app_date r = date) new_apps /\
    map Some (map app_result_of new_apps) =
      map (expected_app date)
          (List.filter (fun x => negb (is_error_record x)) l).
Proof.
  intros H.
  apply import_json_to_db_ok in H
    as (data & date & l & Hload & Hd & Hl & na & ne & Ha & _ & Hca & _).
  exists data, date, l, na.
  repeat (split; [assumption|]).
  split; [|assumption].
  now apply new_apps_have_date with (xs := List.filter
                                             (fun x => negb (is_error_record x)) l).
Qed.

(** X7.  A load that succeeds deletes rows of [errors] only when [apps]
    had a row of the batch date before the load; it then deletes the rows
    whose time stamp the engine's [date()] maps to the batch date.  In
    either case one row per record with an [error] field is added, in the
    order of the snapshot, with the record's name, url, error and time
    stamp. *)
Theorem load_deletes_errors_only_with_apps (w : world) (fs : filesystem)
        (p : string) (db db' : database) (st st' : run) :
  import_json_to_db sqlite_date w fs p db st = (Ok tt, db', st') ->
  exists data date l new_errors,
    json_load fs p = Ok data /\
    batch_date data = Some date /\ records_of data = Some l /\
    errors_rows db' =
      ((if existsb (has_date date) (apps_rows db)
        then List.filter (fun r => negb (date_matches sqlite_date date r))
                         (errors_rows db)
        else errors_rows db) ++ new_errors)%list /\
    map Some (map error_result_of new_errors) =
      map expected_error (List.filter is_error_record l).
Proof.
  intros H.
  apply import_json_to_db_ok in H
    as (data & date & l & Hload & Hd & Hl & na & ne & _ & He & _ & Hce & _).
  exists data, date, l, ne.
  repeat (split; [assumption|]). assumption.
Qed.

Lemma length_map_some {A B C} (f : A -> C) (g : B -> option C)
      (rs : list A) (xs : list B) :
  map Some (map f rs) = map g xs -> List.length rs = List.length xs.
Proof.
  intros H. apply (f_equal (@List.length _)) in H.
  now rewrite !length_map in H.
Qed.

Lemma length_filter_split {A} (p : A -> bool) (l : list A) :
  (List.length (List.filter (fun x => negb (p x)) l) +
   List.length (List.filter p l) = List.length l)%nat.
Proof.
  induction l as [|x l IH]; [reflexivity|].
  simpl. destruct (p x); simpl; lia.
Qed.

(** X8.  A load that succeeds writes one row for every record of the
    snapshot; every row it writes carries the same [created_at], the local
    time read once at the start of the load, and a key larger than every
    key the table gave out before (a key is not used again after a
    delete). *)
Theorem load_stamps_its_rows (w : world) (fs : filesystem)
        (p : string) (db db' : database) (st st' : run) :
  import_json_to_db sqlite_date w fs p db st = (Ok tt, db', st') ->
  exists data date l kept_apps kept_errors new_apps new_errors,
    json_load fs p = Ok data /\
    batch_date data = Some date /\ records_of data = Some l /\
    apps_rows db' = (kept_apps ++ new_apps)%list /\
    errors_rows db' = (kept_errors ++ new_errors)%list /\
    incl kept_apps (apps_rows db) /\ incl kept_errors (errors_rows db) /\
    (List.length new_apps + List.length new_errors = List.length l)%nat /\
    Forall (fun r => app_created_at r = load_time w st /\
                     apps_seq db < app_id r) new_apps /\
    Forall (fun r => err_created_at r = load_time w st /\
                     errors_seq db < err_id r) new_errors.
Proof.
  intros H.
  apply import_json_to_db_ok in H
    as (data & date & l & Hload & Hd & Hl & na & ne &
        Ha & He & Hca & Hce & Hsa & Hse).
  exists data, date, l,
    (List.filter (fun r => negb (has_date date r)) (apps_rows db)),
    (if existsb (has_date date) (apps_rows db)
     then List.filter (fun r => negb (date_matches sqlite_date date r))
                      (errors_rows db)
     else errors_rows db),
    na, ne.
  repeat (split; [assumption|]).
  split; [apply incl_filter|].
  split.
  { destruct (existsb (has_date date) (apps_rows db));
      [apply incl_filter | apply incl_refl]. }
  split; [|split; assumption].
  rewrite (length_map_some _ _ _ _ Hca), (length_map_some _ _ _ _ Hce).
  apply length_filter_split.
Qed.

End LoadExtras.

(** *** Loading the same snapshot again *)

Lemma filter_idem {A} (p : A -> bool) (l : list A) :
  List.filter p (List.filter p l) = List.filter p l.
Proof.
  induction l as [|x l IH]; [reflexivity|].
  simpl. destruct (p x) eqn:Hp; simpl; [rewrite Hp; now f_equal | exact IH].
Qed.

Lemma filter_nothing {A} (p : A -> bool) (l : list A) :
  Forall (fun x => p x = false) l -> List.filter p l = [].
Proof.
  induction 1 as [|x l Hx _ IH]; [reflexivity|]. simpl. now rewrite Hx.
Qed.

Lemma map_some_inj {A} (a b : list A) : map Some a = map Some b -> a = b.
Proof.
  revert b. induction a as [|x a IH]; intros [|y b] H; try discriminate H.
  - reflexivity.
  - injection H as -> H. f_equal. now apply IH.
Qed.

Lemma expected_error_timestamp (x : value) (r : error_result) :
  expected_error x = Some r -> stored_text x "timestamp" = Some (q_timestamp r).
Proof.
  unfold expected_error.
  destruct (stored_text x "name"); [|discriminate].
  destruct (stored_text x "url"); [|discriminate].
  destruct (stored_text x "error"); [|discriminate].
  destruct (stored_text x "timestamp"); [|discriminate].
  intros H. now injection H as <-.
Qed.

Section Reload.

Variable sqlite_date : string -> option string.

Lemma new_errors_match (date : string) (ne : list errors_row)
      (xs : list value) :
  map Some (map error_result_of ne) = map expected_error xs ->
  Forall (fun x => exists t, stored_text x "timestamp" = Some t /\
                             sqlite_date t = Some date) xs ->
  Forall (fun r => date_matches sqlite_date date r = true) ne.
Proof.
  intros H. apply map_some_forall2 in H.
  induction H as [|r x rs xs Hrx _ IH]; intros Hxs; constructor.
  - destruct (Forall_inv Hxs) as (t & Ht & Hsd).
    apply expected_error_timestamp in Hrx. rewrite Ht in Hrx.
    injection Hrx as Hrx. cbn in Hrx. subst t.
    unfold date_matches. rewrite Hsd, String.eqb_refl. reflexivity.
  - apply IH. exact (Forall_inv_tail Hxs).
Qed.

(** X9.  Loading a snapshot a second time leaves both tables with the
    contents they had after the first load (keys and writing times apart)
    when three things hold: the snapshot has a record without an [error]
    field; the time stamp of each of its error records is of the batch
    date for the engine's [date()]; and before the first load [apps] had a
    row of the batch date or [errors] had none of it. *)
Theorem reload_is_idempotent (w : world) (fs : filesystem) (p : string)
        (db db1 db2 : database) (st st1 st1' st2 : run)
        (data : value) (date : string) (l : list value) :
  import_json_to_db sqlite_date w fs p db st = (Ok tt, db1, st1) ->
  import_json_to_db sqlite_date w fs p db1 st1' = (Ok tt, db2, st2) ->
  json_load fs p = Ok data ->
  batch_date data = Some date ->
  records_of data = Some l ->
  existsb (fun x => negb (is_error_record x)) l = true ->
  Forall (fun x => is_error_record x = true ->
                   exists t, stored_text x "timestamp" = Some t /\
                             sqlite_date t = Some date) l ->
  existsb (has_date date) (apps_rows db) = true \/
  existsb (date_matches sqlite_date date) (errors_rows db) = false ->
  map app_result_of (apps_rows db2) = map app_result_of (apps_rows db1) /\
  map error_result_of (errors_rows db2) = map error_result_of (errors_rows db1).
Proof.
  intros H1 H2 Hdata Hdate Hrecs Hsome Herrs Hpre.
  apply import_json_to_db_ok in H1
    as (data1 & date1 & l1 & Hload1 & Hd1 & Hl1 &
        na1 & ne1 & Ha1 & He1 & Hca1 & Hce1 & _ & _).
  apply import_json_to_db_ok in H2
    as (data2 & date2 & l2 & Hload2 & Hd2 & Hl2 &
        na2 & ne2 & Ha2 & He2 & Hca2 & Hce2 & _ & _).
  rewrite Hdata in Hload1, Hload2.
  injection Hload1 as <-. injection Hload2 as <-.
  rewrite Hdate in Hd1, Hd2. injection Hd1 as <-. injection Hd2 as <-.
  rewrite Hrecs in Hl1, Hl2. injection Hl1 as <-. injection Hl2 as <-.
  assert (Hna : map app_result_of na2 = map app_result_of na1).
  { apply map_some_inj. now rewrite Hca1, Hca2. }
  assert (Hne : map error_result_of ne2 = map error_result_of ne1).
  { apply map_some_inj. now rewrite Hce1, Hce2. }
  pose proof (new_apps_have_date _ _ _ Hca1) as Hdates.
  assert (Hgone : List.filter (fun r => negb (has_date date r)) na1 = []).
  { apply filter_nothing. eapply Forall_impl; [|exact Hdates].
    cbn. intros r Hr. unfold has_date. rewrite Hr, String.eqb_refl.
    reflexivity. }
  assert (Hex1 : existsb (has_date date) (apps_rows db1) = true).
  { rewrite Ha1, existsb_app. apply orb_true_iff. right.
    destruct na1 as [|r na1].
    - apply length_map_some in Hca1. cbn in Hca1.
      destruct (List.filter (fun x => negb (is_error_record x)) l)
        as [|y ys] eqn:Hf; [|discriminate Hca1].
      apply existsb_exists in Hsome as (y & Hy & Hny).
      assert (Hin : In y (List.filter (fun x => negb (is_error_record x)) l))
        by (apply filter_In; now split).
      rewrite Hf in Hin. destruct Hin.
    - pose proof (Forall_inv Hdates) as Hr. cbn in Hr. cbn [existsb].
      unfold has_date at 1. rewrite Hr, String.eqb_refl. reflexivity. }
  split.
  - rewrite Ha2, Ha1, filter_app, filter_idem, Hgone, app_nil_r.
    rewrite !map_app. now rewrite Hna.
  - rewrite He2, Hex1, He1, filter_app.
    set (kept := if existsb (has_date date) (apps_rows db)
                 then List.filter
                        (fun r => negb (date_matches sqlite_date date r))
                        (errors_rows db)
                 else errors_rows db).
    assert (Hkept : List.filter
                      (fun r => negb (date_matches sqlite_date date r)) kept
                    = kept).
    { subst kept. destruct (existsb (has_date date) (apps_rows db)).
      - apply filter_idem.
      - destruct Hpre as [Hpre|Hpre]; [discriminate Hpre|].
        now apply filter_negb_none. }
    assert (Hmatch : List.filter
                       (fun r => negb (date_matches sqlite_date date r)) ne1
                     = []).
    { apply filter_nothing.
      eapply Forall_impl;
        [|apply (new_errors_match date ne1 _ Hce1)].
      - cbn. intros r ->. reflexivity.
      - apply Forall_forall. intros x Hx. apply filter_In in Hx as [Hxl Hxe].
        rewrite Forall_forall in Herrs. now apply Herrs. }
    rewrite Hkept, Hmatch, app_nil_r, !map_app. now rewrite Hne.
Qed.

End Reload.

(** *** Witnesses of the loader properties *)

Lemma failed_load_changes_nothing_witness : Loaded.failed = Samples.fresh_db.
Proof.
  eapply (failed_load_changes_nothing Samples.iso_date Samples.world_flaky
            (Samples.snapshot_file Samples.snapshot_scraped)
            Samples.snapshot_path Samples.fresh_db Loaded.failed run0).
  vm_compute. reflexivity.
Defined.

Lemma load_replaces_apps_by_date_witness :
  exists data date l new_apps,
    json_load (Samples.snapshot_file Samples.snapshot_mixed)
              Samples.snapshot_path = Ok data /\
    batch_date data = Some date /\ records_of data = Some l /\
    apps_rows Loaded.once =
      (List.filter (fun r => negb (has_date date r))
                   (apps_rows Samples.fresh_db) ++ new_apps)%list /\
    Forall (fun r => app_date r = date) new_apps /\
    map Some (map app_result_of new_apps) =
      map (expected_app date)
          (List.filter (fun x => negb (is_error_record x)) l).
Proof.
  apply (load_replaces_apps_by_date Samples.iso_date Samples.world_flaky
           (Samples.snapshot_file Samples.snapshot_mixed)
           Samples.snapshot_path Samples.fresh_db Loaded.once
           run0 Loaded.once_run).
  vm_compute. reflexivity.
Defined.

Lemma load_deletes_errors_only_with_apps_witness :
  exists data date l new_errors,
    json_load (Samples.snapshot_file Samples.snapshot_mixed)
              Samples.snapshot_path = Ok data /\
    batch_date data = Some date /\ records_of data = Some l /\
    errors_rows Loaded.twice =
      ((if existsb (has_date date) (apps_rows Loaded.once)
        then List.filter (fun r => negb (date_matches Samples.iso_date date r))
                         (errors_rows Loaded.once)
        else errors_rows Loaded.once) ++ new_errors)%list /\
    map Some (map error_result_of new_errors) =
      map expected_error (List.filter is_error_record l).
Proof.
  apply (load_deletes_errors_only_with_apps Samples.iso_date
           Samples.world_flaky (Samples.snapshot_file Samples.snapshot_mixed)
           Samples.snapshot_path Loaded.once Loaded.twice
           run0 Loaded.twice_run).
  vm_compute. reflexivity.
Defined.

Lemma load_stamps_its_rows_witness :
  exists data date l kept_apps kept_errors new_apps new_errors,
    json_load (Samples.snapshot_file Samples.snapshot_mixed)
              Samples.snapshot_path = Ok data /\
    batch_date data = Some date /\ records_of data = Some l /\
    apps_rows Loaded.twice = (kept_apps ++ new_apps)%list /\
    errors_rows Loaded.twice = (kept_errors ++ new_errors)%list /\
    incl kept_apps (apps_rows Loaded.once) /\
    incl kept_errors (errors_rows Loaded.once) /\
    (List.length new_apps + List.length new_errors = List.length l)%nat /\
    Forall (fun r => app_created_at r = load_time Samples.world_flaky run0 /\
                     apps_seq Loaded.once < app_id r) new_apps /\
    Forall (fun r => err_created_at r = load_time Samples.world_flaky run0 /\
                     errors_seq Loaded.once < err_id r) new_errors.
Proof.
  apply (load_stamps_its_rows Samples.iso_date Samples.world_flaky
           (Samples.snapshot_file Samples.snapshot_mixed)
           Samples.snapshot_path Loaded.once Loaded.twice
           run0 Loaded.twice_run).
  vm_compute. reflexivity.
Defined.

Lemma reload_is_idempotent_witness :
  map app_result_of (apps_rows Loaded.twice)
    = map app_result_of (apps_rows Loaded.once) /\
  map error_result_of (errors_rows Loaded.twice)
    = map error_result_of (errors_rows Loaded.once).
Proof.
  apply (reload_is_idempotent Samples.iso_date Samples.world_flaky
           (Samples.snapshot_file Samples.snapshot_mixed)
           Samples.snapshot_path Samples.fresh_db Loaded.once Loaded.twice
           run0 Loaded.once_run run0 Loaded.twice_run
           Samples.snapshot_mixed "2024-01-01"
           [Samples.versioned "A" "5" "u2" "2024-01-01T08:00:04";
            Samples.timeout_record]).
  - vm_compute. reflexivity.
  - vm_compute. reflexivity.
  - vm_compute. reflexivity.
  - reflexivity.
  - reflexivity.
  - reflexivity.
  - constructor; [intros H; discriminate H|].
    constructor; [|constructor].
    intros _. exists "2024-01-01T08:00:02". split; reflexivity.
  - right. reflexivity.
Defined.

(** The two loads of the mixed snapshot: one app row and one error row
    after each. *)
Example reload_sample :
  map app_result_of (apps_rows Loaded.twice)
    = [mkAppResult "A" (Some "1.0") 5 "u2" "2024-01-01" "2024-01-01T08:00:04"]
  /\
  map error_result_of (errors_rows Loaded.twice)
    = [mkErrorResult "未知" "u1" "Connection timed out" "2024-01-01T08:00:02"]
  /\
  map app_id (apps_rows Loaded.twice) = [2].
Proof. vm_compute. repeat split. Qed.

(** ** Extra properties: creating the tables, reporting, [main] *)

Lemma create_database_eq (db : database) (st : run) :
  fst (create_database db st) = create_errors (create_apps db).
Proof. reflexivity. Qed.

Lemma create_database_facts (db : database) (st : run) :
  apps (fst (create_database db st)) <> None /\
  errors (fst (create_database db st)) <> None /\
  apps_rows (fst (create_database db st)) = apps_rows db /\
  errors_rows (fst (create_database db st)) = errors_rows db /\
  apps_seq (fst (create_database db st)) = apps_seq db /\
  errors_seq (fst (create_database db st)) = errors_seq db /\
  (forall st2,
      fst (create_database (fst (create_database db st)) st2)
      = fst (create_database db st)).
Proof.
  rewrite create_database_eq.
  unfold create_errors, create_apps, apps_rows, errors_rows, apps_seq,
    errors_seq.
  destruct db as [[ta|] [te|]]; cbn; repeat split; discriminate.
Qed.

(** X10.  [create_database] never drops or changes anything: afterwards
    both tables exist, each with the rows and the key counter it had (an
    absent table is created empty), and creating again changes nothing. *)
Theorem create_database_keeps_rows (db : database) (st : run) :
  apps (fst (create_database db st)) <> None /\
  errors (fst (create_database db st)) <> None /\
  apps_rows (fst (create_database db st)) = apps_rows db /\
  errors_rows (fst (create_database db st)) = errors_rows db /\
  apps_seq (fst (create_database db st)) = apps_seq db /\
  errors_seq (fst (create_database db st)) = errors_seq db /\
  (forall st2,
      fst (create_database (fst (create_database db st)) st2)
      = fst (create_database db st)).
Proof. exact (create_database_facts db st). Qed.

Lemma print_apps_ok (apps : list app_result) :
  forall st,
    (fst (print_apps apps st) = Ok tt <->
     Forall (fun a => r_version a <> None) apps) /\
    (forall e, fst (print_apps apps st) = Raise e -> exn_cls e = TypeError).
Proof.
  induction apps as [|a apps IH]; intros st.
  - cbn. split; [split; [constructor | reflexivity] | discriminate].
  - cbn [print_apps]. unfold app_line.
    destruct (r_version a) as [v|] eqn:Hv; cbn.
    + destruct (IH (print
                      (PyStr.ljust 6 (PyStr.of_Z (r_ranking a)) ++ " " ++
                       PyStr.ljust 25 (r_name a) ++ " " ++
                       PyStr.ljust 8 v ++ " " ++
                       PyStr.ljust 10 (r_date a) ++ " " ++ r_url a) st))
        as [[H1 H2] H3].
      split; [split|exact H3].
      * intros H. constructor; [rewrite Hv; discriminate | now apply H1].
      * intros H. apply H2. exact (Forall_inv_tail H).
    + split; [split|].
      * discriminate.
      * intros H. apply Forall_inv in H. now rewrite Hv in H.
      * intros e H. now injection H as <-.
Qed.

Lemma print_query_results_ok (w : world)
      (apps : list app_result) (errors : list error_result) (st : run) :
  (fst (print_query_results w apps errors st) = Ok tt <->
   Forall (fun a => r_version a <> None) apps) /\
  (forall e, fst (print_query_results w apps errors st) = Raise e ->
             exn_cls e = TypeError).
Proof.
  unfold print_query_results. cbv [now].
  match goal with
  | |- context [print_apps apps ?s] =>
      destruct (print_apps_ok apps s) as [Hiff Hcls];
      destruct (print_apps apps s) as [[u|e0] st1]
  end; cbn [fst] in *.
  - split; [|discriminate]. destruct u. split; intros _; [now apply Hiff|reflexivity].
  - split; [|intros e H; injection H as <-; now apply Hcls].
    split; [discriminate|]. intros H. apply Hiff in H. discriminate H.
Qed.

(** X11.  [print_query_results] raises exactly when one of the app rows
    has no version (the column may be NULL, and formatting [None] with a
    width is a TypeError); the exception is then that TypeError, whatever
    the error rows are. *)
Theorem print_query_results_needs_versions (w : world)
        (apps : list app_result) (errors : list error_result) (st : run) :
  (fst (print_query_results w apps errors st) = Ok tt <->
   Forall (fun a => r_version a <> None) apps) /\
  (forall e, fst (print_query_results w apps errors st) = Raise e ->
             exn_cls e = TypeError).
Proof. exact (print_query_results_ok w apps errors st). Qed.

Lemma import_app_tables (date ct : string) (app : value) (c c' : connection) :
  import_app date ct app c = (Ok tt, c') ->
  (apps (working c) <> None -> apps (working c') <> None) /\
  (errors (working c) <> None -> errors (working c') <> None).
Proof.
  intros H.
  apply import_app_ok in H
    as [(_ & r & _ & _ & _ & Ha & He)|(_ & r & _ & _ & _ & He & Ha)];
    rewrite Ha, He; split; intros; (assumption || discriminate).
Qed.

Lemma import_apps_tables (date ct : string) (l : list value) :
  forall c c',
    import_apps date ct l c = (Ok tt, c') ->
    (apps (working c) <> None -> apps (working c') <> None) /\
    (errors (working c) <> None -> errors (working c') <> None).
Proof.
  induction l as [|app l IH]; intros c c' H.
  - cbn in H. injection H as <-. now split.
  - cbn [import_apps] in H.
    apply bind_sql_ok in H as ([] & c1 & Happ & H).
    apply import_app_tables in Happ as [Ha He].
    apply IH in H as [Ha' He']. split; auto.
Qed.

Section MainFacts.

Variable sqlite_date : string -> option string.

Lemma import_keeps_tables (w : world) (fs : filesystem) (p : string)
      (db db' : database) (st st' : run) :
  import_json_to_db sqlite_date w fs p db st = (Ok tt, db', st') ->
  apps db' <> None /\ (errors db <> None -> errors db' <> None).
Proof.
  unfold import_json_to_db.
  destruct (json_load fs p) as [data|e]; [|discriminate].
  cbv [now]. fold (load_time w st).
  destruct (import_data sqlite_date data (load_time w st) (connect db))
    as [[u|e] conn] eqn:Himp; [|discriminate].
  intros H. injection H as <- _.
  unfold import_data in Himp.
  apply bind_sql_ok in Himp as ([] & c1 & Hrows & Hcommit).
  unfold commit in Hcommit. injection Hcommit as Hconn. subst conn.
  cbn [close committed].
  unfold import_rows in Hrows.
  apply bind_sql_ok in Hrows as (ts & c0 & Hts & H). apply lift_ok in Hts as [_ ->].
  apply bind_sql_ok in H as (date & c0 & Hd & H). apply lift_ok in Hd as [_ ->].
  apply bind_sql_ok in H as (n & c0 & Hn & H).
  apply count_apps_by_date_ok in Hn as (-> & ta & Hta & _).
  apply bind_sql_ok in H as ([] & c2 & Hdel & H).
  apply bind_sql_ok in H as (av & c3 & Hav & H). apply lift_ok in Hav as [_ ->].
  apply bind_sql_ok in H as (l & c3 & Hl & H). apply lift_ok in Hl as [_ ->].
  apply import_apps_tables in H as [Ha He].
  cbn [connect working] in *.
  assert (Hc2 : apps (working c2) <> None /\
                (errors db <> None -> errors (working c2) <> None)).
  { destruct (0 <? n).
    - apply bind_sql_ok in Hdel as ([] & c4 & Hda & Hde).
      unfold delete_apps_by_date in Hda.
      apply write_ok in Hda as (db1 & Hda & ->).
      unfold delete_errors_by_date in Hde.
      apply write_ok in Hde as (db2 & Hde & ->).
      cbn [connect working] in *. rewrite Hta in Hda. injection Hda as <-.
      cbn [apps errors] in Hde.
      destruct (errors db); [|discriminate Hde]. injection Hde as <-.
      cbn. split; intros; discriminate.
    - injection Hdel as <-. cbn. rewrite Hta. split; [discriminate|auto]. }
  destruct Hc2 as [Ha2 He2]. split; auto.
Qed.

(** X12.  When the load raises inside [main], [main] raises the same
    exception and leaves the database as [create_database] made it: both
    tables exist and hold the rows they held before [main]. *)
Theorem main_failed_load_keeps_tables (w : world) (script p : string)
        (rest : list string) (fs : filesystem) (db db1 : database)
        (st st1 : run) (e : exn) :
  p <> "" ->
  import_json_to_db sqlite_date w fs p (fst (create_database db st))
                    (snd (create_database db st)) = (Raise e, db1, st1) ->
  main sqlite_date w (script :: p :: rest) fs db st
    = (Raise e, fst (create_database db st), st1) /\
  apps (fst (create_database db st)) <> None /\
  errors (fst (create_database db st)) <> None /\
  apps_rows (fst (create_database db st)) = apps_rows db /\
  errors_rows (fst (create_database db st)) = errors_rows db.
Proof.
  intros Hp Himp.
  pose proof (import_raise_keeps _ _ _ _ _ _ _ _ _ Himp) as Hdb.
  subst db1. split.
  - unfold main. destruct p as [|c p]; [congruence|].
    rewrite (surjective_pairing (create_database db st)).
    now rewrite Himp.
  - destruct (create_database_facts db st)
      as (H1 & H2 & H3 & H4 & _). auto.
Qed.

(** X13.  When the load succeeds inside [main], the loaded rows stay: the
    two queries succeed, [main] ends with the database the load committed,
    and the one exception it can still raise is the TypeError of the
    report, which happens exactly when one of the ten apps of lowest
    ranking has no version. *)
Theorem main_after_successful_load (w : world) (script p : string)
        (rest : list string) (fs : filesystem) (db db1 : database)
        (st st1 : run) :
  p <> "" ->
  import_json_to_db sqlite_date w fs p (fst (create_database db st))
                    (snd (create_database db st)) = (Ok tt, db1, st1) ->
  exists top errs r st',
    query_apps db1 10 = Ok top /\
    query_errors db1 10 = Ok errs /\
    main sqlite_date w (script :: p :: rest) fs db st = (r, db1, st') /\
    (r = Ok tt <-> Forall (fun a => r_version a <> None) top) /\
    (forall e, r = Raise e -> exn_cls e = TypeError).
Proof.
  intros Hp Himp.
  destruct (import_keeps_tables _ _ _ _ _ _ _ Himp) as [Ha He].
  destruct (create_database_facts db st) as (_ & Hce & _).
  specialize (He Hce).
  destruct (apps db1) as [ta|] eqn:Hta; [|congruence].
  destruct (errors db1) as [te|] eqn:Hte; [|congruence].
  destruct (query_apps_spec db1 ta 10 Hta) as (top & _ & Hqa & _);
    [unfold INT64_MAX; lia|].
  destruct (query_errors_spec db1 te 10 Hte) as (errs & _ & Hqe & _);
    [unfold INT64_MAX; lia|].
  destruct (print_query_results w top errs st1) as [r st2] eqn:Hprint.
  pose proof (print_query_results_ok w top errs st1) as Hspec.
  rewrite Hprint in Hspec. cbn [fst] in Hspec. destruct Hspec as [Hiff Hcls].
  exists top, errs.
  destruct r as [[]|e0].
  - exists (Ok tt). eexists. split; [assumption|]. split; [assumption|].
    split; [|split; [assumption|discriminate]].
    unfold main. destruct p as [|c p]; [congruence|].
    rewrite (surjective_pairing (create_database db st)).
    rewrite Himp, Hqa, Hqe, Hprint. reflexivity.
  - exists (Raise e0), st2. split; [assumption|]. split; [assumption|].
    split; [|split].
    + unfold main. destruct p as [|c p]; [congruence|].
      rewrite (surjective_pairing (create_database db st)).
      rewrite Himp, Hqa, Hqe, Hprint. reflexivity.
    + split; [discriminate|]. intros H. apply Hiff in H. discriminate H.
    + intros e H. injection H as <-. now apply Hcls.
Qed.

End MainFacts.

Lemma main_failed_load_keeps_tables_witness :
  main Samples.iso_date Samples.world_flaky MainRuns.argv
       (Samples.snapshot_file Samples.snapshot_scraped) empty_db run0
    = (Raise (mkExn KeyError "'version'"),
       fst (create_database empty_db run0),
       snd (MainRuns.load Samples.snapshot_scraped)) /\
  apps (fst (create_database empty_db run0)) <> None /\
  errors (fst (create_database empty_db run0)) <> None /\
  apps_rows (fst (create_database empty_db run0)) = apps_rows empty_db /\
  errors_rows (fst (create_database empty_db run0)) = errors_rows empty_db.
Proof.
  apply (main_failed_load_keeps_tables Samples.iso_date Samples.world_flaky
           "json_to_db.py" Samples.snapshot_path []
           (Samples.snapshot_file Samples.snapshot_scraped) empty_db
           (snd (fst (MainRuns.load Samples.snapshot_scraped))) run0
           (snd (MainRuns.load Samples.snapshot_scraped))).
  - discriminate.
  - vm_compute. reflexivity.
Defined.

Lemma main_after_successful_load_witness :
  exists top errs r st',
    query_apps (snd (fst (MainRuns.load Samples.snapshot_ranked))) 10 = Ok top /\
    query_errors (snd (fst (MainRuns.load Samples.snapshot_ranked))) 10
      = Ok errs /\
    main Samples.iso_date Samples.world_flaky MainRuns.argv
         (Samples.snapshot_file Samples.snapshot_ranked) empty_db run0
      = (r, snd (fst (MainRuns.load Samples.snapshot_ranked)), st') /\
    (r = Ok tt <-> Forall (fun a => r_version a <> None) top) /\
    (forall e, r = Raise e -> exn_cls e = TypeError).
Proof.
  apply (main_after_successful_load Samples.iso_date Samples.world_flaky
           "json_to_db.py" Samples.snapshot_path []
           (Samples.snapshot_file Samples.snapshot_ranked) empty_db
           (snd (fst (MainRuns.load Samples.snapshot_ranked))) run0
           (snd (MainRuns.load Samples.snapshot_ranked))).
  - discriminate.
  - vm_compute. reflexivity.
Defined.

(** ** Extra properties: choosing the file, the queries *)

Lemma max_by_first {A} (key : A -> Z) (l : list A) :
  forall best,
  exists pre post,
    (best :: l = pre ++ max_by key best l :: post)%list /\
    Forall (fun x => key x < key (max_by key best l)) pre /\
    Forall (fun x => key x <= key (max_by key best l)) post.
Proof.
  induction l as [|x l IH]; intros best.
  - exists [], []. cbn. repeat split; constructor.
  - cbn [max_by]. destruct (key best <? key x) eqn:Hlt.
    + apply Z.ltb_lt in Hlt.
      destruct (IH x) as (pre & post & Heq & Hpre & Hpost).
      exists (best :: pre), post.
      split; [cbn [app]; f_equal; exact Heq|].
      split; [|assumption]. constructor; [|assumption].
      pose proof (max_by_ge key l x x (or_introl eq_refl)). lia.
    + apply Z.ltb_ge in Hlt.
      destruct (IH best) as (pre & post & Heq & Hpre & Hpost).
      set (m := max_by key best l) in *.
      destruct pre as [|b pre]; cbn [app] in Heq;
        injection Heq as Hb Hl.
      * exists [], (x :: post).
        split; [cbn [app]; f_equal; [exact Hb | f_equal; exact Hl]|].
        split; [constructor|]. constructor; [|assumption].
        rewrite <- Hb. exact Hlt.
      * subst b. exists (best :: x :: pre), post.
        split; [cbn [app]; do 2 f_equal; exact Hl|]. split; [|assumption].
        pose proof (Forall_inv Hpre) as Hbest. cbn in Hbest.
        constructor; [assumption|]. constructor; [lia|].
        exact (Forall_inv_tail Hpre).
Qed.

(** X14.  [get_latest_json_file] looks only at the files whose path matches
    the pattern of the data directory.  It returns None exactly when there
    is none; otherwise it returns the path of the newest of them and, when
    several are equally new, of the one the directory lists first. *)
Theorem get_latest_json_file_first_newest (fs : filesystem) :
  (forall g, In g (glob_json_files fs) <->
             In g fs /\ glob_match (path g) = true) /\
  match get_latest_json_file fs with
  | None => glob_json_files fs = []
  | Some p =>
      exists pre f post,
        glob_json_files fs = (pre ++ f :: post)%list /\ path f = p /\
        Forall (fun g => mtime g < mtime f) pre /\
        Forall (fun g => mtime g <= mtime f) post
  end.
Proof.
  split; [intros g; apply filter_In|].
  unfold get_latest_json_file.
  destruct (glob_json_files fs) as [|f files]; [reflexivity|].
  destruct (max_by_first mtime files f) as (pre & post & Heq & Hpre & Hpost).
  exists pre, (max_by mtime f files), post. now repeat split.
Qed.

Lemma apps_in_order (l : list apps_row) :
  exists all,
    all = map app_result_of (order_by Z.leb app_ranking l) /\
    Permutation (map app_result_of l) all /\
    StronglySorted Z.le (map r_ranking all).
Proof.
  eexists. split; [reflexivity|]. split.
  - apply Permutation_map, sort_by_perm.
  - rewrite map_map. cbn [r_ranking app_result_of]. apply StronglySorted_map.
    assert (H : StronglySorted
                  (fun a b => (app_ranking a <=? app_ranking b) = true)
                  (order_by Z.leb app_ranking l)).
    { apply sort_by_sorted.
      - intros a b. rewrite !Z.leb_le. lia.
      - intros a b c. rewrite !Z.leb_le. lia. }
    induction H as [|x s Hs IH Hall]; constructor; [assumption|].
    eapply Forall_impl; [|exact Hall]. cbn beta. intros y Hy.
    now apply Z.leb_le.
Qed.

Lemma errors_in_order (l : list errors_row) :
  exists all,
    all = map error_result_of (order_by string_geb err_timestamp l) /\
    Permutation (map error_result_of l) all /\
    StronglySorted (fun a b => String.leb b a = true) (map q_timestamp all).
Proof.
  eexists. split; [reflexivity|]. split.
  - apply Permutation_map, sort_by_perm.
  - rewrite map_map. cbn [q_timestamp error_result_of].
    apply StronglySorted_map.
    apply (sort_by_sorted string_geb err_timestamp).
    + intros a b. unfold string_geb. apply String.leb_total.
    + intros a b c. unfold string_geb. intros H1 H2.
      now apply string_leb_trans with b.
Qed.

Lemma limit_rows_map {A B} (f : A -> B) (n : Z) (l : list A) :
  map f (limit_rows n l) = limit_rows n (map f l).
Proof.
  unfold limit_rows. destruct (n <? 0); [reflexivity|].
  symmetry. apply firstn_map.
Qed.

(** X15.  [query_apps] for every limit and every database.  Without the
    table [apps] it raises sqlite3.OperationalError.  With the table: a
    limit outside the 64-bit integers raises OverflowError; a negative
    limit returns every row; any other limit returns the first [limit]
    rows; in both cases of the rows of the table put in ascending order of
    ranking.  Nothing else is raised. *)
Theorem query_apps_result (db : database) (limit : Z) :
  match apps db with
  | None =>
      exists e, query_apps db limit = Raise e /\ exn_cls e = OperationalError
  | Some t =>
      if (INT64_MIN <=? limit) && (limit <=? INT64_MAX) then
        exists all,
          Permutation (map app_result_of (rows t)) all /\
          StronglySorted Z.le (map r_ranking all) /\
          query_apps db limit
            = Ok (if limit <? 0 then all else firstn (Z.to_nat limit) all)
      else
        exists e, query_apps db limit = Raise e /\ exn_cls e = OverflowError
  end.
Proof.
  unfold query_apps. destruct (apps db) as [t|].
  - cbv [adapt]. destruct ((INT64_MIN <=? limit) && (limit <=? INT64_MAX)).
    + destruct (apps_in_order (rows t)) as (all & Hall & Hperm & Hsorted).
      exists all. split; [assumption|]. split; [assumption|].
      cbn [bind]. rewrite limit_rows_map, <- Hall. reflexivity.
    + eexists. split; reflexivity.
  - eexists. split; reflexivity.
Qed.

(** X16.  [query_errors] for every limit and every database.  Without the
    table [errors] it raises sqlite3.OperationalError.  With the table: a
    limit outside the 64-bit integers raises OverflowError; a negative
    limit returns every row; any other limit returns the first [limit]
    rows; in both cases of the rows of the table put in descending order
    of the time stamp, compared as text.  Nothing else is raised. *)
Theorem query_errors_result (db : database) (limit : Z) :
  match errors db with
  | None =>
      exists e, query_errors db limit = Raise e /\ exn_cls e = OperationalError
  | Some t =>
      if (INT64_MIN <=? limit) && (limit <=? INT64_MAX) then
        exists all,
          Permutation (map error_result_of (rows t)) all /\
          StronglySorted (fun a b => String.leb b a = true)
                         (map q_timestamp all) /\
          query_errors db limit
            = Ok (if limit <? 0 then all else firstn (Z.to_nat limit) all)
      else
        exists e, query_errors db limit = Raise e /\ exn_cls e = OverflowError
  end.
Proof.
  unfold query_errors. destruct (errors db) as [t|].
  - cbv [adapt]. destruct ((INT64_MIN <=? limit) && (limit <=? INT64_MAX)).
    + destruct (errors_in_order (rows t)) as (all & Hall & Hperm & Hsorted).
      exists all. split; [assumption|]. split; [assumption|].
      cbn [bind]. rewrite limit_rows_map, <- Hall. reflexivity.
    + eexists. split; reflexivity.
  - eexists. split; reflexivity.
Qed.

(** ** Extra properties: from the scraper to the loader *)

Lemma json_load_saved (w : world) (app_infos : list value)
      (folder : string) (st : run) (fs : filesystem) :
  forallb wf_value app_infos = true ->
  json_load (snd (save_to_json w app_infos folder st fs))
            (fst (fst (save_to_json w app_infos folder st fs)))
  = Ok (VDict [("timestamp", VStr (taiwan_time_at w st));
               ("apps", VList app_infos)]).
Proof.
  intros Hwf. unfold json_load, open_read.
  rewrite save_to_json_written. cbn [content bind].
  rewrite loads_dumps; [reflexivity|].
  cbn [wf_value map fst unique_keys existsb forallb].
  rewrite Hwf. reflexivity.
Qed.

Lemma load_raises_without_version (sqlite_date : string -> option string)
      (w : world) (fs : filesystem) (json_file_path : string)
      (db : database) (st : run) (d : dict) (l : list value) (r : dict) :
  json_load fs json_file_path = Ok (VDict d) ->
  dict_get "apps" d = Some (VList l) ->
  In (VDict r) l ->
  dict_has "error" r = false ->
  dict_has "version" r = false ->
  exists e st',
    import_json_to_db sqlite_date w fs json_file_path db st = (Raise e, db, st').
Proof.
  intros Hload Happs Hin Herr Hver.
  unfold import_json_to_db. rewrite Hload.
  destruct (now w st) as [t st1].
  set (ct := DateTime.isoformat t).
  destruct (import_rows_raises sqlite_date d l r ct Happs Hin Herr Hver
                               (connect db)) as (e & He).
  destruct (import_data sqlite_date (VDict d) ct (connect db))
    as [[u|e'] c'] eqn:Himp.
  - exfalso. unfold import_data, bind_sql in Himp.
    destruct (import_rows sqlite_date (VDict d) ct (connect db))
      as [[u'|e''] c1]; simpl in He; [discriminate He | discriminate Himp].
  - apply import_data_raise in Himp. unfold close. rewrite Himp. simpl.
    eexists. eexists. reflexivity.
Qed.

Lemma fetch_one_shape (w : world) (url : string) (st : run) :
  scraped_shape (fst (fetch_one w url st)) \/
  error_shape (fst (fetch_one w url st)).
Proof.
  destruct (fetch_one_cases w url st) as [(r & st1 & Htry & ->)
                                         |(e & st1 & Htry & ->)].
  - left. destruct (fetch_try_ok w url st r st1 Htry) as (n & k & ts & ->).
    now exists n, k, url, ts.
  - right. now exists url, e, (taiwan_time_at w st1).
Qed.

Lemma fetch_app_info_shape (w : world) (urls : list string) :
  forall st,
    Forall (fun r => scraped_shape r \/ error_shape r)
           (fst (fetch_app_info w urls st)).
Proof.
  induction urls as [|url urls IH]; intros st.
  - constructor.
  - rewrite fetch_app_info_cons. cbn [fst].
    constructor; [apply fetch_one_shape | apply IH].
Qed.

Lemma shape_wf (r : value) :
  scraped_shape r \/ error_shape r -> wf_value r = true.
Proof.
  intros [(n & k & u & ts & ->) | (u & e & ts & ->)]; reflexivity.
Qed.

Lemma shape_not_error (r : value) :
  scraped_shape r \/ error_shape r ->
  is_error_record r = false ->
  exists d, r = VDict d /\
            dict_has "error" d = false /\ dict_has "version" d = false.
Proof.
  intros [(n & k & u & ts & ->) | (u & e & ts & ->)] H.
  - eexists. split; [reflexivity|]. split; reflexivity.
  - discriminate H.
Qed.

(** X17.  The scraper's snapshots and the loader do not fit together.  When
    [fetch_app_info] has got at least one page (a record without an
    [error] field), and the records, sorted by [sort_apps_by_ranking], are
    saved by [save_to_json], then [import_json_to_db] on the file that was
    written raises, whatever the database holds, and leaves the database
    as it was: the records of the scraper have no [version] field. *)
Theorem scraped_snapshot_does_not_load
        (sqlite_date : string -> option string)
        (w w1 w2 : world) (urls : list string) (st st1 st2 : run)
        (sorted_apps : list value) (folder : string) (fs : filesystem)
        (db : database) :
  existsb (fun r => negb (is_error_record r))
          (fst (fetch_app_info w urls st)) = true ->
  sort_apps_by_ranking (fst (fetch_app_info w urls st)) = Ok sorted_apps ->
  exists e st',
    import_json_to_db sqlite_date w2
      (snd (save_to_json w1 sorted_apps folder st1 fs))
      (fst (fst (save_to_json w1 sorted_apps folder st1 fs))) db st2
    = (Raise e, db, st').
Proof.
  intros Hsome Hsort.
  pose proof (fetch_app_info_shape w urls st) as Hshape.
  set (recs := fst (fetch_app_info w urls st)) in *. clearbody recs.
  assert (Hperm : Permutation recs sorted_apps).
  { unfold sort_apps_by_ranking in Hsort.
    destruct (map_result ranking_key recs) as [keys|e] eqn:Hkeys.
    - destruct (sorted_spec ranking_key recs keys Hkeys)
        as (out & Hout & Hp & _).
      congruence.
    - unfold sorted in Hsort. rewrite Hkeys in Hsort. discriminate Hsort. }
  apply existsb_exists in Hsome as (r & Hr & Hne).
  apply negb_true_iff in Hne.
  rewrite Forall_forall in Hshape.
  destruct (shape_not_error r (Hshape r Hr) Hne) as (d & -> & Herr & Hver).
  eapply load_raises_without_version with (l := sorted_apps) (r := d).
  - apply json_load_saved. apply forallb_forall. intros x Hx.
    apply shape_wf, Hshape.
    eapply Permutation_in; [apply Permutation_sym, Hperm | exact Hx].
  - reflexivity.
  - eapply Permutation_in; [exact Hperm | exact Hr].
  - exact Herr.
  - exact Hver.
Qed.

Lemma scraped_snapshot_does_not_load_witness :
  exists e st',
    import_json_to_db Samples.iso_date Samples.world_flaky
      (snd (save_to_json Samples.world_flaky Pipeline.sorted_apps DATA_DIR
                         Pipeline.fetched_run []))
      (fst (fst (save_to_json Samples.world_flaky Pipeline.sorted_apps
                              DATA_DIR Pipeline.fetched_run [])))
      Samples.fresh_db run0
    = (Raise e, Samples.fresh_db, st').
Proof.
  apply (scraped_snapshot_does_not_load Samples.iso_date Samples.world_flaky
           Samples.world_flaky Samples.world_flaky Samples.urls3 run0
           Pipeline.fetched_run run0 Pipeline.sorted_apps DATA_DIR []
           Samples.fresh_db).
  - vm_compute. reflexivity.
  - vm_compute. reflexivity.
Defined.

(** ** Extra properties: file names and dates *)

Lemma all_app (p : ascii -> bool) (a b : string) :
  PyStr.all p (a ++ b) = PyStr.all p a && PyStr.all p b.
Proof.
  induction a as [|c a IH]; [reflexivity|].
  cbn [String.append PyStr.all]. rewrite IH. apply andb_assoc.
Qed.

Lemma all_repeat (p : ascii -> bool) (c : ascii) (n : nat) :
  p c = true -> PyStr.all p (PyStr.repeat c n) = true.
Proof.
  intros H. induction n as [|n IH]; [reflexivity|].
  cbn [PyStr.repeat PyStr.all]. now rewrite H, IH.
Qed.

Lemma all_weaken (p q : ascii -> bool) (s : string) :
  (forall c, p c = true -> q c = true) ->
  PyStr.all p s = true -> PyStr.all q s = true.
Proof.
  intros Hpq. induction s as [|c s IH]; [reflexivity|].
  cbn [PyStr.all]. intros H. apply andb_true_iff in H as [Hc Hs].
  now rewrite (Hpq c Hc), IH.
Qed.

Lemma of_nat_aux_all (fuel : nat) :
  forall n, PyStr.all PyStr.is_ascii_digit (PyStr.of_nat_aux fuel n) = true.
Proof.
  induction fuel as [|fuel IH]; intros n; [reflexivity|].
  cbn [PyStr.of_nat_aux]. destruct (n <? 10)%nat eqn:Hsmall.
  - apply Nat.ltb_lt in Hsmall. cbn [PyStr.all].
    now rewrite (proj1 (digit_char_spec n Hsmall)).
  - rewrite all_app, IH. cbn [PyStr.all andb].
    assert (Hd : (n mod 10 < 10)%nat) by (apply Nat.mod_upper_bound; lia).
    now rewrite (proj1 (digit_char_spec _ Hd)).
Qed.

Lemma isdigit_stamp (c : ascii) :
  PyStr.is_ascii_digit c = true -> stamp_char c = true.
Proof. intros H. unfold stamp_char. now rewrite H. Qed.

Lemma zpad_all (w : nat) (z : Z) :
  PyStr.all stamp_char (PyStr.zpad w z) = true.
Proof.
  unfold PyStr.zpad. rewrite all_app.
  rewrite all_repeat by reflexivity. cbn [andb].
  unfold PyStr.of_Z, PyStr.of_nat. destruct (z <? 0).
  - cbn [PyStr.all]. 
    replace (stamp_char "-") with true by reflexivity. cbn [andb].
    eapply all_weaken; [exact isdigit_stamp | apply of_nat_aux_all].
  - eapply all_weaken; [exact isdigit_stamp | apply of_nat_aux_all].
Qed.

Lemma stamp_char_facts (c : ascii) :
  stamp_char c = true ->
  Ascii.eqb c "T"%char = false /\ Ascii.eqb c "/"%char = false.
Proof.
  destruct c as [[] [] [] [] [] [] [] []]; intros H;
    try discriminate H; split; reflexivity.
Qed.

Lemma split_head_app (sep : ascii) (a b : string) :
  PyStr.all (fun c => negb (Ascii.eqb c sep)) a = true ->
  PyStr.split_head sep (a ++ String sep b) = a.
Proof.
  induction a as [|c a IH]; intros H.
  - cbn. now rewrite Ascii.eqb_refl.
  - cbn [PyStr.all] in H. apply andb_true_iff in H as [Hc Ha].
    cbn [String.append PyStr.split_head].
    apply negb_true_iff in Hc. rewrite Hc. now rewrite IH.
Qed.

Lemma calendar_date_all (t : DateTime.datetime) :
  PyStr.all stamp_char (calendar_date t) = true.
Proof.
  unfold calendar_date.
  repeat (rewrite all_app || rewrite zpad_all). reflexivity.
Qed.

Lemma isoformat_split (t : DateTime.datetime) :
  exists rest,
    DateTime.isoformat t = calendar_date t ++ String "T"%char rest.
Proof.
  unfold DateTime.isoformat, calendar_date. eexists.
  rewrite !append_assoc. cbn [String.append]. reflexivity.
Qed.

Lemma split_T_isoformat (t : DateTime.datetime) :
  PyStr.split_head "T"%char (DateTime.isoformat t) = calendar_date t.
Proof.
  destruct (isoformat_split t) as [rest ->].
  apply split_head_app.
  eapply all_weaken; [|apply calendar_date_all].
  intros c Hc. now rewrite (proj1 (stamp_char_facts c Hc)).
Qed.

Lemma batch_date_timestamp (ts : string) (rest : dict) :
  batch_date (VDict (("timestamp", VStr ts) :: rest))
  = Some (PyStr.split_head "T"%char ts).
Proof. reflexivity. Qed.

Lemma taiwan_time_at_eq (w : world) (st : run) :
  taiwan_time_at w st = DateTime.isoformat (taiwan_datetime_at w st).
Proof. unfold taiwan_time_at, taiwan_datetime_at. reflexivity. Qed.

(** X18.  The date under which the loader files a snapshot is the Taiwan
    (UTC+8) calendar date of the moment [save_to_json] wrote it: reading
    the written file back, [data.get('timestamp', '').split('T')[0]] is
    the YYYY-MM-DD text of the time [get_taiwan_time] gave, and
    [data.get('apps', [])] is the list of records that was saved. *)
Theorem saved_snapshot_batch_date (w : world) (app_infos : list value)
        (folder : string) (st : run) (fs : filesystem) :
  forallb wf_value app_infos = true ->
  exists data,
    json_load (snd (save_to_json w app_infos folder st fs))
              (fst (fst (save_to_json w app_infos folder st fs))) = Ok data /\
    batch_date data = Some (calendar_date (taiwan_datetime_at w st)) /\
    records_of data = Some app_infos.
Proof.
  intros Hwf. eexists. split; [now apply json_load_saved|]. split.
  - rewrite batch_date_timestamp, taiwan_time_at_eq.
    now rewrite split_T_isoformat.
  - reflexivity.
Qed.

Lemma saved_snapshot_batch_date_witness :
  exists data,
    json_load (snd (save_to_json Samples.world_flaky Samples.unsorted DATA_DIR
                                 run0 []))
              (fst (fst (save_to_json Samples.world_flaky Samples.unsorted
                                      DATA_DIR run0 []))) = Ok data /\
    batch_date data
      = Some (calendar_date (taiwan_datetime_at Samples.world_flaky run0)) /\
    records_of data = Some Samples.unsorted.
Proof.
  apply (saved_snapshot_batch_date Samples.world_flaky Samples.unsorted
           DATA_DIR run0 []).
  reflexivity.
Defined.

Lemma substring_whole (p : string) : substring 0 (String.length p) p = p.
Proof. induction p as [|c p IH]; [reflexivity|]. cbn. now rewrite IH. Qed.

Lemma substring_app_tail (a p : string) :
  substring (String.length a) (String.length p) (a ++ p) = p.
Proof.
  induction a as [|c a IH]; [apply substring_whole|]. exact IH.
Qed.

Lemma endswith_app (a p : string) : PyStr.endswith p (a ++ p) = true.
Proof.
  unfold PyStr.endswith. rewrite length_append.
  replace (String.length a + String.length p - String.length p)%nat
    with (String.length a) by lia.
  rewrite substring_app_tail, String.eqb_refl.
  replace (String.length p <=? String.length a + String.length p)%nat
    with true; [reflexivity|].
  symmetry. apply Nat.leb_le. lia.
Qed.

Lemma has_slash_all (s : string) :
  PyStr.all (fun c => negb (Ascii.eqb c "/"%char)) s = true ->
  has_slash s = false.
Proof.
  induction s as [|c s IH]; [reflexivity|].
  cbn [PyStr.all has_slash]. intros H.
  apply andb_true_iff in H as [Hc Hs]. apply negb_true_iff in Hc.
  now rewrite Hc, IH.
Qed.

Lemma strftime_compact_all (t : DateTime.datetime) :
  PyStr.all stamp_char (DateTime.strftime_compact t) = true.
Proof.
  unfold DateTime.strftime_compact.
  repeat (rewrite all_app || rewrite zpad_all). reflexivity.
Qed.

Lemma after_data_prefix (x : string) :
  PyStr.after (path_join DATA_DIR "app_store_ranking_")
              (path_join DATA_DIR ("app_store_ranking_" ++ x)) = Some x.
Proof. reflexivity. Qed.

Lemma glob_match_file_name (t : DateTime.datetime) :
  glob_match (path_join DATA_DIR (json_file_name t)) = true.
Proof.
  unfold glob_match, json_file_name. rewrite after_data_prefix.
  rewrite endswith_app. cbn [andb]. apply negb_true_iff, has_slash_all.
  rewrite all_app. apply andb_true_iff. split; [|reflexivity].
  eapply all_weaken; [|apply strftime_compact_all].
  intros c Hc. now rewrite (proj2 (stamp_char_facts c Hc)).
Qed.

Lemma in_fs_write (p : string) (t : Z) (c : string) (fs : filesystem)
      (g : file) :
  In g (fs_write p t c fs) -> g = mkFile p t c \/ In g fs.
Proof.
  induction fs as [|f fs IH]; cbn [fs_write].
  - intros [<-|[]]. now left.
  - destruct (String.eqb (path f) p).
    + intros [<-|Hin]; [now left | right; now right].
    + intros [<-|Hin]; [right; now left|].
      destruct (IH Hin) as [->|Hg]; [now left | right; now right].
Qed.

Lemma fs_write_in (p : string) (t : Z) (c : string) (fs : filesystem) :
  In (mkFile p t c) (fs_write p t c fs).
Proof.
  induction fs as [|f fs IH]; cbn [fs_write]; [now left|].
  destruct (String.eqb (path f) p); [now left | right; exact IH].
Qed.

Lemma fs_write_length (p : string) (t : Z) (c : string) (fs : filesystem)
      (f : file) :
  fs_find p fs = Some f ->
  List.length (fs_write p t c fs) = List.length fs.
Proof.
  induction fs as [|g fs IH]; cbn [fs_find fs_write]; [discriminate|].
  destruct (String.eqb (path g) p); [reflexivity|].
  intros H. cbn [List.length]. now rewrite IH.
Qed.

Lemma save_to_json_files (w : world) (app_infos : list value)
      (folder : string) (st : run) (fs : filesystem) :
  fst (fst (save_to_json w app_infos folder st fs)) = saved_path w folder st /\
  snd (save_to_json w app_infos folder st fs)
  = fs_write (saved_path w folder st) (file_clock w (writes st))
             (Json.dumps (VDict [("timestamp", VStr (taiwan_time_at w st));
                                 ("apps", VList app_infos)])) fs.
Proof.
  cbv [save_to_json now get_taiwan_time utcnow taiwan_time_at fst snd
       utc_reads local_reads writes saved_path].
  split; reflexivity.
Qed.

(** X19.  The file [save_to_json] writes into the data directory is one the
    loader looks for: its path matches app_store_ranking/app_store_ranking_*.json,
    so after the save [get_latest_json_file] finds a file; and when the
    modification time of the write is later than that of every matching
    file that was there, it returns the path that was written. *)
Theorem saved_file_is_the_latest (w : world) (app_infos : list value)
        (st : run) (fs : filesystem) :
  fst (fst (save_to_json w app_infos DATA_DIR st fs))
    = saved_path w DATA_DIR st /\
  glob_match (saved_path w DATA_DIR st) = true /\
  get_latest_json_file (snd (save_to_json w app_infos DATA_DIR st fs))
    <> None /\
  ((forall g, In g fs -> glob_match (path g) = true ->
              mtime g < file_clock w (writes st)) ->
   get_latest_json_file (snd (save_to_json w app_infos DATA_DIR st fs))
     = Some (saved_path w DATA_DIR st)).
Proof.
  destruct (save_to_json_files w app_infos DATA_DIR st fs) as [Hp Hfs].
  rewrite Hp, Hfs.
  set (p := saved_path w DATA_DIR st).
  set (t := file_clock w (writes st)).
  match goal with |- context [fs_write p t ?c fs] => set (text := c) end.
  assert (Hm : glob_match p = true) by apply glob_match_file_name.
  pose proof (fs_write_in p t text fs) as Hin.
  pose proof (get_latest_json_file_spec (fs_write p t text fs)) as Hspec.
  split; [reflexivity|]. split; [exact Hm|]. split.
  - destruct (get_latest_json_file (fs_write p t text fs)); [discriminate|].
    specialize (Hspec _ Hin). cbn [path] in Hspec. congruence.
  - intros Hold.
    destruct (get_latest_json_file (fs_write p t text fs)) as [q|].
    + destruct Hspec as (f & Hf & Hfm & <- & Hmax).
      apply in_fs_write in Hf as [->|Hf]; [reflexivity|].
      specialize (Hold f Hf Hfm).
      specialize (Hmax _ Hin Hm). cbn [mtime] in Hmax. lia.
    + specialize (Hspec _ Hin). cbn [path] in Hspec. congruence.
Qed.

Lemma of_micros_second (u v : Z) :
  u / 1000000 = v / 1000000 ->
  DateTime.strftime_compact (DateTime.of_micros u)
  = DateTime.strftime_compact (DateTime.of_micros v).
Proof.
  intros H.
  assert (Hd : u / DateTime.US_PER_DAY = v / DateTime.US_PER_DAY).
  { unfold DateTime.US_PER_DAY, DateTime.US_PER_SECOND.
    revert H. Z.div_mod_to_equations. lia. }
  assert (Hs : (u mod DateTime.US_PER_DAY) / DateTime.US_PER_SECOND
               = (v mod DateTime.US_PER_DAY) / DateTime.US_PER_SECOND).
  { unfold DateTime.US_PER_DAY, DateTime.US_PER_SECOND.
    revert H. Z.div_mod_to_equations. lia. }
  unfold DateTime.of_micros. rewrite Hd, Hs.
  destruct (DateTime.ord2ymd (v / DateTime.US_PER_DAY + 1)) as [[y m] d].
  reflexivity.
Qed.

(** X20.  Two saves within one second of the local clock go to the same
    file: the second call of [save_to_json] computes the path of the
    first, replaces what the first wrote (no file is added) and the file
    then holds the records of the second call only. *)
Theorem saves_within_a_second_overwrite (w : world) (first second : list value)
        (folder : string) (st st2 : run) (fs : filesystem) :
  local_clock w (local_reads st) / 1000000
    = local_clock w (local_reads st2) / 1000000 ->
  fst (fst (save_to_json w second folder st2
                         (snd (save_to_json w first folder st fs))))
    = fst (fst (save_to_json w first folder st fs)) /\
  fs_find (fst (fst (save_to_json w first folder st fs)))
          (snd (save_to_json w second folder st2
                             (snd (save_to_json w first folder st fs))))
    = Some (mkFile (saved_path w folder st) (file_clock w (writes st2))
                   (Json.dumps
                      (VDict [("timestamp", VStr (taiwan_time_at w st2));
                              ("apps", VList second)]))) /\
  List.length (snd (save_to_json w second folder st2
                                 (snd (save_to_json w first folder st fs))))
    = List.length (snd (save_to_json w first folder st fs)).
Proof.
  intros Hsec.
  assert (Hpath : saved_path w folder st2 = saved_path w folder st).
  { unfold saved_path, json_file_name.
    now rewrite (of_micros_second _ _ Hsec). }
  destruct (save_to_json_files w first folder st fs) as [Hp1 Hfs1].
  destruct (save_to_json_files w second folder st2
              (snd (save_to_json w first folder st fs))) as [Hp2 Hfs2].
  rewrite Hp2, Hfs2, Hp1, Hpath. split; [reflexivity|]. split.
  - apply fs_find_write_same.
  - eapply fs_write_length. rewrite Hfs1. apply fs_find_write_same.
Qed.

Lemma saves_within_a_second_overwrite_witness :
  fst (fst (save_to_json Samples.world_without_digits Saves.second DATA_DIR
                         Saves.run1 Saves.files1))
    = fst (fst (save_to_json Samples.world_without_digits Saves.first
                             DATA_DIR run0 [])) /\
  fs_find (fst (fst (save_to_json Samples.world_without_digits Saves.first
                                  DATA_DIR run0 [])))
          (snd (save_to_json Samples.world_without_digits Saves.second
                             DATA_DIR Saves.run1 Saves.files1))
    = Some (mkFile (saved_path Samples.world_without_digits DATA_DIR run0)
                   (file_clock Samples.world_without_digits (writes Saves.run1))
                   (Json.dumps
                      (VDict [("timestamp",
                               VStr (taiwan_time_at Samples.world_without_digits
                                                    Saves.run1));
                              ("apps", VList Saves.second)]))) /\
  List.length (snd (save_to_json Samples.world_without_digits Saves.second
                                 DATA_DIR Saves.run1 Saves.files1))
    = List.length Saves.files1.
Proof.
  apply (saves_within_a_second_overwrite Samples.world_without_digits
           Saves.first Saves.second DATA_DIR run0 Saves.run1 []).
  reflexivity.
Defined.

(** ** Extra properties: the time stamp *)

Lemma month_day_checked :
  forallb (fun k => month_day_ok true (Z.of_nat k)) (List.seq 0 366) = true /\
  forallb (fun k => month_day_ok false (Z.of_nat k)) (List.seq 0 365) = true.
Proof. split; vm_compute; reflexivity. Qed.

Lemma month_day_spec (leapyear : bool) (n : Z) :
  0 <= n < 365 + DateTime.b2z leapyear ->
  month_day_ok leapyear n = true.
Proof.
  intros H. destruct month_day_checked as [Ht Hf].
  rewrite forallb_forall in Ht, Hf.
  rewrite <- (Z2Nat.id n) by lia.
  destruct leapyear; cbn [DateTime.b2z] in H;
    [apply Ht | apply Hf]; apply in_seq; lia.
Qed.

Lemma ord2ymd_cases (n0 : Z) :
  let n := n0 - 1 in
  let a := n / 146097 in
  let r1 := n mod 146097 in
  let b := r1 / 36524 in
  let r2 := r1 mod 36524 in
  let c := r2 / 1461 in
  let r3 := r2 mod 1461 in
  let d := r3 / 365 in
  let r4 := r3 mod 365 in
  let y := a * 400 + 1 + b * 100 + c * 4 + d in
  let leapyear := (d =? 3) && (negb (c =? 24) || (b =? 3)) in
  DateTime.ord2ymd n0 =
  if (d =? 4) || (b =? 4) then (y - 1, 12, 31)
  else (y, fst (month_day leapyear r4), snd (month_day leapyear r4)).
Proof.
  intros. unfold DateTime.ord2ymd, DateTime.DI400Y, DateTime.DI100Y, DateTime.DI4Y.
  fold n a r1 b r2 c r3 d r4 y leapyear.
  destruct ((d =? 4) || (b =? 4)); [reflexivity|].
  unfold month_day.
  match goal with |- context [if ?x then _ else _] => destruct x end; reflexivity.
Qed.

Lemma is_leap_parts (a b c d : Z) :
  0 <= b <= 3 -> 0 <= c <= 24 -> 0 <= d <= 3 ->
  DateTime.is_leap (a * 400 + 1 + b * 100 + c * 4 + d)
  = (d =? 3) && (negb (c =? 24) || (b =? 3)).
Proof.
  intros Hb Hc Hd. unfold DateTime.is_leap.
  set (y := a * 400 + 1 + b * 100 + c * 4 + d).
  assert (H4 : y mod 4 = (d + 1) mod 4).
  { unfold y. replace (a * 400 + 1 + b * 100 + c * 4 + d)
      with ((d + 1) + (a * 100 + b * 25 + c) * 4) by lia.
    apply Z.mod_add. lia. }
  assert (H100 : y mod 100 = (c * 4 + d + 1) mod 100).
  { unfold y. replace (a * 400 + 1 + b * 100 + c * 4 + d)
      with ((c * 4 + d + 1) + (a * 4 + b) * 100) by lia.
    apply Z.mod_add. lia. }
  assert (H400 : y mod 400 = (b * 100 + c * 4 + d + 1) mod 400).
  { unfold y. replace (a * 400 + 1 + b * 100 + c * 4 + d)
      with ((b * 100 + c * 4 + d + 1) + a * 400) by lia.
    apply Z.mod_add. lia. }
  rewrite H4, H100, H400.
  destruct (Z.eqb_spec d 3) as [->|Hd3].
  - replace ((3 + 1) mod 4) with 0 by reflexivity. cbn [Z.eqb andb].
    destruct (Z.eqb_spec c 24) as [->|Hc24].
    + replace ((24 * 4 + 3 + 1) mod 100) with 0 by reflexivity.
      cbn [Z.eqb negb orb].
      destruct (Z.eqb_spec b 3) as [->|Hb3]; [reflexivity|].
      apply Z.eqb_neq. rewrite Z.mod_small by lia. lia.
    + cbn [negb orb].
      replace ((c * 4 + 3 + 1) mod 100 =? 0) with false; [reflexivity|].
      symmetry. apply Z.eqb_neq. rewrite Z.mod_small by lia. lia.
  - replace ((d + 1) mod 4 =? 0) with false; [reflexivity|].
    symmetry. apply Z.eqb_neq. rewrite Z.mod_small by lia. lia.
Qed.

Lemma days_before_year_parts (a b c d : Z) :
  0 <= b <= 3 -> 0 <= c <= 24 -> 0 <= d <= 3 ->
  DateTime.days_before_year (a * 400 + 1 + b * 100 + c * 4 + d)
  = 146097 * a + 36524 * b + 1461 * c + 365 * d.
Proof.
  intros Hb Hc Hd. unfold DateTime.days_before_year. cbv zeta.
  replace (a * 400 + 1 + b * 100 + c * 4 + d - 1)
    with (a * 400 + b * 100 + c * 4 + d) by lia.
  set (y1 := a * 400 + b * 100 + c * 4 + d).
  assert (H4 : y1 / 4 = a * 100 + b * 25 + c).
  { symmetry. apply (Z.div_unique y1 4 _ d); unfold y1; lia. }
  assert (H100 : y1 / 100 = a * 4 + b).
  { symmetry. apply (Z.div_unique y1 100 _ (c * 4 + d)); unfold y1; lia. }
  assert (H400 : y1 / 400 = a).
  { symmetry.
    apply (Z.div_unique y1 400 _ (b * 100 + c * 4 + d)); unfold y1; lia. }
  rewrite H4, H100, H400. unfold y1. lia.
Qed.

Lemma ymd2ord_ord2ymd (n0 : Z) :
  DateTime.ymd2ord (fst (fst (DateTime.ord2ymd n0)))
                   (snd (fst (DateTime.ord2ymd n0)))
                   (snd (DateTime.ord2ymd n0)) = n0.
Proof.
  rewrite ord2ymd_cases. cbv zeta.
  set (n := n0 - 1).
  pose proof (Z.div_mod n 146097 ltac:(lia)) as E1.
  pose proof (Z.mod_pos_bound n 146097 ltac:(lia)) as B1.
  set (a := n / 146097) in *. set (r1 := n mod 146097) in *.
  pose proof (Z.div_mod r1 36524 ltac:(lia)) as E2.
  pose proof (Z.mod_pos_bound r1 36524 ltac:(lia)) as B2.
  set (b := r1 / 36524) in *. set (r2 := r1 mod 36524) in *.
  pose proof (Z.div_mod r2 1461 ltac:(lia)) as E3.
  pose proof (Z.mod_pos_bound r2 1461 ltac:(lia)) as B3.
  set (c := r2 / 1461) in *. set (r3 := r2 mod 1461) in *.
  pose proof (Z.div_mod r3 365 ltac:(lia)) as E4.
  pose proof (Z.mod_pos_bound r3 365 ltac:(lia)) as B4.
  set (d := r3 / 365) in *. set (r4 := r3 mod 365) in *.
  assert (Hn : n0 = n + 1) by (unfold n; lia).
  clearbody a r1 b r2 c r3 d r4 n.
  assert (Hb : 0 <= b <= 4) by lia.
  assert (Hc : 0 <= c <= 24) by lia.
  assert (Hd : 0 <= d <= 4) by lia.
  destruct (Z.eqb_spec d 4) as [Hd4|Hd4]; cbn [orb].
  - (* the last day of a leap year *)
    cbn [fst snd]. unfold DateTime.ymd2ord, DateTime.days_before_month.
    replace (a * 400 + 1 + b * 100 + c * 4 + d - 1)
      with (a * 400 + 1 + b * 100 + c * 4 + 3) by lia.
    assert (Hb3 : 0 <= b <= 3) by lia.
    assert (Hc23 : 0 <= c <= 23) by lia.
    rewrite days_before_year_parts by lia.
    rewrite is_leap_parts by lia.
    replace (c =? 24) with false by (symmetry; apply Z.eqb_neq; lia).
    change (nth (Z.to_nat 12) DateTime.DAYS_BEFORE_MONTH 0) with 334.
    change (2 <? 12) with true. change (3 =? 3) with true.
    cbn [andb negb orb DateTime.b2z]. lia.
  - destruct (Z.eqb_spec b 4) as [Hb4|Hb4].
    + (* the last day of a 400-year cycle *)
      cbn [fst snd]. unfold DateTime.ymd2ord, DateTime.days_before_month.
      assert (c = 0 /\ d = 0 /\ r4 = 0) as (-> & -> & ->) by lia.
      subst b.
      replace (a * 400 + 1 + 4 * 100 + 0 * 4 + 0 - 1)
        with (a * 400 + 1 + 3 * 100 + 24 * 4 + 3) by lia.
      rewrite days_before_year_parts by lia.
      rewrite is_leap_parts by lia.
      change (nth (Z.to_nat 12) DateTime.DAYS_BEFORE_MONTH 0) with 334.
      change (2 <? 12) with true. change (3 =? 3) with true.
      change (24 =? 24) with true.
      cbn [andb negb orb DateTime.b2z]. lia.
    + cbn [fst snd].
      set (leapyear := (d =? 3) && (negb (c =? 24) || (b =? 3))).
      pose proof (month_day_spec leapyear r4) as Hmd.
      unfold month_day_ok in Hmd.
      destruct (month_day leapyear r4) as [m dd]. cbn [fst snd].
      assert (Hok : 0 <= r4 < 365 + DateTime.b2z leapyear)
        by (destruct leapyear; cbn [DateTime.b2z]; lia).
      specialize (Hmd Hok).
      apply andb_true_iff in Hmd as [Hmd Hsum].
      apply Z.eqb_eq in Hsum.
      unfold DateTime.ymd2ord, DateTime.days_before_month.
      rewrite days_before_year_parts by lia.
      rewrite is_leap_parts by lia.
      fold leapyear. lia.
Qed.

Lemma ord2ymd_month_day (n0 : Z) :
  1 <= snd (fst (DateTime.ord2ymd n0)) <= 12 /\
  1 <= snd (DateTime.ord2ymd n0) <= 31.
Proof.
  rewrite ord2ymd_cases. cbv zeta.
  set (n := n0 - 1).
  pose proof (Z.div_mod n 146097 ltac:(lia)) as E1.
  pose proof (Z.mod_pos_bound n 146097 ltac:(lia)) as B1.
  set (a := n / 146097) in *. set (r1 := n mod 146097) in *.
  pose proof (Z.div_mod r1 36524 ltac:(lia)) as E2.
  pose proof (Z.mod_pos_bound r1 36524 ltac:(lia)) as B2.
  set (b := r1 / 36524) in *. set (r2 := r1 mod 36524) in *.
  pose proof (Z.div_mod r2 1461 ltac:(lia)) as E3.
  pose proof (Z.mod_pos_bound r2 1461 ltac:(lia)) as B3.
  set (c := r2 / 1461) in *. set (r3 := r2 mod 1461) in *.
  pose proof (Z.mod_pos_bound r3 365 ltac:(lia)) as B4.
  set (d := r3 / 365) in *. set (r4 := r3 mod 365) in *.
  clearbody a r1 b r2 c r3 d r4 n.
  destruct ((d =? 4) || (b =? 4)); cbn [fst snd]; [lia|].
  set (leapyear := (d =? 3) && (negb (c =? 24) || (b =? 3))).
  pose proof (month_day_spec leapyear r4) as Hmd.
  unfold month_day_ok in Hmd.
  destruct (month_day leapyear r4) as [m dd]. cbn [fst snd].
  assert (Hok : 0 <= r4 < 365 + DateTime.b2z leapyear)
    by (destruct leapyear; cbn [DateTime.b2z]; lia).
  specialize (Hmd Hok).
  repeat (apply andb_true_iff in Hmd as [Hmd ?]).
  rewrite ?Z.leb_le in *. lia.
Qed.

Lemma of_micros_parts (u : Z) :
  exists days secs us,
    u = days * DateTime.US_PER_DAY + secs * DateTime.US_PER_SECOND + us /\
    0 <= secs < 86400 /\ 0 <= us < 1000000 /\
    DateTime.of_micros u =
    DateTime.mk (fst (fst (DateTime.ord2ymd (days + 1))))
                (snd (fst (DateTime.ord2ymd (days + 1))))
                (snd (DateTime.ord2ymd (days + 1)))
                (secs / 3600) (secs mod 3600 / 60) (secs mod 3600 mod 60) us.
Proof.
  exists (u / DateTime.US_PER_DAY),
         (u mod DateTime.US_PER_DAY / DateTime.US_PER_SECOND),
         (u mod DateTime.US_PER_DAY mod DateTime.US_PER_SECOND).
  split; [|split; [|split]].
  - unfold DateTime.US_PER_DAY, DateTime.US_PER_SECOND.
    Z.div_mod_to_equations. lia.
  - unfold DateTime.US_PER_DAY, DateTime.US_PER_SECOND.
    Z.div_mod_to_equations. lia.
  - unfold DateTime.US_PER_DAY, DateTime.US_PER_SECOND.
    Z.div_mod_to_equations. lia.
  - unfold DateTime.of_micros.
    destruct (DateTime.ord2ymd (u / DateTime.US_PER_DAY + 1)) as [[y m] d].
    reflexivity.
Qed.

Lemma to_micros_of_micros (u : Z) :
  DateTime.to_micros (DateTime.of_micros u) = u.
Proof.
  destruct (of_micros_parts u) as (days & secs & us & Hu & Hs & Hus & ->).
  unfold DateTime.to_micros, DateTime.toordinal.
  cbn [DateTime.year DateTime.month DateTime.day DateTime.hour
       DateTime.minute DateTime.second DateTime.microsecond].
  rewrite ymd2ord_ord2ymd.
  replace ((secs / 3600 * 60 + secs mod 3600 / 60) * 60 + secs mod 3600 mod 60)
    with secs by (Z.div_mod_to_equations; lia).
  lia.
Qed.

Lemma of_micros_fields (u : Z) :
  1 <= DateTime.month (DateTime.of_micros u) <= 12 /\
  1 <= DateTime.day (DateTime.of_micros u) <= 31 /\
  0 <= DateTime.hour (DateTime.of_micros u) < 24 /\
  0 <= DateTime.minute (DateTime.of_micros u) < 60 /\
  0 <= DateTime.second (DateTime.of_micros u) < 60 /\
  0 <= DateTime.microsecond (DateTime.of_micros u) < 1000000.
Proof.
  destruct (of_micros_parts u) as (days & secs & us & Hu & Hs & Hus & ->).
  cbn [DateTime.year DateTime.month DateTime.day DateTime.hour
       DateTime.minute DateTime.second DateTime.microsecond].
  destruct (ord2ymd_month_day (days + 1)) as [Hm Hd].
  split; [exact Hm|]. split; [exact Hd|].
  repeat split; try (Z.div_mod_to_equations; lia).
Qed.

Lemma add_hours_of_micros (u h : Z) :
  DateTime.add_hours (DateTime.of_micros u) h
  = DateTime.of_micros (u + h * 3600 * 1000000).
Proof.
  unfold DateTime.add_hours. now rewrite to_micros_of_micros.
Qed.

(** X21.  [get_taiwan_time] returns the ISO text of the instant exactly
    eight hours after the reading of the UTC clock, carried over the ends
    of days, months and years (leap years included): the date and time it
    prints are those of [UTC + 8 h] as a calendar date, with the month in
    1..12, the day in 1..31 and the time of day in range, and it reads the
    clock once. *)
Theorem get_taiwan_time_is_utc_plus_eight (w : world) (st : run) :
  fst (get_taiwan_time w st)
    = DateTime.isoformat
        (DateTime.of_micros (utc_clock w (utc_reads st) + EIGHT_HOURS)) /\
  DateTime.to_micros (taiwan_datetime_at w st)
    = utc_clock w (utc_reads st) + EIGHT_HOURS /\
  utc_reads (snd (get_taiwan_time w st)) = S (utc_reads st) /\
  1 <= DateTime.month (taiwan_datetime_at w st) <= 12 /\
  1 <= DateTime.day (taiwan_datetime_at w st) <= 31 /\
  0 <= DateTime.hour (taiwan_datetime_at w st) < 24 /\
  0 <= DateTime.minute (taiwan_datetime_at w st) < 60 /\
  0 <= DateTime.second (taiwan_datetime_at w st) < 60 /\
  0 <= DateTime.microsecond (taiwan_datetime_at w st) < 1000000.
Proof.
  assert (Ht : taiwan_datetime_at w st
               = DateTime.of_micros (utc_clock w (utc_reads st) + EIGHT_HOURS)).
  { unfold taiwan_datetime_at, EIGHT_HOURS. apply add_hours_of_micros. }
  split; [|split; [|split]].
  - rewrite get_taiwan_time_eq, taiwan_time_at_eq. now rewrite Ht.
  - rewrite Ht. apply to_micros_of_micros.
  - cbv [get_taiwan_time utcnow snd utc_reads]. reflexivity.
  - rewrite Ht. apply of_micros_fields.
Qed.

(** ** Extra properties: the log of the scraper *)

Lemma fetch_one_log (w : world) (url : string) (st : run) :
  exists new,
    log (snd (fetch_one w url st)) = (log st ++ new)%list /\
    List.length new = 2%nat /\
    error_lines_of new
      = (if is_error_record (fst (fetch_one w url st)) then 1 else 0)%nat /\
    stdout (snd (fetch_one w url st)) = stdout st.
Proof.
  unfold fetch_one, fetch_try.
  cbv [session_get get_taiwan_time utcnow].
  match goal with
  | |- context [match ?m with Ok _ => _ | Raise _ => _ end] =>
      destruct m as [[name ranking]|e]
  end.
  - eexists. cbn [snd fst logging log stdout]. rewrite <- app_assoc.
    split; [reflexivity|]. repeat split.
  - destruct (exn_class_eqb (exn_cls e) RequestException);
      eexists; cbn [snd fst logging log stdout]; rewrite <- app_assoc;
      (split; [reflexivity|]); repeat split.
Qed.

Lemma fetch_app_info_log (w : world) (urls : list string)
        (st : run) :
  exists new,
    log (snd (fetch_app_info w urls st)) = (log st ++ new)%list /\
    List.length new = (2 * List.length urls)%nat /\
    error_lines_of new = error_records_of (fst (fetch_app_info w urls st)) /\
    stdout (snd (fetch_app_info w urls st)) = stdout st.
Proof.
  revert st. induction urls as [|url urls IH]; intros st.
  - rewrite fetch_app_info_nil. exists []. cbn [snd fst].
    rewrite app_nil_r. repeat split.
  - rewrite fetch_app_info_cons. cbn [snd fst].
    destruct (fetch_one_log w url st) as (n1 & Hl1 & Hn1 & He1 & Hs1).
    destruct (IH (snd (fetch_one w url st))) as (n2 & Hl2 & Hn2 & He2 & Hs2).
    exists (n1 ++ n2)%list. split; [|split; [|split]].
    + rewrite Hl2, Hl1. now rewrite app_assoc.
    + rewrite length_app, Hn1, Hn2. cbn [List.length]. lia.
    + unfold error_lines_of, error_records_of in *.
      rewrite filter_app, length_app, He1, He2. cbn [List.filter].
      destruct (is_error_record (fst (fetch_one w url st))); reflexivity.
    + now rewrite Hs2, Hs1.
Qed.

(** X22.  What [fetch_app_info] logs: two records for every URL, as many
    of them at level ERROR as there are records with an [error] field in
    the result, so every failure is logged as an error and no success is.
    Each record is one more line in the log file and on standard error
    (the two handlers of the logging configuration); nothing is printed on
    standard output. *)
Theorem fetch_app_info_logs_every_failure (w : world) (urls : list string)
        (st : run) :
  exists new,
    log (snd (fetch_app_info w urls st)) = (log st ++ new)%list /\
    List.length new = (2 * List.length urls)%nat /\
    error_lines_of new = error_records_of (fst (fetch_app_info w urls st)) /\
    log_file (snd (fetch_app_info w urls st))
      = (log_file st ++ map log_line new)%list /\
    stderr (snd (fetch_app_info w urls st))
      = (stderr st ++ map log_line new)%list /\
    stdout (snd (fetch_app_info w urls st)) = stdout st.
Proof.
  destruct (fetch_app_info_log w urls st) as (new & Hlog & Hn & He & Hout).
  exists new. unfold log_file, stderr. rewrite Hlog, map_app.
  repeat split; assumption.
Qed.

(** ** Extra properties: the report and [main] of the scraper *)

Lemma print_each_app (a b : list string) (st : run) :
  print_each (a ++ b) st = print_each b (print_each a st).
Proof.
  revert st. induction a as [|x a IH]; intros st; [reflexivity|].
  cbn [app print_each]. apply IH.
Qed.

Lemma print_each_run (lines : list string) :
  forall st,
    stdout (print_each lines st) = (stdout st ++ lines)%list /\
    log (print_each lines st) = log st /\
    utc_reads (print_each lines st) = utc_reads st /\
    local_reads (print_each lines st) = local_reads st /\
    requests (print_each lines st) = requests st /\
    writes (print_each lines st) = writes st.
Proof.
  induction lines as [|l lines IH]; intros st.
  - cbn [print_each]. rewrite app_nil_r. repeat split.
  - cbn [print_each]. destruct (IH (print l st)) as (H1 & H2 & H3 & H4 & H5 & H6).
    rewrite H1, H2, H3, H4, H5, H6. cbn [print stdout log utc_reads
      local_reads requests writes]. rewrite <- app_assoc. repeat split.
Qed.

Lemma fetch_app_info_length (w : world) (urls : list string) :
  forall st, List.length (fst (fetch_app_info w urls st)) = List.length urls.
Proof.
  induction urls as [|url urls IH]; intros st.
  - now rewrite fetch_app_info_nil.
  - rewrite fetch_app_info_cons. cbn [fst List.length]. now rewrite IH.
Qed.

Lemma fetch_one_writes (w : world) (url : string) (st : run) :
  writes (snd (fetch_one w url st)) = writes st.
Proof.
  unfold fetch_one, fetch_try.
  cbv [session_get get_taiwan_time utcnow logging].
  match goal with
  | |- context [match ?m with Ok _ => _ | Raise _ => _ end] =>
      destruct m as [[name ranking]|e]
  end.
  - reflexivity.
  - destruct (exn_class_eqb (exn_cls e) RequestException); reflexivity.
Qed.

Lemma fetch_app_info_writes (w : world) (urls : list string) :
  forall st, writes (snd (fetch_app_info w urls st)) = writes st.
Proof.
  induction urls as [|url urls IH]; intros st.
  - now rewrite fetch_app_info_nil.
  - rewrite fetch_app_info_cons. cbn [snd]. rewrite IH.
    apply fetch_one_writes.
Qed.

Lemma save_to_json_writes (w : world) (app_infos : list value)
      (folder : string) (st : run) (fs : filesystem) :
  writes (snd (fst (save_to_json w app_infos folder st fs))) = S (writes st).
Proof.
  cbv [save_to_json now get_taiwan_time utcnow fst snd writes count_write
       logging print].
  reflexivity.
Qed.

Section Report.

Variable py_repr : value -> string.

Lemma print_app_of_shape (r : value) (st : run) :
  scraped_shape r \/ error_shape r ->
  exists lines,
    GetAppStore.print_app py_repr r st = (Ok tt, print_each lines st) /\
    List.length lines = (if is_error_record r then 2 else 1)%nat.
Proof.
  intros [(n & k & u & ts & ->) | (u & e & ts & ->)].
  - eexists [_]. split; reflexivity.
  - eexists [_; _]. split; reflexivity.
Qed.

Lemma print_apps_of_shape (l : list value) :
  Forall (fun r => scraped_shape r \/ error_shape r) l ->
  forall st,
  exists lines,
    GetAppStore.print_apps py_repr l st = (Ok tt, print_each lines st) /\
    List.length lines = (List.length l + error_records_of l)%nat.
Proof.
  induction 1 as [|r l Hr Hl IH]; intros st.
  - exists []. split; reflexivity.
  - destruct (print_app_of_shape r st Hr) as (l1 & H1 & Hn1).
    destruct (IH (print_each l1 st)) as (l2 & H2 & Hn2).
    exists (l1 ++ l2)%list. split.
    + cbn [GetAppStore.print_apps]. rewrite H1, H2.
      now rewrite print_each_app.
    + rewrite length_app, Hn1, Hn2. unfold error_records_of.
      cbn [List.filter List.length].
      destruct (is_error_record r); cbn [List.length]; lia.
Qed.

Lemma print_app_ranking_of_shape (w : world) (l : list value) (st : run) :
  Forall (fun r => scraped_shape r \/ error_shape r) l ->
  exists lines st',
    GetAppStore.print_app_ranking py_repr w l st = (Ok tt, st') /\
    stdout st' = (stdout st ++ lines)%list /\
    List.length lines = (6 + List.length l + error_records_of l)%nat /\
    log st' = log st /\ utc_reads st' = utc_reads st /\
    local_reads st' = S (local_reads st) /\ writes st' = writes st.
Proof.
  intros Hl. unfold GetAppStore.print_app_ranking. cbv [now].
  match goal with
  | |- context [GetAppStore.print_apps py_repr l ?s] => set (st5 := s)
  end.
  destruct (print_apps_of_shape l Hl st5) as (lines & Hp & Hn).
  rewrite Hp.
  destruct (print_each_run lines st5) as (H1 & H2 & H3 & H4 & _ & H6).
  eexists. eexists. split; [reflexivity|].
  cbn [print stdout log utc_reads local_reads requests writes].
  rewrite H1, H2, H3, H4, H6. subst st5.
  cbn [print stdout log utc_reads local_reads requests writes].
  rewrite <- !app_assoc. cbn [app].
  split; [reflexivity|]. split; [|repeat split].
  cbn [List.length]. rewrite length_app. cbn [List.length]. lia.
Qed.

Lemma sorted_apps_shape (w : world) (urls : list string) (st : run)
      (sorted_apps : list value) :
  sort_apps_by_ranking (fst (fetch_app_info w urls st)) = Ok sorted_apps ->
  Permutation (fst (fetch_app_info w urls st)) sorted_apps /\
  Forall (fun r => scraped_shape r \/ error_shape r) sorted_apps.
Proof.
  intros Hsort.
  pose proof (fetch_app_info_shape w urls st) as Hshape.
  set (recs := fst (fetch_app_info w urls st)) in *. clearbody recs.
  assert (Hperm : Permutation recs sorted_apps).
  { unfold sort_apps_by_ranking in Hsort.
    destruct (map_result ranking_key recs) as [keys|e] eqn:Hkeys.
    - destruct (sorted_spec ranking_key recs keys Hkeys)
        as (out & Hout & Hp & _).
      congruence.
    - unfold sorted in Hsort. rewrite Hkeys in Hsort. discriminate Hsort. }
  split; [exact Hperm|].
  eapply Permutation_Forall; [exact Hperm | exact Hshape].
Qed.

(** X23.  [print_app_ranking] never raises on the records of
    [fetch_app_info] once they are sorted: it prints five lines of header,
    one line for every record and a second one for every record with an
    [error] field, then the closing rule; it logs nothing and reads the
    local clock once. *)
Theorem print_app_ranking_of_fetched (w w1 : world) (urls : list string)
        (st st1 : run) (sorted_apps : list value) :
  sort_apps_by_ranking (fst (fetch_app_info w urls st)) = Ok sorted_apps ->
  exists lines st',
    GetAppStore.print_app_ranking py_repr w1 sorted_apps st1 = (Ok tt, st') /\
    stdout st' = (stdout st1 ++ lines)%list /\
    List.length lines
      = (6 + List.length urls + error_records_of sorted_apps)%nat /\
    log st' = log st1 /\ local_reads st' = S (local_reads st1).
Proof.
  intros Hsort.
  destruct (sorted_apps_shape w urls st sorted_apps Hsort) as [Hperm Hshape].
  destruct (print_app_ranking_of_shape w1 sorted_apps st1 Hshape)
    as (lines & st' & Hp & Hout & Hn & Hlog & _ & Hloc & _).
  exists lines, st'. split; [exact Hp|]. split; [exact Hout|].
  split; [|split; assumption].
  rewrite Hn. rewrite <- (Permutation_length Hperm).
  pose proof (fetch_app_info_length w urls st) as Hlen. lia.
Qed.

End Report.

Lemma print_app_ranking_of_fetched_witness :
  exists lines st',
    GetAppStore.print_app_ranking (fun _ => "[]") Samples.world_flaky
                                  Pipeline.sorted_apps Pipeline.fetched_run
      = (Ok tt, st') /\
    stdout st' = (stdout Pipeline.fetched_run ++ lines)%list /\
    List.length lines
      = (6 + List.length Samples.urls3
         + error_records_of Pipeline.sorted_apps)%nat /\
    log st' = log Pipeline.fetched_run /\
    local_reads st' = S (local_reads Pipeline.fetched_run).
Proof.
  apply (print_app_ranking_of_fetched (fun _ => "[]") Samples.world_flaky
           Samples.world_flaky Samples.urls3 run0 Pipeline.fetched_run
           Pipeline.sorted_apps).
  vm_compute. reflexivity.
Defined.

(** ** fetch_app_info, record by record *)

Lemma taiwan_time_at_stamp (w : world) (st : run) :
  taiwan_time_at w st = stamp_at w (utc_reads st).
Proof.
  unfold taiwan_time_at, stamp_at, EIGHT_HOURS.
  now rewrite add_hours_of_micros.
Qed.

(** One turn of the loop, from what the world answers: the page of the
    request makes a record of the four plain fields, a failure of the
    request, of the status or of the parser makes the sentinel record; the
    time stamp is that of the one clock reading of the turn. *)
Lemma fetch_one_outcome (w : world) (url : string) (st : run) :
  match page_at w url (requests st) with
  | Ok page =>
      exists name ranking,
        _get_app_name page = Ok name /\
        _get_app_ranking page = Ok ranking /\
        fst (fetch_one w url st)
        = VDict [("name", VStr name); ("ranking", VStr ranking);
                 ("url", VStr url);
                 ("timestamp", VStr (stamp_at w (utc_reads st)))]
  | Raise e =>
      fst (fetch_one w url st) = error_record url e (stamp_at w (utc_reads st))
  end.
Proof.
  rewrite <- taiwan_time_at_stamp.
  unfold page_at, fetch_one, fetch_try.
  cbv [session_get logging]. cbn [requests].
  destruct (network w (requests st) url) as [response|e]; cbn [bind].
  - destruct (raise_for_status response) as [[]|e]; cbn [bind].
    + destruct (html_parser w (text response)) as [page|e]; cbn [bind].
      * rewrite (get_app_name_eq page), (get_app_ranking_eq page). cbn [bind].
        eexists. eexists. split; [reflexivity|]. split; [reflexivity|].
        cbv [get_taiwan_time utcnow taiwan_time_at fst utc_reads].
        reflexivity.
      * destruct (exn_class_eqb (exn_cls e) RequestException);
          cbv [get_taiwan_time utcnow taiwan_time_at fst utc_reads logging];
          reflexivity.
    + destruct (exn_class_eqb (exn_cls e) RequestException);
        cbv [get_taiwan_time utcnow taiwan_time_at fst utc_reads logging];
        reflexivity.
  - destruct (exn_class_eqb (exn_cls e) RequestException);
      cbv [get_taiwan_time utcnow taiwan_time_at fst utc_reads logging];
      reflexivity.
Qed.

(** The same for the [k]-th URL of the list: its record stands at place
    [k], and it is made from the [k]-th request and the [k]-th clock
    reading after those the run had made before. *)
Lemma fetch_app_info_turn (w : world) (urls : list string) :
  forall (st : run) (k : nat) (url : string),
    nth_error urls k = Some url ->
    exists r,
      nth_error (fst (fetch_app_info w urls st)) k = Some r /\
      match page_at w url (requests st + k) with
      | Ok page =>
          exists name ranking,
            _get_app_name page = Ok name /\
            _get_app_ranking page = Ok ranking /\
            r = VDict [("name", VStr name); ("ranking", VStr ranking);
                       ("url", VStr url);
                       ("timestamp", VStr (stamp_at w (utc_reads st + k)))]
      | Raise e => r = error_record url e (stamp_at w (utc_reads st + k))
      end.
Proof.
  induction urls as [|u urls IH]; intros st k url Hk.
  - destruct k; discriminate Hk.
  - rewrite fetch_app_info_cons. cbn [fst]. destruct k as [|k].
    + cbn [nth_error] in Hk. injection Hk as ->.
      exists (fst (fetch_one w url st)). split; [reflexivity|].
      rewrite !Nat.add_0_r. apply fetch_one_outcome.
    + cbn [nth_error] in Hk.
      destruct (IH (snd (fetch_one w u st)) k url Hk) as (r & Hr & Hout).
      exists r. split; [exact Hr|].
      destruct (fetch_one_counts w u st) as [Hreq Hutc].
      rewrite Hreq, Hutc in Hout.
      now rewrite <- !Nat.add_succ_comm.
Qed.

(** C4.  For every list of URLs [fetch_app_info] returns one record for
    every URL, at the place of the URL in the list, and the record carries
    that URL.  What the record is follows from what the world answers to
    the request of its turn (the [k]-th request after those made before
    the call): when the request, the check of the status or the parser
    raises, whatever the exception is, the record is the sentinel record
    made from it, and the URLs after it still get their records; when the
    page is there, the two extractions do not raise and the record holds
    the name and the ranking they return.  No exception of the [try] body
    leaves the loop. *)
Theorem fetch_app_info_one_record_per_url (w : world) (urls : list string)
        (st : run) :
  exists recs st',
    fetch_app_info w urls st = (recs, st') /\
    List.length recs = List.length urls /\
    forall k url,
      nth_error urls k = Some url ->
      exists r,
        nth_error recs k = Some r /\
        py_getitem r "url" = Ok (VStr url) /\
        match page_at w url (requests st + k) with
        | Ok page =>
            exists name ranking,
              _get_app_name page = Ok name /\
              _get_app_ranking page = Ok ranking /\
              r = VDict [("name", VStr name); ("ranking", VStr ranking);
                         ("url", VStr url);
                         ("timestamp", VStr (stamp_at w (utc_reads st + k)))]
        | Raise e => r = error_record url e (stamp_at w (utc_reads st + k))
        end.
Proof.
  exists (fst (fetch_app_info w urls st)), (snd (fetch_app_info w urls st)).
  split; [apply surjective_pairing|].
  split; [apply fetch_app_info_length|].
  intros k url Hk.
  destruct (fetch_app_info_turn w urls st k url Hk) as (r & Hr & Hout).
  exists r. split; [exact Hr|]. split; [|exact Hout].
  destruct (page_at w url (requests st + k)) as [page|e].
  - destruct Hout as (name & ranking & _ & _ & ->). reflexivity.
  - rewrite Hout. reflexivity.
Qed.

(** The run of the sample world: the first request times out, the second
    is answered 404, the third gets the page. *)
Example fetch_app_info_sample :
  fst (fetch_app_info Samples.world_flaky Samples.urls3 run0)
  = [error_record "u1" (mkExn RequestException "Connection timed out")
                  "2024-01-01T08:00:00";
     error_record "u2"
                  (mkExn RequestException
                         "404 Client Error: Not Found for url: u2")
                  "2024-01-01T08:00:02.500000";
     VDict [("name", VStr "BitoPro"); ("ranking", VStr "12");
            ("url", VStr "u3"); ("timestamp", VStr "2024-01-01T08:00:05")]].
Proof. vm_compute. reflexivity. Qed.

(** C5.  A record of [fetch_app_info] that has an [error] field is the
    sentinel record of a failure: its ranking is "999999" and its name is
    "未知"; the request of its own turn (the [k]-th of the call), the check
    of the status or the parser raised, and [error] is the text of that
    exception; its time stamp is the ISO text of the instant eight hours
    after the reading of the UTC clock taken in that turn (the [k]-th of
    the call). *)
Theorem error_records_are_sentinels (w : world) (urls : list string)
        (st : run) (k : nat) (r : value) :
  nth_error (fst (fetch_app_info w urls st)) k = Some r ->
  py_contains "error" r = Ok true ->
  py_getitem r "ranking" = Ok (VStr "999999") /\
  py_getitem r "name" = Ok (VStr "未知") /\
  exists url e,
    nth_error urls k = Some url /\
    page_at w url (requests st + k) = Raise e /\
    py_getitem r "url" = Ok (VStr url) /\
    py_getitem r "error" = Ok (VStr (exn_msg e)) /\
    py_getitem r "timestamp"
      = Ok (VStr (DateTime.isoformat
                    (DateTime.of_micros
                       (utc_clock w (utc_reads st + k) + 8 * 3600 * 1000000)))) /\
    DateTime.to_micros
      (DateTime.of_micros (utc_clock w (utc_reads st + k) + 8 * 3600 * 1000000))
      = utc_clock w (utc_reads st + k) + 8 * 3600 * 1000000.
Proof.
  intros Hr Herr.
  assert (Hk : (k < List.length urls)%nat).
  { rewrite <- (fetch_app_info_length w urls st).
    apply nth_error_Some. congruence. }
  destruct (nth_error urls k) as [url|] eqn:Hurl;
    [|apply nth_error_None in Hurl; lia].
  destruct (fetch_app_info_turn w urls st k url Hurl) as (r' & Hr' & Hout).
  assert (r' = r) by congruence. subst r'.
  destruct (page_at w url (requests st + k)) as [page|e] eqn:Hpage.
  - destruct Hout as (name & ranking & _ & _ & ->). discriminate Herr.
  - subst r. split; [reflexivity|]. split; [reflexivity|].
    exists url, e.
    split; [reflexivity|]. split; [exact Hpage|]. split; [reflexivity|].
    split; [reflexivity|]. split.
    + unfold error_record, stamp_at, EIGHT_HOURS. reflexivity.
    + apply to_micros_of_micros.
Qed.

Lemma error_records_are_sentinels_witness :
  let r := error_record "u2"
             (mkExn RequestException "404 Client Error: Not Found for url: u2")
             "2024-01-01T08:00:02.500000" in
  py_getitem r "ranking" = Ok (VStr "999999") /\
  py_getitem r "name" = Ok (VStr "未知") /\
  exists url e,
    nth_error Samples.urls3 1 = Some url /\
    page_at Samples.world_flaky url (requests run0 + 1) = Raise e /\
    py_getitem r "url" = Ok (VStr url) /\
    py_getitem r "error" = Ok (VStr (exn_msg e)) /\
    py_getitem r "timestamp"
      = Ok (VStr (DateTime.isoformat
                    (DateTime.of_micros
                       (utc_clock Samples.world_flaky (utc_reads run0 + 1)
                        + 8 * 3600 * 1000000)))) /\
    DateTime.to_micros
      (DateTime.of_micros
         (utc_clock Samples.world_flaky (utc_reads run0 + 1)
          + 8 * 3600 * 1000000))
      = utc_clock Samples.world_flaky (utc_reads run0 + 1) + 8 * 3600 * 1000000.
Proof.
  apply (error_records_are_sentinels Samples.world_flaky Samples.urls3 run0 1
           (error_record "u2"
              (mkExn RequestException "404 Client Error: Not Found for url: u2")
              "2024-01-01T08:00:02.500000")).
  - vm_compute. reflexivity.
  - reflexivity.
Defined.

(** X24.  [main] of the scraper saves all or nothing.  When one of the
    fetched rankings is not decimal text (the empty string of a link
    without digits, or a digit that [int] does not read), [main] raises
    ValueError at the sort: the run ends in the state the fetch left, so
    the report is not printed and no snapshot is written, the records of
    the other pages included; the log file and standard error hold the
    lines of the fetch.  Otherwise [main] ends normally and has written
    one snapshot, whose path matches the pattern the loader looks for and
    which reads back as the Taiwan time and the fetched records in sorted
    order; no other snapshot is touched. *)
Theorem main_saves_all_or_nothing (py_repr : value -> string) (w : world)
        (st : run) (fs : filesystem) :
  (forallb decimal_ranking
           (fst (fetch_app_info w GetAppStore.get_app_urls st)) = false ->
   exists e,
     GetAppStore.main py_repr w st fs
       = (Raise e, snd (fetch_app_info w GetAppStore.get_app_urls st), fs) /\
     exn_cls e = ValueError /\
     stdout (snd (fetch_app_info w GetAppStore.get_app_urls st)) = stdout st /\
     writes (snd (fetch_app_info w GetAppStore.get_app_urls st)) = writes st) /\
  (forallb decimal_ranking
           (fst (fetch_app_info w GetAppStore.get_app_urls st)) = true ->
   exists sorted_apps st' fs' p ts,
     sort_apps_by_ranking (fst (fetch_app_info w GetAppStore.get_app_urls st))
       = Ok sorted_apps /\
     GetAppStore.main py_repr w st fs = (Ok tt, st', fs') /\
     glob_match p = true /\
     json_load fs' p
       = Ok (VDict [("timestamp", VStr ts); ("apps", VList sorted_apps)]) /\
     (forall q, q <> p -> fs_find q fs' = fs_find q fs) /\
     writes st' = S (writes st)).
Proof.
  pose proof (fetch_app_info_digits w GetAppStore.get_app_urls st) as Hdig.
  pose proof (fetch_app_info_log w GetAppStore.get_app_urls st)
    as (new & _ & _ & _ & Hout).
  pose proof (fetch_app_info_writes w GetAppStore.get_app_urls st) as Hwr.
  pose proof (sort_of_digits _ Hdig) as Hsort.
  pose proof (sorted_apps_shape w GetAppStore.get_app_urls st) as Hsorted.
  unfold GetAppStore.main.
  destruct (fetch_app_info w GetAppStore.get_app_urls st) as [recs st1].
  cbn [fst snd] in *.
  destruct (sort_apps_by_ranking recs) as [sorted_apps|e] eqn:Hs.
  - split; [intros Hf; congruence|].
    intros _.
    destruct (Hsorted sorted_apps eq_refl) as [Hperm Hshape].
    destruct (print_app_ranking_of_shape py_repr w sorted_apps st1 Hshape)
      as (lines & st2 & Hp & _ & _ & _ & _ & _ & Hw2).
    rewrite Hp.
    destruct (save_to_json_files w sorted_apps DATA_DIR st2 fs)
      as [Hpath Hfs].
    assert (Hwf : forallb wf_value sorted_apps = true).
    { apply forallb_forall. intros x Hx. apply shape_wf.
      rewrite Forall_forall in Hshape. now apply Hshape. }
    pose proof (json_load_saved w sorted_apps DATA_DIR st2 fs Hwf) as Hload.
    pose proof (save_to_json_writes w sorted_apps DATA_DIR st2 fs) as Hw3.
    destruct (save_to_json w sorted_apps DATA_DIR st2 fs)
      as [[p st3] fs3].
    cbn [fst snd] in *.
    exists sorted_apps, st3, fs3, p, (taiwan_time_at w st2).
    split; [reflexivity|]. split; [reflexivity|]. split.
    { rewrite Hpath. apply glob_match_file_name. }
    split; [exact Hload|]. split.
    { intros q Hq. rewrite Hfs. apply fs_find_write_other. congruence. }
    congruence.
  - destruct Hsort as [Hcls Hf]. split.
    + intros _. exists e. repeat split; assumption.
    + intros Ht. congruence.
Qed.

(** ** The loader: records it cannot store *)

Lemma import_app_incomplete (date ct : string) (r : dict) (c : connection) :
  dict_has "error" r = false ->
  lacks_field r = true ->
  exists e, fst (import_app date ct (VDict r) c) = Raise e.
Proof.
  intros Herr Hlack. unfold import_app, bind_sql, lift.
  cbn [py_contains fst]. rewrite Herr.
  unfold lacks_field, EXPECTED_FIELDS, dict_has in Hlack.
  cbn [existsb] in Hlack. cbn [py_getitem].
  destruct (dict_get "name" r); [|eexists; reflexivity].
  destruct (dict_get "version" r); [|eexists; reflexivity].
  destruct (dict_get "ranking" r) as [rk|]; [|eexists; reflexivity].
  destruct (py_int rk); [|eexists; reflexivity].
  destruct (dict_get "url" r); [|eexists; reflexivity].
  destruct (dict_get "timestamp" r); [|eexists; reflexivity].
  discriminate Hlack.
Qed.

Lemma import_apps_stop (date ct : string) (l : list value) (x : value) :
  In x l ->
  (forall c, exists e, fst (import_app date ct x c) = Raise e) ->
  forall c, exists e, fst (import_apps date ct l c) = Raise e.
Proof.
  intros Hin Hx.
  induction l as [|app l IH]; [destruct Hin|].
  intros c. cbn [import_apps]. unfold bind_sql.
  destruct Hin as [-> | Hin].
  - destruct (Hx c) as (e & He).
    destruct (import_app date ct x c) as [[u|e'] c1]; cbn [fst] in He.
    + discriminate He.
    + exists e'. reflexivity.
  - destruct (import_app date ct app c) as [[u|e'] c1].
    + apply IH. assumption.
    + exists e'. reflexivity.
Qed.

Lemma import_rows_stop (sqlite_date : string -> option string) (d : dict)
      (l : list value) (x : value) (ct : string) :
  dict_get "apps" d = Some (VList l) ->
  In x l ->
  (forall date c, exists e, fst (import_app date ct x c) = Raise e) ->
  forall c, exists e, fst (import_rows sqlite_date (VDict d) ct c) = Raise e.
Proof.
  intros Happs Hin Hx.
  unfold import_rows.
  apply bind_sql_tail; intros timestamp.
  apply bind_sql_tail; intros date.
  apply bind_sql_tail; intros n.
  apply bind_sql_tail; intros _.
  intros c. unfold bind_sql at 1. unfold lift at 1. unfold py_get.
  rewrite Happs. cbn [py_iter bind_sql lift].
  apply import_apps_stop with (x := x); [assumption | apply Hx].
Qed.

Lemma import_stops (sqlite_date : string -> option string) (w : world)
      (fs : filesystem) (json_file_path : string) (db : database) (st : run)
      (d : dict) (l : list value) (x : value) :
  json_load fs json_file_path = Ok (VDict d) ->
  dict_get "apps" d = Some (VList l) ->
  In x l ->
  (forall date ct c, exists e, fst (import_app date ct x c) = Raise e) ->
  exists e st',
    import_json_to_db sqlite_date w fs json_file_path db st = (Raise e, db, st').
Proof.
  intros Hload Happs Hin Hx.
  unfold import_json_to_db. rewrite Hload.
  destruct (now w st) as [t st1].
  set (ct := DateTime.isoformat t).
  destruct (import_rows_stop sqlite_date d l x ct Happs Hin
              (fun date => Hx date ct) (connect db)) as (e & He).
  destruct (import_data sqlite_date (VDict d) ct (connect db))
    as [[u|e'] c'] eqn:Himp.
  - exfalso. unfold import_data, bind_sql in Himp.
    destruct (import_rows sqlite_date (VDict d) ct (connect db))
      as [[u'|e''] c1]; cbn [fst] in He; [discriminate He | discriminate Himp].
  - apply import_data_raise in Himp. unfold close. rewrite Himp. cbn.
    eexists. eexists. reflexivity.
Qed.

(** C1.  When the snapshot file holds a record that has no [error] field
    and lacks one of the fields the loader reads from such a record (name,
    version, ranking, url, timestamp), [import_json_to_db] raises: the
    exception leaves the function, and the database file is afterwards
    what it was before the call.  Nothing of the snapshot is in the [apps]
    or the [errors] table, the records that came before the incomplete one
    included, and nothing was deleted either. *)
Theorem import_aborts_on_record_without_version
        (sqlite_date : string -> option string)
        (w : world) (fs : filesystem) (json_file_path : string)
        (db : database) (st : run) (d : dict) (l : list value) (r : dict) :
  json_load fs json_file_path = Ok (VDict d) ->
  dict_get "apps" d = Some (VList l) ->
  In (VDict r) l ->
  dict_has "error" r = false ->
  lacks_field r = true ->
  exists e st',
    import_json_to_db sqlite_date w fs json_file_path db st = (Raise e, db, st').
Proof.
  intros Hload Happs Hin Herr Hlack.
  apply import_stops with (d := d) (l := l) (x := VDict r); try assumption.
  intros date ct c. now apply import_app_incomplete.
Qed.

Lemma import_aborts_on_record_without_version_witness :
  exists e st',
    import_json_to_db Samples.iso_date Samples.world_flaky
      (Samples.snapshot_file Samples.snapshot_mixed_scraped)
      Samples.snapshot_path Loaded.once run0
    = (Raise e, Loaded.once, st').
Proof.
  apply (import_aborts_on_record_without_version Samples.iso_date
           Samples.world_flaky
           (Samples.snapshot_file Samples.snapshot_mixed_scraped)
           Samples.snapshot_path Loaded.once run0
           [("timestamp", VStr "2024-01-01T08:00:05");
            ("apps", VList [Samples.timeout_record; Samples.record "C" "1"])]
           [Samples.timeout_record; Samples.record "C" "1"]
           [("name", VStr "C"); ("ranking", VStr "1"); ("url", VStr "u");
            ("timestamp", VStr "2024-01-01T08:00:00")]).
  - vm_compute. reflexivity.
  - reflexivity.
  - right. left. reflexivity.
  - reflexivity.
  - reflexivity.
Defined.

(** ** save_to_json: the text of the file *)

Lemma startswith_app (p a b : string) :
  PyStr.startswith p a = true -> PyStr.startswith p (a ++ b) = true.
Proof.
  revert a. induction p as [|c p IH]; intros a H; [reflexivity|].
  destruct a as [|x a]; [discriminate H|].
  cbn [PyStr.startswith String.append] in *.
  apply andb_true_iff in H as [Hc Hp]. now rewrite Hc, IH.
Qed.

Lemma startswith_self (p b : string) : PyStr.startswith p (p ++ b) = true.
Proof.
  induction p as [|c p IH]; [reflexivity|].
  cbn [PyStr.startswith String.append]. now rewrite Ascii.eqb_refl, IH.
Qed.

Lemma contains_app_l (sub a b : string) :
  PyStr.contains sub a = true -> PyStr.contains sub (a ++ b) = true.
Proof.
  induction a as [|x a IH]; intros H.
  - cbn [PyStr.contains] in H. rewrite orb_false_r in H.
    destruct sub; [|discriminate H]. now destruct b.
  - cbn [PyStr.contains String.append] in *.
    apply orb_true_iff in H as [H|H].
    + change (String x (a ++ b)) with (String x a ++ b).
      now rewrite (startswith_app _ _ b H).
    + rewrite (IH H). apply orb_true_r.
Qed.

Lemma contains_app_r (sub a b : string) :
  PyStr.contains sub b = true -> PyStr.contains sub (a ++ b) = true.
Proof.
  intros H. induction a as [|x a IH]; [exact H|].
  cbn [PyStr.contains String.append]. rewrite IH. apply orb_true_r.
Qed.

Lemma contains_self (s : string) : PyStr.contains s s = true.
Proof.
  assert (H : PyStr.startswith s s = true).
  { rewrite <- (append_nil_r s) at 2. apply startswith_self. }
  destruct s; cbn [PyStr.contains]; now rewrite H.
Qed.

Lemma contains_concat {A} (sub : string) (f : A -> string) (l : list A)
      (x : A) :
  In x l -> PyStr.contains sub (f x) = true ->
  PyStr.contains sub (PyStr.concat (map f l)) = true.
Proof.
  intros Hin Hx. induction l as [|y l IH]; [destruct Hin|].
  cbn [map PyStr.concat]. destruct Hin as [-> | Hin].
  - now apply contains_app_l.
  - apply contains_app_r. now apply IH.
Qed.

Lemma contains_in_list (sub : string) (lvl : nat) (l : list value)
      (x : value) :
  In x l -> PyStr.contains sub (Json.dumps_at (S lvl) x) = true ->
  PyStr.contains sub (Json.dumps_at lvl (VList l)) = true.
Proof.
  intros Hin Hx. destruct l as [|y l]; [destruct Hin|].
  cbn [Json.dumps_at].
  apply contains_app_r, contains_app_r.
  destruct Hin as [-> | Hin].
  - now apply contains_app_l.
  - apply contains_app_r, contains_app_l.
    apply contains_concat with (x := x); [exact Hin|].
    apply contains_app_r, contains_app_r. exact Hx.
Qed.

Lemma contains_in_dict (sub : string) (lvl : nat) (d : dict)
      (k : string) (x : value) :
  In (k, x) d -> PyStr.contains sub (Json.dumps_at (S lvl) x) = true ->
  PyStr.contains sub (Json.dumps_at lvl (VDict d)) = true.
Proof.
  intros Hin Hx. destruct d as [|[k0 y] d]; [destruct Hin|].
  cbn [Json.dumps_at].
  apply contains_app_r, contains_app_r.
  destruct Hin as [Heq | Hin].
  - injection Heq as -> ->.
    apply contains_app_r, contains_app_r. now apply contains_app_l.
  - apply contains_app_r, contains_app_r, contains_app_r, contains_app_l.
    apply contains_concat with (x := (k, x)); [exact Hin|].
    apply contains_app_r, contains_app_r, contains_app_r, contains_app_r.
    exact Hx.
Qed.

Lemma encode_basestring_plain (s : string) :
  PyStr.all Json.plain s = true -> Json.encode_basestring s = quoted s.
Proof.
  intros H. unfold Json.encode_basestring, quoted. f_equal. f_equal.
  induction s as [|c s IH]; [reflexivity|].
  cbn [PyStr.all] in H. apply andb_true_iff in H as [Hc Hs].
  cbn [Json.escape_string]. rewrite (escape_plain c Hc), (IH Hs). reflexivity.
Qed.

(** C7.  What [save_to_json] writes, [json.load] reads back as the dict it
    dumped, whose [apps] are the records the caller gave, equal field for
    field and in the caller's order: the writer neither sorts nor changes
    them.  And a string of a record that has no quote, backslash or control
    character, all text outside ASCII included, stands in the file as it
    is between two quotes, not as escapes.  The records are Python values
    whose dicts have each key once. *)
Theorem save_to_json_round_trip (w : world) (app_infos : list value)
        (folder : string) (st : run) (fs : filesystem) :
  forallb wf_value app_infos = true ->
  (exists data,
     json_load (snd (save_to_json w app_infos folder st fs))
               (fst (fst (save_to_json w app_infos folder st fs))) = Ok data /\
     py_getitem data "apps" = Ok (VList app_infos)) /\
  (forall d k s,
     In (VDict d) app_infos -> In (k, VStr s) d ->
     PyStr.all Json.plain s = true ->
     exists f,
       fs_find (fst (fst (save_to_json w app_infos folder st fs)))
               (snd (save_to_json w app_infos folder st fs)) = Some f /\
       PyStr.contains (quoted s) (content f) = true).
Proof.
  intros Hwf. split.
  - eexists. split; [now apply json_load_saved | reflexivity].
  - intros d k s Hd Hk Hplain. eexists.
    split; [apply save_to_json_written|]. cbn [content].
    unfold Json.dumps.
    apply contains_in_dict with (k := "apps") (x := VList app_infos);
      [right; left; reflexivity|].
    apply contains_in_list with (x := VDict d); [exact Hd|].
    apply contains_in_dict with (k := k) (x := VStr s); [exact Hk|].
    cbn [Json.dumps_at]. rewrite (encode_basestring_plain s Hplain).
    apply contains_self.
Qed.

Lemma save_to_json_round_trip_witness :
  (exists data,
     json_load (snd (save_to_json Samples.world_flaky [Samples.timeout_record]
                                  DATA_DIR run0 []))
               (fst (fst (save_to_json Samples.world_flaky
                                       [Samples.timeout_record] DATA_DIR
                                       run0 []))) = Ok data /\
     py_getitem data "apps" = Ok (VList [Samples.timeout_record])) /\
  (forall d k s,
     In (VDict d) [Samples.timeout_record] -> In (k, VStr s) d ->
     PyStr.all Json.plain s = true ->
     exists f,
       fs_find (fst (fst (save_to_json Samples.world_flaky
                                       [Samples.timeout_record] DATA_DIR
                                       run0 [])))
               (snd (save_to_json Samples.world_flaky [Samples.timeout_record]
                                  DATA_DIR run0 [])) = Some f /\
       PyStr.contains (quoted s) (content f) = true).
Proof.
  apply (save_to_json_round_trip Samples.world_flaky [Samples.timeout_record]
           DATA_DIR run0 []).
  reflexivity.
Defined.

(** The name of the error records is in the file as its six bytes. *)
Example unknown_name_in_the_file :
  PyStr.contains (quoted "未知")
    (Json.dumps (VDict [("timestamp", VStr "2024-01-01T08:00:05");
                        ("apps", VList [Samples.timeout_record])])) = true /\
  PyStr.contains "\u" 
    (Json.dumps (VDict [("timestamp", VStr "2024-01-01T08:00:05");
                        ("apps", VList [Samples.timeout_record])])) = false.
Proof. split; vm_compute; reflexivity. Qed.
